(** * ERC20 token listener: a shallow embedding of the two listeners

    The repository holds two stand-alone scripts that implement the same
    pipeline (block subscription, creation filter, ERC20 probe, external
    risk scoring, persistence):

    - [src/listener.js]: the two-network listener;
    - [src/unnamed/part_000]: the four-network listener, which adds the
      per-network set of processed addresses, the array wrapping of the
      scorer's input, the guarded parsing of its output and the upsert.

    Module [JS] holds the fragment of JavaScript both scripts rely on,
    [Eff] the monad of their effects (state, trace of events, exceptions),
    [Pipeline] what the two scripts share line for line, [Listener] and
    [MultiChain] the two block handlers with their close handlers, and
    [Supabase] the table the persistence calls are sent to.

    A handler is run to its end before the next one starts.  In the
    scripts a handler gives way at each [await]; the only state handlers
    share is the set of processed addresses, which a handler reads and
    updates in one step, so the properties below that concern it are
    stated over whole handlers and, in [Lifetime.turns_in_any_order], over
    the turns of the loop taken in any order. *)

From Stdlib Require Import ZArith Lia Ascii String List.
From stdpp Require Import base option gmap strings list pretty.

Local Open Scope string_scope.
Local Open Scope Z_scope.
Local Open Scope list_scope.

(* ===================================================================== *)
(** ** The JavaScript fragment used by the listeners                     *)
(* ===================================================================== *)

Module JS.

(** A JavaScript number.  [Int z] is the double whose value is the integer
    [z] ([Int 0] is +0), [Dyadic m e] the non-integral double [m / 2^e]
    ([m] odd).  The listeners only test numbers for truthiness and build
    them from integers. *)
Inductive number :=
| Int (z : Z)
| NegZero
| Dyadic (m : Z) (e : positive)
| Infinity
| NegInfinity
| NaN.

(** Values that [JSON.parse] can return, and [undefined], which reading an
    absent property yields.  An object is its list of own properties. *)
#[local] Unset Elimination Schemes.
Inductive value :=
| VUndefined
| VNull
| VBool (b : bool)
| VNumber (n : number)
| VString (s : string)
| VArray (items : list value)
| VObject (props : list (string * value)).
#[local] Set Elimination Schemes.

Definition obj := list (string * value).

Inductive exn :=
| TypeError (msg : string)
| SyntaxError (msg : string)
| RangeError (msg : string)
| Rejected (reason : string).

(** The outcome of evaluating code that may throw. *)
Inductive completion (A : Type) :=
| Return (a : A)
| Throw (e : exn).
Arguments Return {A} a.
Arguments Throw {A} e.

Definition bind {A B} (c : completion A) (k : A -> completion B) : completion B :=
  match c with
  | Return a => k a
  | Throw e => Throw e
  end.

Notation "'try!' x := c 'in' k" := (bind c (fun x => k))
  (at level 10, x name, c at level 100, k at level 200).

(** [ToBoolean]. *)
Definition truthy_number (n : number) : bool :=
  match n with
  | Int 0 | NegZero | NaN => false
  | _ => true
  end.

Definition truthy (v : value) : bool :=
  match v with
  | VUndefined | VNull => false
  | VBool b => b
  | VNumber n => truthy_number n
  | VString s => negb (String.eqb s "")
  | VArray _ | VObject _ => true
  end.

(** [a || b]. *)
Definition or_else (a b : value) : value := if truthy a then a else b.

(** Own properties: the first binding of a key. *)
Fixpoint own (k : string) (props : obj) : option value :=
  match props with
  | [] => None
  | (k', v) :: rest => if String.eqb k k' then Some v else own k rest
  end.

(** Has a value that [JSON.parse] built a text, that is, does [ToString]
    return on it.  An object is asked for [toString], then for [valueOf]:
    an own property of either name is not a function, as no parsed value
    is one, and the inherited [valueOf] gives back the object, so the
    conversion throws exactly when the object has an own [toString]
    property.  An array joins the texts of its elements. *)
Fixpoint printable (v : value) : bool :=
  match v with
  | VObject props => match own "toString" props with Some _ => false | None => true end
  | VArray items => forallb printable items
  | _ => true
  end.

(** A value substituted in a template literal: the value, whose text the
    literal takes, or the [TypeError] of [ToString]. *)
Definition interpolate (v : value) : completion value :=
  if printable v then Return v
  else Throw (TypeError "Cannot convert object to primitive value").

(** [v.k] for a key [k] that no prototype defines (every key the listeners
    read is of that kind): a [TypeError] on [null] and [undefined], the own
    property of an object, [undefined] otherwise. *)
Definition get (v : value) (k : string) : completion value :=
  match v with
  | VUndefined | VNull => Throw (TypeError ("Cannot read properties of null or undefined: " +:+ k))
  | VObject props => Return (default VUndefined (own k props))
  | _ => Return VUndefined
  end.

(** [{ ...o, k: v }]: an existing key keeps its place and takes the new
    value, a new key goes last. *)
Fixpoint set (k : string) (v : value) (o : obj) : obj :=
  match o with
  | [] => [(k, v)]
  | (k', v') :: rest => if String.eqb k k' then (k, v) :: rest else (k', v') :: set k v rest
  end.

Definition Array_isArray (v : value) : bool :=
  match v with VArray _ => true | _ => false end.

(** Strings are sequences of code units below 256; these are the white
    space and line terminator code units in that range. *)
Definition isWhiteSpace (a : ascii) : bool :=
  let n := nat_of_ascii a in
  (Nat.eqb n 9 || Nat.eqb n 10 || Nat.eqb n 11 || Nat.eqb n 12 ||
   Nat.eqb n 13 || Nat.eqb n 32 || Nat.eqb n 160)%bool.

Fixpoint trimStart (s : string) : string :=
  match s with
  | EmptyString => EmptyString
  | String a rest => if isWhiteSpace a then trimStart rest else s
  end.

Fixpoint trimEnd (s : string) : string :=
  match s with
  | EmptyString => EmptyString
  | String a rest =>
      match trimEnd rest with
      | EmptyString => if isWhiteSpace a then EmptyString else String a EmptyString
      | t => String a t
      end
  end.

(** [String.prototype.trim]. *)
Definition trim (s : string) : string := trimEnd (trimStart s).

Definition truthy_string (s : string) : bool := negb (String.eqb s "").

(** [Number(b)] for a BigInt [b]: the nearest double, ties to even, and an
    infinity from [2^1024 - 2^970] on.  A double has 53 significant bits. *)
Definition Number_of_BigInt (b : Z) : number :=
  let a := Z.abs b in
  let e := Z.log2 a in
  if e <? 53 then Int b
  else
    let s := e - 52 in
    let q := Z.shiftr a s in
    let r := Z.land a (Z.ones s) in
    let half := Z.shiftl 1 (s - 1) in
    let q' := if r <? half then q
              else if half <? r then q + 1
              else if Z.even q then q else q + 1 in
    let m := Z.shiftl q' s in
    if Z.shiftl 1 1024 <=? m
    then (if b <? 0 then NegInfinity else Infinity)
    else Int (Z.sgn b * m).

(** An integer that a double holds exactly: at most 53 significant bits
    and below [2^1024]. *)
Definition representable (z : Z) : Prop :=
  exists m e, 0 <= e /\ Z.abs m < 2 ^ 53 /\ z = m * 2 ^ e /\ Z.abs z < 2 ^ 1024.

(** What the platform provides and the listeners take as given. *)
Class Platform := {
  (** [JSON.parse]; [None] stands for the [SyntaxError] it throws. *)
  JSON_parse : string -> option value;
  (** [JSON.stringify] on a value other than [undefined]. *)
  JSON_stringify : value -> string;
  (** [new Date(ms).toISOString()]; [None] stands for the [RangeError] of
      an invalid date. *)
  toISOString : Z -> option string
}.

(** [JSON.stringify(v)], which is [undefined] on [undefined]. *)
Definition stringify `{Platform} (v : value) : value :=
  match v with
  | VUndefined => VUndefined
  | _ => VString (JSON_stringify v)
  end.

End JS.

(* ===================================================================== *)
(** ** Effects: a trace of events, a state, and exceptions               *)
(* ===================================================================== *)

Module Eff.
Import JS.

Section Monad.
Context {S E : Type}.

(** A computation reads and updates the state, appends to the trace of
    observable events and either returns or throws. *)
Definition M (A : Type) : Type := S -> S * list E * completion A.

Definition ret {A} (a : A) : M A := fun s => (s, [], Return a).

Definition mbind {A B} (m : M A) (k : A -> M B) : M B :=
  fun s =>
    match m s with
    | (s1, ev1, Return a) =>
        match k a s1 with
        | (s2, ev2, r) => (s2, ev1 ++ ev2, r)
        end
    | (s1, ev1, Throw e) => (s1, ev1, Throw e)
    end.

Definition emit (e : E) : M unit := fun s => (s, [e], Return tt).

Definition throw {A} (e : exn) : M A := fun s => (s, [], Throw e).

Definition lift {A} (c : completion A) : M A := fun s => (s, [], c).

Definition gets {A} (f : S -> A) : M A := fun s => (s, [], Return (f s)).

Definition modify (f : S -> S) : M unit := fun s => (f s, [], Return tt).

(** [try { m } catch (e) { h e }]. *)
Definition try_catch {A} (m : M A) (h : exn -> M A) : M A :=
  fun s =>
    match m s with
    | (s1, ev1, Return a) => (s1, ev1, Return a)
    | (s1, ev1, Throw e) =>
        match h e s1 with
        | (s2, ev2, r) => (s2, ev1 ++ ev2, r)
        end
    end.

(** [if (c) { m }]. *)
Definition when (c : bool) (m : M unit) : M unit := if c then m else ret tt.

(** [for (const x of xs) { body x }]. *)
Fixpoint for_of {A} (xs : list A) (body : A -> M unit) : M unit :=
  match xs with
  | [] => ret tt
  | x :: rest => mbind (body x) (fun _ => for_of rest body)
  end.
End Monad.

Arguments M : clear implicits.

Declare Scope eff_scope.
Delimit Scope eff_scope with eff.
Notation "x <- m ; k" := (mbind m (fun x => k))
  (at level 100, m at next level, right associativity) : eff_scope.
Notation "m ;; k" := (mbind m (fun _ => k))
  (at level 100, right associativity) : eff_scope.

End Eff.

(* ===================================================================== *)
(** ** What the two listeners share                                      *)
(* ===================================================================== *)

Module Pipeline.
Import JS Eff.
Local Open Scope eff_scope.

(** A transaction as the provider returns it: [creates] is the address of
    the contract the transaction deployed, or [null]. *)
Record tx := { creates : option string; from : string }.

(** A block with its transactions; [timestamp] is in seconds. *)
Record block := { transactions : option (list tx); timestamp : Z }.

(** [decimals()] comes back as a number or as a BigInt, depending on the
    transport. *)
Inductive uint :=
| Num (n : number)
| BigInt (b : Z).

(** The three reads of one probe; each read returns or is rejected. *)
Record reads := {
  name : completion string;
  symbol : completion string;
  decimals : completion uint
}.

(** How the scorer's process ended: what it wrote to its two streams and
    its exit code ([None] when a signal ended it). *)
Record exit := { riskResult : string; riskError : string; code : option Z }.

Inductive db_call :=
| Insert (table : string) (rows : list obj)
| Upsert (table : string) (rows : list obj) (onConflict : string).

(** The answer of the datastore client: no error, an [error] in the
    result, or a rejected promise. *)
Inductive db_response :=
| DbOk
| DbError (error : string)
| DbThrow (e : exn).

(** The console messages of the two scripts. *)
Inductive line :=
| Detected (tokenData : obj)
| PythonStderrOutput (riskError : string)
| PythonRiskAssessmentError (riskError : string)
| RiskAssessment (riskAssessment : value)
| SkippingRiskAssessment (code : option Z)
| FailedToParse (err : exn) (riskResult : string)
| PreparingToSave (fraud_type risk_category : value)
| SupabaseInsertError (error : string)
| SavedToSupabase
| SupabaseInsertException (dbErr : exn)
| ErrorProcessingBlock (err : exn).

(** Observable events.  [Verify] is the probe of an address: the three
    reads that [Promise.all] issues together.  [Spawn] is a scorer process
    started and given [stdin]; [job] identifies it and [tokenData] is what
    its close handler holds. *)
Inductive event :=
| Verify (chainName contractAddress : string)
| ConsoleLog (l : line)
| ConsoleError (l : line)
| Spawn (job : nat) (stdin : string) (tokenData : obj)
| Supabase (c : db_call).

(** The collaborators, by logical time: the answers of the contract-call
    transport to the probe number [n], the way the scorer started by that
    probe ends, and the answer of the datastore to its record.  A scorer
    process is taken to start and to close; the scripts have no handler
    for a process that cannot be started. *)
Record world := {
  contract : nat -> string -> string -> reads;
  python : nat -> string -> exit;
  supabase : nat -> db_call -> db_response
}.

(** [!tx.creates] is false: the field is a non-empty string. *)
Definition deploys (t : tx) : bool :=
  match creates t with
  | Some a => truthy_string a
  | None => false
  end.

(** The candidates of a block, in the words of the specification: the
    transactions whose [creates] field is not empty, in the order of the
    block. *)
Definition candidates (txs : list tx) : list tx := List.filter deploys txs.

(** [const contractAddress = tx.creates] on a candidate. *)
Definition address (t : tx) : string := default "" (creates t).
Arguments address : simpl never.

(** [await Promise.all([contract.name(), contract.symbol(),
    contract.decimals()])]: the three values, or a rejection as soon as one
    read is rejected (the handler never looks at the reason). *)
Definition Promise_all (r : reads) : completion (string * string * uint) :=
  try! n := name r in
  try! s := symbol r in
  try! d := decimals r in
  Return (n, s, d).

(** One of the three reads is rejected. *)
Definition fails (r : reads) : Prop :=
  (exists e, name r = Throw e) \/ (exists e, symbol r = Throw e) \/
  (exists e, decimals r = Throw e).

(** [typeof decimals === 'bigint' ? Number(decimals) : decimals]. *)
Definition safeDecimals (decimals : uint) : number :=
  match decimals with
  | BigInt b => Number_of_BigInt b
  | Num n => n
  end.

Definition createdBlockDatetime `{Platform} (createdBlockTimestamp : Z) : completion string :=
  match toISOString (createdBlockTimestamp * 1000) with
  | Some s => Return s
  | None => Throw (RangeError "Invalid time value")
  end.

(** The body of the inner [try] up to [tokenData] (listener.js 54-73,
    part_000 97-117). *)
Definition tokenData `{Platform} (chainName contractAddress : string)
    (t : tx) (b : block) (r : reads) : completion obj :=
  try! nsd := Promise_all r in
  let '(name, symbol, decimals) := nsd in
  let creatorAddress := from t in
  let createdBlockTimestamp := timestamp b in
  try! createdBlockDatetime := createdBlockDatetime createdBlockTimestamp in
  let safeDecimals := safeDecimals decimals in
  Return [ ("contract_address", VString contractAddress);
           ("creator_address", VString creatorAddress);
           ("created_block_timestamp", VString createdBlockDatetime);
           ("name", VString name);
           ("symbol", VString symbol);
           ("decimals", VNumber safeDecimals);
           ("blockchain", VString chainName) ].

(** [riskResult && riskResult.trim()] is truthy. *)
Definition nonblank (s : string) : bool :=
  truthy_string s && truthy_string (trim s).

Definition parse `{Platform} (text : string) : completion value :=
  match JSON_parse text with
  | Some v => Return v
  | None => Throw (SyntaxError "Unexpected token in JSON")
  end.

(** [await supabase.from(table)...]: the call is sent, and the promise
    resolves to [{ error }] or is rejected. *)
Definition send {S} (c : db_call) (resp : db_response) : M S event (option string) :=
  emit (Supabase c);;
  match resp with
  | DbOk => ret None
  | DbError error => ret (Some error)
  | DbThrow e => throw e
  end.

(** [if (error) console.error(...) else console.log('Saved to Supabase.')]. *)
Definition report {S} (error : option string) : M S event unit :=
  match error with
  | Some error => emit (ConsoleError (SupabaseInsertError error))
  | None => emit (ConsoleLog SavedToSupabase)
  end.

(** The scorer processes a trace started, in order. *)
Fixpoint jobs (trace : list event) : list (nat * string * obj) :=
  match trace with
  | [] => []
  | Spawn job stdin tokenData :: rest => (job, stdin, tokenData) :: jobs rest
  | _ :: rest => jobs rest
  end.

End Pipeline.

(* ===================================================================== *)
(** ** src/listener.js: the two-network listener                         *)
(* ===================================================================== *)

Module Listener.
Import JS Eff Pipeline.
Local Open Scope eff_scope.

Definition NETWORKS : list string := ["ethereum"; "base"].

(** The script keeps no state of its own; the state of the model is the
    logical time, the number of probes issued so far. *)
Definition state := nat.

Definition next_tick : M state event nat := fun n => (S n, [], Return n).

Section Handlers.
Context `{Platform} (W : world).

(** Lines 51-123: the probe and what follows it inside the inner [try]. *)
Definition verify (chainName : string) (b : block) (t : tx)
    (contractAddress : string) : M state event unit :=
  n <- next_tick;
  try_catch
    (emit (Verify chainName contractAddress);;
     tokenData <- lift (tokenData chainName contractAddress t b
                          (contract W n chainName contractAddress));
     emit (ConsoleLog (Detected tokenData));;
     emit (Spawn n (JSON_stringify (VObject tokenData)) tokenData))
    (fun e => ret tt).

(** Lines 47-124: one turn of the loop over the transactions. *)
Definition iteration (chainName : string) (b : block) (t : tx) : M state event unit :=
  if negb (deploys t) then ret tt
  else
    let contractAddress := address t in
    verify chainName b t contractAddress.

(** Lines 42-128: the handler of the 'block' event; [fetched] is what
    [getBlockWithTransactions] gave for the block number. *)
Definition on_block (chainName : string) (fetched : completion (option block))
    : M state event unit :=
  try_catch
    (blk <- lift fetched;
     match blk with
     | None => ret tt
     | Some b =>
         match transactions b with
         | None => ret tt
         | Some txs => for_of txs (iteration chainName b)
         end
     end)
    (fun err => emit (ConsoleError (ErrorProcessingBlock err))).

(** Lines 103-110: the record with the fields of the assessment. *)
Definition with_assessment (tokenData : obj) (riskAssessment : value) : completion obj :=
  try! risk_score := get riskAssessment "risk_score" in
  try! is_suspicious := get riskAssessment "is_suspicious" in
  try! indicators := get riskAssessment "indicators" in
  try! details := get riskAssessment "details" in
  try! suspicious := get riskAssessment "is_suspicious" in
  Return (set "tag_1" (if truthy suspicious then VString "Phishing" else VNull)
         (set "risk_details" (stringify details)
         (set "risk_indicators" (stringify indicators)
         (set "is_suspicious" is_suspicious
         (set "risk_score" risk_score tokenData))))).

(** Lines 89-120: the handler of the scorer's 'close' event. *)
Definition on_close {S} (tokenData : obj) (x : exit) (db : db_call -> db_response)
    : M S event unit :=
  when (truthy_string (riskError x))
    (emit (ConsoleError (PythonRiskAssessmentError (riskError x))));;
  riskAssessment <-
    try_catch
      (v <- lift (parse (riskResult x));
       emit (ConsoleLog (RiskAssessment v));;
       ret v)
      (fun err => emit (ConsoleError (FailedToParse err (riskResult x)));; ret VNull);
  try_catch
    (insertData <-
       (if truthy riskAssessment
        then lift (with_assessment tokenData riskAssessment)
        else ret tokenData);
     let c := Insert "erc20_tokens" [insertData] in
     error <- send c (db c);
     report error)
    (fun dbErr => emit (ConsoleError (SupabaseInsertException dbErr))).

(** What the close handler of one scorer process prints and sends. *)
Definition close (j : nat * string * obj) : list event :=
  let '(job, stdin, tokenData) := j in
  (on_close tokenData (python W job stdin) (supabase W job) tt).1.2.

(** One block delivered on a network: the block handler, then the close
    handlers of the scorer processes it started.  The close handlers run
    in later turns of the event loop; what each does depends only on its
    own process, so they are placed after the block handler here. *)
Definition deliver (chainName : string) (fetched : completion (option block))
    (st : state) : state * list event :=
  match on_block chainName fetched st with
  | (st1, trace, _) => (st1, trace ++ flat_map close (jobs trace))
  end.

Fixpoint run (ds : list (string * completion (option block))) (st : state)
    : state * list event :=
  match ds with
  | [] => (st, [])
  | (chainName, fetched) :: rest =>
      match deliver chainName fetched st with
      | (st1, trace1) =>
          match run rest st1 with
          | (st2, trace2) => (st2, trace1 ++ trace2)
          end
      end
  end.
End Handlers.

End Listener.

(* ===================================================================== *)
(** ** src/unnamed/part_000: the four-network listener                   *)
(* ===================================================================== *)

Module MultiChain.
Import JS Eff Pipeline.
Local Open Scope eff_scope.

Definition NETWORKS : list string := ["ethereum"; "base"; "polygon"; "arbitrum"].

(** [processedContracts] (line 76) maps a network name to the set of the
    addresses processed on it; [tick] is the logical time, the number of
    probes issued so far. *)
Record state := {
  processedContracts : gmap string (gset string);
  tick : nat
}.

Definition next_tick : M state event nat :=
  fun st => ({| processedContracts := processedContracts st; tick := S (tick st) |},
             [], Return (tick st)).

(** Line 79, once per network before its handler is registered:
    [if (!processedContracts[chainName]) processedContracts[chainName] = new Set()]. *)
Definition register (pc : gmap string (gset string)) (chainName : string)
    : gmap string (gset string) :=
  match pc !! chainName with
  | Some _ => pc
  | None => <[chainName := ∅]> pc
  end.

Definition startup : state :=
  {| processedContracts := foldl register ∅ NETWORKS; tick := 0 |}.

(** Line 91: [processedContracts[chainName].has(contractAddress)]. *)
Definition has (chainName contractAddress : string) : M state event bool :=
  pc <- gets processedContracts;
  match pc !! chainName with
  | None => throw (TypeError "Cannot read properties of undefined (reading 'has')")
  | Some seen => ret (bool_decide (contractAddress ∈ seen))
  end.

(** Line 92: [processedContracts[chainName].add(contractAddress)]. *)
Definition add (chainName contractAddress : string) : M state event unit :=
  pc <- gets processedContracts;
  match pc !! chainName with
  | None => throw (TypeError "Cannot read properties of undefined (reading 'add')")
  | Some seen =>
      modify (fun st => {| processedContracts :=
                             <[chainName := {[contractAddress]} ∪ seen]> (processedContracts st);
                           tick := tick st |})
  end.

(** Lines 91-92 together, the check the specification calls
    [shouldProcess]: false when the address is in the set of the network,
    otherwise the address is added and the answer is true. *)
Definition shouldProcess (chainName contractAddress : string) : M state event bool :=
  seen <- has chainName contractAddress;
  if seen then ret false
  else add chainName contractAddress;; ret true.

Section Handlers.
Context `{Platform} (W : world).

(** Lines 94-198: the probe and what follows it inside the inner [try]. *)
Definition verify (chainName : string) (b : block) (t : tx)
    (contractAddress : string) : M state event unit :=
  n <- next_tick;
  try_catch
    (emit (Verify chainName contractAddress);;
     tokenData <- lift (tokenData chainName contractAddress t b
                          (contract W n chainName contractAddress));
     emit (ConsoleLog (Detected tokenData));;
     emit (Spawn n (JSON_stringify (VArray [VObject tokenData])) tokenData))
    (fun e => ret tt).

(** Lines 87-199: one turn of the loop over the transactions. *)
Definition iteration (chainName : string) (b : block) (t : tx) : M state event unit :=
  if negb (deploys t) then ret tt
  else
    let contractAddress := address t in
    fresh <- shouldProcess chainName contractAddress;
    if fresh then verify chainName b t contractAddress else ret tt.

(** Lines 82-203: the handler of the 'block' event. *)
Definition on_block (chainName : string) (fetched : completion (option block))
    : M state event unit :=
  try_catch
    (blk <- lift fetched;
     match blk with
     | None => ret tt
     | Some b =>
         match transactions b with
         | None => ret tt
         | Some txs => for_of txs (iteration chainName b)
         end
     end)
    (fun err => emit (ConsoleError (ErrorProcessingBlock err))).

(** [riskAssessment.length] and [riskAssessment[0]] on an array. *)
Definition length_of (v : value) : Z :=
  match v with VArray items => Z.of_nat (length items) | _ => 0 end.

Definition first (v : value) : value :=
  match v with VArray (x :: _) => x | _ => VUndefined end.

(** Lines 166-178: the record with the fields of the assessment. *)
Definition with_assessment (insertData : obj) (assessment : value) : completion obj :=
  try! risk_category := get assessment "risk_category" in
  try! fraud_type := get assessment "fraud_type" in
  try! phishing_indicators := get assessment "phishing_indicators" in
  try! urls_found := get assessment "urls_found" in
  try! money_amounts := get assessment "money_amounts" in
  try! details := get assessment "details" in
  Return (set "detection_details"
            (VString (JSON_stringify (VObject
               [ ("phishing_indicators", or_else phishing_indicators (VArray []));
                 ("urls_found", or_else urls_found (VArray []));
                 ("money_amounts", or_else money_amounts (VArray []));
                 ("details", or_else details (VObject [])) ])))
         (set "fraud_type" (or_else fraud_type (VString "unknown"))
         (set "risk_category" (or_else risk_category (VString "unknown"))
            insertData))).

(** Line 161: is there an assessment to attach. *)
Definition available (riskAssessment : value) : bool :=
  truthy riskAssessment && Array_isArray riskAssessment && (0 <? length_of riskAssessment).

(** Lines 158-181: [insertData].  The log line of line 180 is a template
    literal: it throws when one of the two fields it prints has no text. *)
Definition insertData {S} (tokenData : obj) (riskAssessment : value) : M S event obj :=
  let insertData := tokenData in
  if available riskAssessment then
    let assessment := first riskAssessment in
    insertData <- lift (with_assessment insertData assessment);
    fraud_type <- lift (try! v := get assessment "fraud_type" in interpolate v);
    risk_category <- lift (try! v := get assessment "risk_category" in interpolate v);
    emit (ConsoleLog (PreparingToSave fraud_type risk_category));;
    ret insertData
  else ret insertData.

(** Lines 140-153: [riskAssessment]. *)
Definition riskAssessment {S} (x : exit) : M S event value :=
  try_catch
    (if nonblank (riskResult x) then
       v <- lift (parse (riskResult x));
       emit (ConsoleLog (RiskAssessment v));;
       ret v
     else if negb (bool_decide (code x = Some 0)) then
       emit (ConsoleLog (SkippingRiskAssessment (code x)));;
       ret VNull
     else ret VNull)
    (fun err => emit (ConsoleError (FailedToParse err (riskResult x)));; ret VNull).

(** Lines 133-195: the handler of the scorer's 'close' event. *)
Definition on_close {S} (tokenData : obj) (x : exit) (db : db_call -> db_response)
    : M S event unit :=
  when (truthy_string (riskError x))
    (emit (ConsoleLog (PythonStderrOutput (riskError x))));;
  riskAssessment <- riskAssessment x;
  try_catch
    (insertData <- insertData tokenData riskAssessment;
     let c := Upsert "erc20_tokens" [insertData] "contract_address,blockchain" in
     error <- send c (db c);
     report error)
    (fun dbErr => emit (ConsoleError (SupabaseInsertException dbErr))).

Definition close (j : nat * string * obj) : list event :=
  let '(job, stdin, tokenData) := j in
  (on_close tokenData (python W job stdin) (supabase W job) tt).1.2.

(** One block delivered on a network: the block handler, then the close
    handlers of the scorer processes it started (see [Listener.deliver]). *)
Definition deliver (chainName : string) (fetched : completion (option block))
    (st : state) : state * list event :=
  match on_block chainName fetched st with
  | (st1, trace, _) => (st1, trace ++ flat_map close (jobs trace))
  end.

Fixpoint run (ds : list (string * completion (option block))) (st : state)
    : state * list event :=
  match ds with
  | [] => (st, [])
  | (chainName, fetched) :: rest =>
      match deliver chainName fetched st with
      | (st1, trace1) =>
          match run rest st1 with
          | (st2, trace2) => (st2, trace1 ++ trace2)
          end
      end
  end.
End Handlers.

End MultiChain.


(* ===================================================================== *)
(** ** The datastore                                                     *)
(* ===================================================================== *)

Module Supabase.
Import JS Pipeline.

(** A stored row is the object that was sent; the table keeps its rows in
    the order they were first stored. *)
Definition table := list obj.

Definition text (row : obj) (column : string) : option string :=
  match own column row with
  | Some (VString s) => Some s
  | _ => None
  end.

(** The natural key of a record: [(contract_address, blockchain)]. *)
Definition key (row : obj) : option (string * string) :=
  match text row "contract_address", text row "blockchain" with
  | Some a, Some n => Some (a, n)
  | _, _ => None
  end.

Definition has_key (k : string * string) (row : obj) : bool :=
  bool_decide (key row = Some k).

Definition rows_with (k : string * string) (t : table) : table :=
  List.filter (has_key k) t.

(** The request body is JSON: a property whose value is [undefined] is not
    sent. *)
Definition columns (row : obj) : obj :=
  List.filter (fun kv => match kv.2 with VUndefined => false | _ => true end) row.

(** The stored row takes every column of the new record and keeps its
    other columns. *)
Definition merge (old new : obj) : obj :=
  fold_right (fun kv acc => set kv.1 kv.2 acc) old new.

Definition conflicts (row : obj) (t : table) : bool :=
  match key row with
  | Some k => existsb (has_key k) t
  | None => false
  end.

Fixpoint update (k : string * string) (row : obj) (t : table) : table :=
  match t with
  | [] => []
  | r :: rest => if has_key k r then merge r row :: rest else r :: update k row rest
  end.

(** Modelled from the spec: the persistence collaborator is not part of the
    sources; section 4.7 gives its contract, an upsert keyed by the
    [(contract_address, blockchain)] unique constraint, under which a
    second insert for the same key updates the existing row. *)
Definition upsert (row : obj) (t : table) : table :=
  match key row with
  | Some k => if conflicts row t then update k row t else t ++ [row]
  | None => t ++ [row]
  end.

(** Modelled from the spec: a plain insert into the table with that unique
    constraint; a record whose key is already stored is refused and the
    table stays as it was. *)
Definition insert (row : obj) (t : table) : option table :=
  if conflicts row t then None else Some (t ++ [row]).

Fixpoint insert_all (rows : list obj) (t : table) : option table :=
  match rows with
  | [] => Some t
  | row :: rest =>
      match insert (columns row) t with
      | Some t1 => insert_all rest t1
      | None => None
      end
  end.

(** The answer of the datastore to a call, and the table after it. *)
Definition exec (c : db_call) (t : table) : table * db_response :=
  match c with
  | Upsert name rows onConflict =>
      if String.eqb name "erc20_tokens" && String.eqb onConflict "contract_address,blockchain"
      then (fold_left (fun t row => upsert (columns row) t) rows t, DbOk)
      else (t, DbError "no such table or constraint")
  | Insert name rows =>
      if String.eqb name "erc20_tokens"
      then match insert_all rows t with
           | Some t1 => (t1, DbOk)
           | None => (t, DbError "duplicate key value violates unique constraint")
           end
      else (t, DbError "no such table")
  end.

(** The calls of a trace, in order. *)
Fixpoint calls (trace : list event) : list db_call :=
  match trace with
  | [] => []
  | Supabase c :: rest => c :: calls rest
  | _ :: rest => calls rest
  end.

(** The table after the calls of a trace, with the answers they got. *)
Fixpoint replay (cs : list db_call) (t : table) : table * list db_response :=
  match cs with
  | [] => (t, [])
  | c :: rest =>
      match exec c t with
      | (t1, resp) =>
          match replay rest t1 with
          | (t2, resps) => (t2, resp :: resps)
          end
      end
  end.

End Supabase.

(* ===================================================================== *)
(** ** Reading a trace                                                   *)
(* ===================================================================== *)

Module Trace.
Import JS Pipeline.

(** How many times the address [A] was probed on the network [N]. *)
Fixpoint probes (N A : string) (trace : list event) : nat :=
  match trace with
  | [] => 0%nat
  | Verify chainName contractAddress :: rest =>
      ((if bool_decide (chainName = N /\ contractAddress = A) then 1 else 0)
       + probes N A rest)%nat
  | _ :: rest => probes N A rest
  end.

(** The probes of a trace, in order. *)
Fixpoint probed (trace : list event) : list (string * string) :=
  match trace with
  | [] => []
  | Verify chainName contractAddress :: rest => (chainName, contractAddress) :: probed rest
  | _ :: rest => probed rest
  end.

(** The records sent to the datastore, in order. *)
Fixpoint sent (trace : list event) : list obj :=
  match trace with
  | [] => []
  | Supabase (Insert _ rows) :: rest => rows ++ sent rest
  | Supabase (Upsert _ rows _) :: rest => rows ++ sent rest
  | _ :: rest => sent rest
  end.

(** How many records of the trace were sent for the address [A] on the
    network [N]. *)
Definition saves (N A : string) (trace : list event) : nat :=
  length (Supabase.rows_with (A, N) (sent trace)).

(** How many scorer processes the trace started for [A] on [N]. *)
Definition scored (N A : string) (trace : list event) : nat :=
  length (Supabase.rows_with (A, N) (map snd (jobs trace))).

(** Does a record carry the risk fields. *)
Definition has_verdict (row : obj) : bool :=
  match own "risk_category" row, own "fraud_type" row, own "detection_details" row with
  | Some _, Some _, Some _ => true
  | _, _, _ => false
  end.

(** A record without the risk fields. *)
Definition bare (row : obj) : Prop := has_verdict row = false.

(** The condition the specification gives for a verdict: the scorer exits
    with status 0 and its output is a non-blank text that parses. *)
Definition clean_exit_with_result `{Platform} (x : exit) : Prop :=
  code x = Some 0 /\ nonblank (riskResult x) = true /\
  is_Some (JSON_parse (riskResult x)).

(** The trace of a close handler sends one record, with the risk fields. *)
Definition attaches (trace : list event) : Prop :=
  exists row, sent trace = [row] /\ has_verdict row = true.

End Trace.


(* ===================================================================== *)
(** ** A platform, a world and blocks for closed examples                *)
(* ===================================================================== *)

Module Sample.
Import JS Pipeline.

Definition q : string := String (ascii_of_nat 34) EmptyString.

(** The key [k] between double quotes, then a colon. *)
Definition field (k : string) : string := q +:+ k +:+ q +:+ ":".

Definition high_phishing : string :=
  "[{" +:+ field "risk_category" +:+ q +:+ "high" +:+ q +:+ ","
       +:+ field "fraud_type" +:+ q +:+ "phishing" +:+ q +:+ "}]".

Definition suspicious : string := "{" +:+ field "is_suspicious" +:+ "true}".

(** One assessment whose [fraud_type] is an object with a [toString]
    property. *)
Definition unprintable : string :=
  "[{" +:+ field "fraud_type" +:+ "{" +:+ field "toString" +:+ "null}}]".

(** The texts the examples give to [JSON.parse], with what it makes of
    them; any other text the examples use is not JSON. *)
Definition texts : list (string * value) :=
  [ ("[{}]", VArray [VObject []]);
    ("[null]", VArray [VNull]);
    ("[]", VArray []);
    ("{}", VObject []);
    ("null", VNull);
    (high_phishing,
       VArray [VObject [("risk_category", VString "high");
                        ("fraud_type", VString "phishing")]]);
    (suspicious, VObject [("is_suspicious", VBool true)]);
    (unprintable,
       VArray [VObject [("fraud_type", VObject [("toString", VNull)])]]) ].

Definition JSON_parse (text : string) : option value := own text texts.

Definition digits (z : Z) : string := pretty z.

(** Serialization of the values the examples send: strings that need no
    escape, integers, arrays and objects. *)
Fixpoint JSON_stringify (v : value) : string :=
  match v with
  | VUndefined | VNull => "null"
  | VBool true => "true"
  | VBool false => "false"
  | VNumber (Int 0) => "0"
  | VNumber (Int z) => digits z
  | VNumber _ => "null"
  | VString s => q +:+ s +:+ q
  | VArray items =>
      "[" +:+ String.concat "," (map JSON_stringify items) +:+ "]"
  | VObject props =>
      "{" +:+ String.concat ","
                (map (fun kv => field kv.1 +:+ JSON_stringify kv.2) props) +:+ "}"
  end.

(** 1700000000 seconds after the epoch. *)
Definition toISOString (ms : Z) : option string :=
  if ms =? 1700000000000 then Some "2023-11-14T22:13:20.000Z" else None.

Definition platform : Platform :=
  {| JS.JSON_parse := JSON_parse;
     JS.JSON_stringify := JSON_stringify;
     JS.toISOString := toISOString |}.

Definition foo : reads :=
  {| name := Return "Foo"; symbol := Return "FOO"; decimals := Return (Num (Int 18)) |}.

Definition foo_bigint : reads :=
  {| name := Return "Foo"; symbol := Return "FOO"; decimals := Return (BigInt 18) |}.

(** A contract without [symbol()]. *)
Definition no_symbol : reads :=
  {| name := Return "Foo";
     symbol := Throw (Rejected "call revert exception");
     decimals := Return (Num (Int 18)) |}.

Definition deployment : tx := {| creates := Some "0xAAA"; from := "0xC0FFEE" |}.
Definition transfer : tx := {| creates := None; from := "0xC0FFEE" |}.

Definition block_of (txs : list tx) : completion (option block) :=
  Return (Some {| transactions := Some txs; timestamp := 1700000000 |}).

Definition scorer (riskResult : string) (code : Z) : exit :=
  {| riskResult := riskResult; riskError := EmptyString; code := Some code |}.

(** Every probe finds the token Foo, the scorer answers with [riskResult]
    and exits with [code], the datastore accepts every call. *)
Definition world_of (r : reads) (riskResult : string) (code : Z) : world :=
  {| contract := fun _ _ _ => r;
     python := fun _ _ => scorer riskResult code;
     supabase := fun _ _ => DbOk |}.

(** The first probe is rejected, the later ones find the token. *)
Definition flaky : world :=
  {| contract := fun n _ _ => match n with O => no_symbol | _ => foo end;
     python := fun _ _ => scorer "[{}]" 0;
     supabase := fun _ _ => DbOk |}.

(** The first scorer finds the token suspicious, the later ones print an
    empty assessment; the datastore accepts the first record and refuses
    the later ones. *)
Definition changing : world :=
  {| contract := fun _ _ _ => foo;
     python := fun n _ => match n with
                          | O => scorer suspicious 0
                          | _ => scorer "{}" 0
                          end;
     supabase := fun n _ => match n with
                            | O => DbOk
                            | _ => DbError "duplicate key value violates unique constraint"
                            end |}.

(** The same address deployed in two blocks delivered on one network. *)
Definition twice : list (string * completion (option block)) :=
  [ ("ethereum", block_of [deployment]); ("ethereum", block_of [deployment]) ].

Definition facts : obj :=
  [ ("contract_address", VString "0xAAA");
    ("creator_address", VString "0xC0FFEE");
    ("created_block_timestamp", VString "2023-11-14T22:13:20.000Z");
    ("name", VString "Foo");
    ("symbol", VString "FOO");
    ("decimals", VNumber (Int 18));
    ("blockchain", VString "ethereum") ].

End Sample.


(* ===================================================================== *)
(** ** The invariant of the processed addresses                          *)
(* ===================================================================== *)

Module Once.
Import JS Eff Pipeline Trace.

(** The address [A] is in the set of the network [N]. *)
Definition processed (N A : string) (st : MultiChain.state) : Prop :=
  exists seen, MultiChain.processedContracts st !! N = Some seen /\ A ∈ seen.

(** What a part of the four-network block handler keeps true of the pair
    [(N, A)]: once the address is in the set it stays there and is not
    probed; it is probed at most once, and then it is in the set; a scorer
    is started for it only after a probe; the datastore is not called. *)
Definition once (N A : string) {X} (m : M MultiChain.state event X) : Prop :=
  forall st,
    match m st with
    | (st1, ev, _) =>
        (processed N A st -> processed N A st1 /\ probes N A ev = 0%nat) /\
        (probes N A ev <= 1)%nat /\
        (probes N A ev = 1%nat -> processed N A st1) /\
        (scored N A ev <= probes N A ev)%nat /\
        sent ev = []
    end.

(** A computation that neither probes nor starts a scorer, such as a close
    handler. *)
Definition quiet {S X} (m : M S event X) : Prop :=
  forall s, probed (m s).1.2 = [] /\ jobs (m s).1.2 = [].

(** Every datastore call of the computation is [f row] for one record
    [row], and these are the records it sends. *)
Definition calls_as {S X} (f : obj -> db_call) (m : M S event X) : Prop :=
  forall s, Supabase.calls (m s).1.2 = map f (sent (m s).1.2).

(** What a run of the four-network listener from [st] to [st1] with the
    trace [ev] keeps true of the pair [(N, A)]. *)
Definition at_most_once (N A : string) (st st1 : MultiChain.state)
    (ev : list event) : Prop :=
  (processed N A st -> processed N A st1 /\ probes N A ev = 0%nat) /\
  (probes N A ev <= 1)%nat /\
  (probes N A ev = 1%nat -> processed N A st1) /\
  (scored N A ev <= probes N A ev)%nat /\
  (saves N A ev <= scored N A ev)%nat.

End Once.

(* ===================================================================== *)
(** ** Start-up validation and shutdown                                  *)
(* ===================================================================== *)

Module Lifecycle.
Import JS Eff.
Local Open Scope eff_scope.

(** What [alchemy.core.getNetwork()] resolves to. *)
Record network := { chainId : Z; networkName : string }.

(** [alchemy.ws]: [close] is what calling [ws.close()] does, or [None]
    when [ws.close] is not a function. *)
Record websocket := { close : option (completion unit) }.

(** One SDK client with what it answers: the two requests of the
    validation, the configured API key, and the subscription socket
    ([None] when [alchemy.ws] is falsy). *)
Record alchemy := {
  getNetwork : completion network;
  getBlockNumber : completion Z;
  apiKey : option string;
  ws : option websocket
}.

(** An element of [alchemyInstances]. *)
Record instance := { name : string; sdk : alchemy }.

Inductive request := GetNetwork | GetBlockNumber.

(** The console messages of the validation and of the shutdown;
    [ChainTitle] prints the name in upper case. *)
Inductive line :=
| ValidatingHeader
| ChainTitle (chainName : string)
| NetworkId (chainId : Z)
| NetworkName (name : string)
| LatestBlock (latestBlock : Z)
| ApiKeyPrefix (prefix : option string)
| FailedToValidate (chainName message : string)
| ValidationComplete
| ShuttingDown.

Inductive event :=
| Ask (chainName : string) (what : request)
| Log (l : line)
| Error (l : line)
| Close (chainName : string)
| Exit.

(** [error.message]; what the SDK rejects with is an [Error]. *)
Definition message (error : exn) : string :=
  match error with
  | TypeError m | SyntaxError m | RangeError m | Rejected m => m
  end.

(** [s.substr(start, length)]. *)
Definition substr (start length : nat) (s : string) : string :=
  String.substring start length s.

(** part_000 lines 56-66: the validation of one network. *)
Definition validate (i : instance) : M unit event unit :=
  let chainName := name i in
  let alchemy := sdk i in
  try_catch
    (emit (Ask chainName GetNetwork);;
     network <- lift (getNetwork alchemy);
     emit (Ask chainName GetBlockNumber);;
     latestBlock <- lift (getBlockNumber alchemy);
     emit (Log (ChainTitle chainName));;
     emit (Log (NetworkId (chainId network)));;
     emit (Log (NetworkName (networkName network)));;
     emit (Log (LatestBlock latestBlock));;
     emit (Log (ApiKeyPrefix (substr 0 10 <$> apiKey alchemy))))
    (fun error => emit (Error (FailedToValidate chainName (message error)))).

(** part_000 lines 53-69. *)
Definition validateNetworkConfigs (alchemyInstances : list instance) : M unit event unit :=
  emit (Log ValidatingHeader);;
  for_of alchemyInstances validate;;
  emit (Log ValidationComplete).

(** One turn of the loop of the SIGINT handler. *)
Definition close_socket (i : instance) : M unit event unit :=
  match ws (sdk i) with
  | Some w =>
      match close w with
      | Some result => emit (Close (name i));; lift result
      | None => ret tt
      end
  | None => ret tt
  end.

(** The SIGINT handler (listener.js lines 131-139, part_000 lines
    206-214). *)
Definition shutdown (alchemyInstances : list instance) : M unit event unit :=
  emit (Log ShuttingDown);;
  for_of alchemyInstances close_socket;;
  emit Exit.

(** Both requests of the validation are answered. *)
Definition healthy (i : instance) : bool :=
  match getNetwork (sdk i), getBlockNumber (sdk i) with
  | Return _, Return _ => true
  | _, _ => false
  end.

(** The socket of the instance has a [close] function. *)
Definition closable (i : instance) : bool :=
  match ws (sdk i) with
  | Some w => match close w with Some _ => true | None => false end
  | None => false
  end.

(** Calling [close] on the socket of the instance returns. *)
Definition closes (i : instance) : Prop :=
  forall w e, ws (sdk i) = Some w -> close w <> Some (Throw e).

(** The networks a trace reports, in order, with the verdict: validated
    (its title is printed) or failed. *)
Fixpoint reports (trace : list event) : list (string * bool) :=
  match trace with
  | [] => []
  | Log (ChainTitle chainName) :: rest => (chainName, true) :: reports rest
  | Error (FailedToValidate chainName _) :: rest => (chainName, false) :: reports rest
  | _ :: rest => reports rest
  end.

(** The prefixes of API keys a trace prints. *)
Fixpoint printed_keys (trace : list event) : list string :=
  match trace with
  | [] => []
  | Log (ApiKeyPrefix (Some p)) :: rest => p :: printed_keys rest
  | _ :: rest => printed_keys rest
  end.

(** The sockets a trace closes, in order. *)
Fixpoint closed (trace : list event) : list string :=
  match trace with
  | [] => []
  | Close chainName :: rest => chainName :: closed rest
  | _ :: rest => closed rest
  end.

End Lifecycle.

(* ===================================================================== *)
(** ** More ways to read a trace                                         *)
(* ===================================================================== *)

Module Observe.
Import JS Eff Pipeline Trace.

(** How many times the block handler reported an error. *)
Fixpoint block_errors (trace : list event) : nat :=
  match trace with
  | [] => 0%nat
  | ConsoleError (ErrorProcessingBlock _) :: rest => S (block_errors rest)
  | _ :: rest => block_errors rest
  end.

(** How many deliveries had their fetch rejected. *)
Fixpoint rejected (ds : list (string * completion (option block))) : nat :=
  match ds with
  | [] => 0%nat
  | (_, Throw _) :: rest => S (rejected rest)
  | _ :: rest => rejected rest
  end.

(** The line a close handler prints for the answer of the datastore. *)
Definition outcome (resp : db_response) : event :=
  match resp with
  | DbOk => ConsoleLog SavedToSupabase
  | DbError error => ConsoleError (SupabaseInsertError error)
  | DbThrow e => ConsoleError (SupabaseInsertException e)
  end.

(** Every code unit of the text is white space. *)
Fixpoint blank (s : string) : bool :=
  match s with
  | EmptyString => true
  | String a rest => isWhiteSpace a && blank rest
  end.

(** The addresses of the candidates of a list of transactions. *)
Definition addresses (txs : list tx) : list string := map address (candidates txs).

(** A property read without a throw: [undefined] on a value that is not an
    object. *)
Definition field (v : value) (k : string) : value :=
  match v with
  | VObject props => default VUndefined (own k props)
  | _ => VUndefined
  end.

(** The property names every object literal inherits from
    [Object.prototype]: read on [{}] they give a truthy value, not
    [undefined], so the registration of line 79 registers no set under
    such a name. *)
Definition inherited (k : string) : bool :=
  bool_decide (k ∈ ["constructor"; "__proto__"; "hasOwnProperty"; "isPrototypeOf";
                    "propertyIsEnumerable"; "toLocaleString"; "toString"; "valueOf";
                    "__defineGetter__"; "__defineSetter__";
                    "__lookupGetter__"; "__lookupSetter__"]).

(** Line 180 can print the assessment: the two fields it interpolates
    have a text. *)
Definition logged (assessment : value) : bool :=
  printable (field assessment "fraud_type") &&
  printable (field assessment "risk_category").

(** What the scorer's output leaves in [riskAssessment] (lines 140-153):
    what it parses to when it is not blank and parses, [null] otherwise. *)
Definition parsed `{Platform} (x : exit) : value :=
  if nonblank (riskResult x) then default VNull (JSON_parse (riskResult x)) else VNull.

(** Does the close handler of the four-network listener get from an
    assessment to its record: always when line 161 finds nothing to
    attach; otherwise when the first element is an object or a primitive
    other than [null] (line 169 reads its fields) that line 180 can
    print. *)
Definition builds (riskAssessment : value) : bool :=
  if MultiChain.available riskAssessment then
    match MultiChain.first riskAssessment with
    | VNull | VUndefined => false
    | assessment => logged assessment
    end
  else true.

(** The addresses of a list that the check of lines 91-92 lets through
    from the set [seen], in order: those that are neither in the set nor
    earlier in the list. *)
Fixpoint unseen (seen : gset string) (l : list string) : list string :=
  match l with
  | [] => []
  | A :: rest =>
      if bool_decide (A ∈ seen) then unseen seen rest
      else A :: unseen ({[A]} ∪ seen) rest
  end.

(** The sets of processed addresses only grow from [pc] to [pc1]: a
    registered network stays registered with at least its addresses, and
    no network is registered. *)
Definition grows (pc pc1 : gmap string (gset string)) : Prop :=
  forall N,
    match pc !! N with
    | Some seen => exists seen1, pc1 !! N = Some seen1 /\ seen ⊆ seen1
    | None => pc1 !! N = None
    end.

(** The sets of the networks other than [c] are the same in [pc] and
    [pc1]. *)
Definition apart (c : string) (pc pc1 : gmap string (gset string)) : Prop :=
  forall N, N <> c -> pc1 !! N = pc !! N.

(** A part of the four-network listener relates the sets before it to the
    sets after it by [R]. *)
Definition keeps (R : gmap string (gset string) -> gmap string (gset string) -> Prop)
    {X} (m : M MultiChain.state event X) : Prop :=
  forall st, R (MultiChain.processedContracts st)
               (MultiChain.processedContracts (m st).1.1).

(** In the trace of a computation a scorer for the pair [(N, A)] follows a
    probe of it, and the datastore is not called. *)
Definition caused (N A : string) {S X} (m : M S event X) : Prop :=
  forall s, (scored N A (m s).1.2 <= probes N A (m s).1.2)%nat /\
            sent (m s).1.2 = [].

(** Every event of the computation satisfies [P]. *)
Definition emits (P : event -> Prop) {S X} (m : M S event X) : Prop :=
  forall s, Forall P (m s).1.2.

(** The events of a close handler: console lines other than the error of
    the block handler, and datastore calls. *)
Definition closing (e : event) : Prop :=
  match e with
  | ConsoleLog _ | Supabase _ => True
  | ConsoleError (ErrorProcessingBlock _) => False
  | ConsoleError _ => True
  | Verify _ _ | Spawn _ _ _ => False
  end.

(** A console line. *)
Definition console (e : event) : Prop :=
  match e with
  | ConsoleLog _ | ConsoleError _ => True
  | _ => False
  end.

End Observe.

(* ===================================================================== *)
(** ** Networks and sockets for closed examples                          *)
(* ===================================================================== *)

Module Fixture.
Import JS Eff Lifecycle.

Definition socket (result : completion unit) : option websocket :=
  Some {| close := Some result |}.

Definition mainnet : instance :=
  {| name := "ethereum";
     sdk := {| getNetwork := Return {| chainId := 1; networkName := "homestead" |};
               getBlockNumber := Return 18500000;
               apiKey := Some "abcdefghijklmnopqrstuvwxyz";
               ws := socket (Return tt) |} |}.

(** A network whose endpoint refuses the key. *)
Definition refused : instance :=
  {| name := "base";
     sdk := {| getNetwork := Throw (Rejected "Must be authenticated!");
               getBlockNumber := Return 0;
               apiKey := None;
               ws := socket (Throw (TypeError "socket is not open")) |} |}.

(** A network without a subscription socket. *)
Definition offline : instance :=
  {| name := "polygon";
     sdk := {| getNetwork := Return {| chainId := 137; networkName := "matic" |};
               getBlockNumber := Throw (Rejected "timeout");
               apiKey := Some "short";
               ws := None |} |}.

End Fixture.


(* ===================================================================== *)
(** * Properties                                                         *)
(* ===================================================================== *)

(** ** Objects and numbers *)

Module JSFacts.
Import JS.

Lemma own_set_same k v o : own k (set k v o) = Some v.
Proof.
  induction o as [|[k' v'] o IH]; simpl.
  - by rewrite String.eqb_refl.
  - destruct (String.eqb k k') eqn:E; simpl; rewrite ?String.eqb_refl, ?E; done.
Qed.

Lemma own_set_other k k' v o : k <> k' -> own k (set k' v o) = own k o.
Proof.
  intros Hne. apply String.eqb_neq in Hne.
  induction o as [|[k0 v0] o IH]; simpl.
  - by rewrite Hne.
  - destruct (String.eqb k' k0) eqn:E; simpl.
    + apply String.eqb_eq in E; subst k0. by rewrite Hne.
    + by rewrite IH.
Qed.

Lemma or_else_undefined d : or_else VUndefined d = d.
Proof. reflexivity. Qed.

Lemma or_else_truthy v d : truthy v = true -> or_else v d = v.
Proof. unfold or_else. by intros ->. Qed.

Lemma Number_of_BigInt_small z : Z.abs z < 2 ^ 53 -> Number_of_BigInt z = Int z.
Proof.
  intros Hz. unfold Number_of_BigInt.
  assert (Z.log2 (Z.abs z) < 53) as Hl.
  { destruct (Z.eq_dec (Z.abs z) 0) as [->|Hne]; [reflexivity|].
    apply Z.log2_lt_pow2; lia. }
  apply Z.ltb_lt in Hl. by rewrite Hl.
Qed.

Lemma Number_of_BigInt_exact z : representable z -> Number_of_BigInt z = Int z.
Proof.
  intros (m & e & He & Hm & Hzm & Hz).
  destruct (Z.ltb_spec (Z.log2 (Z.abs z)) 53) as [Hl|Hl].
  { unfold Number_of_BigInt. apply Z.ltb_lt in Hl. by rewrite Hl. }
  assert (Z.abs z = Z.abs m * 2 ^ e) as Ha.
  { rewrite Hzm, Z.abs_mul. f_equal. apply Z.abs_eq. by apply Z.pow_nonneg. }
  assert (0 < Z.abs m) as Hpos.
  { destruct (Z.eq_dec (Z.abs m) 0) as [E|E]; [|lia].
    rewrite Ha, E in Hl. simpl in Hl. lia. }
  assert (Z.log2 (Z.abs z) = e + Z.log2 (Z.abs m)) as Hlog.
  { rewrite Ha. by apply Z.log2_mul_pow2. }
  assert (Z.log2 (Z.abs m) < 53) as Hlm by (apply Z.log2_lt_pow2; lia).
  pose proof (Z.log2_nonneg (Z.abs m)) as Hlm0.
  set (s := Z.log2 (Z.abs z) - 52).
  assert (1 <= s <= e) as Hs by (unfold s; lia).
  assert (Z.abs z = (Z.abs m * 2 ^ (e - s)) * 2 ^ s) as Hsplit.
  { rewrite Ha, <- Z.mul_assoc, <- Z.pow_add_r by lia. do 2 f_equal. lia. }
  assert (0 < 2 ^ s) as H2s by (apply Z.pow_pos_nonneg; lia).
  unfold Number_of_BigInt. fold s.
  replace (Z.log2 (Z.abs z) <? 53) with false by (symmetry; apply Z.ltb_ge; lia).
  cbv zeta.
  assert (Z.land (Z.abs z) (Z.ones s) = 0) as Hr.
  { rewrite Z.land_ones by lia. rewrite Hsplit. apply Z.mod_mul. lia. }
  assert (Z.shiftr (Z.abs z) s = Z.abs m * 2 ^ (e - s)) as Hq.
  { rewrite Z.shiftr_div_pow2 by lia. rewrite Hsplit at 1. apply Z.div_mul. lia. }
  rewrite Hr, Hq.
  assert (0 < Z.shiftl 1 (s - 1)) as Hhalf.
  { rewrite Z.shiftl_1_l. apply Z.pow_pos_nonneg; lia. }
  replace (0 <? Z.shiftl 1 (s - 1)) with true by (symmetry; apply Z.ltb_lt; lia).
  cbv iota.
  rewrite (Z.shiftl_mul_pow2 (Z.abs m * 2 ^ (e - s)) s) by lia. rewrite <- Hsplit.
  rewrite Z.shiftl_1_l.
  replace (2 ^ 1024 <=? Z.abs z) with false by (symmetry; apply Z.leb_gt; lia).
  f_equal. rewrite Z.mul_comm. apply Z.abs_sgn.
Qed.

Lemma representable_small z : Z.abs z <= 2 ^ 53 -> representable z.
Proof.
  intros Hz. destruct (Z.eq_dec (Z.abs z) (2 ^ 53)) as [E|E].
  - exists (Z.sgn z), 53. split; [lia|]. split; [lia|]. split.
    + rewrite <- (Z.abs_sgn z) at 1. rewrite E. lia.
    + rewrite E. reflexivity.
  - exists z, 0. split; [lia|]. split; [lia|]. split; [lia|].
    assert (2 ^ 53 < 2 ^ 1024) by reflexivity. lia.
Qed.

End JSFacts.

(** ** Probing an address *)

Module Probe.
Import JS Eff Pipeline Trace JSFacts.

Lemma Promise_all_fails r : fails r -> exists e, Promise_all r = Throw e.
Proof.
  unfold Promise_all.
  intros [[e He]|[[e He]|[e He]]]; rewrite He; simpl.
  - eauto.
  - destruct (name r); simpl; eauto.
  - destruct (name r); simpl; eauto. destruct (symbol r); simpl; eauto.
Qed.

Lemma Promise_all_returns r n s d :
  name r = Return n -> symbol r = Return s -> decimals r = Return d ->
  Promise_all r = Return (n, s, d).
Proof. unfold Promise_all. by intros -> -> ->. Qed.

Section Platform.
Context `{Platform} (W : world).

Lemma tokenData_fails N A t b r : fails r -> exists e, tokenData N A t b r = Throw e.
Proof.
  intros Hf. destruct (Promise_all_fails r Hf) as [e He].
  exists e. unfold tokenData. by rewrite He.
Qed.

(** The record of a token whose three reads return, on a block with a
    valid timestamp. *)
Lemma tokenData_returns N A t b r n s d iso :
  name r = Return n -> symbol r = Return s -> decimals r = Return d ->
  toISOString (timestamp b * 1000) = Some iso ->
  tokenData N A t b r =
    Return [ ("contract_address", VString A);
             ("creator_address", VString (from t));
             ("created_block_timestamp", VString iso);
             ("name", VString n);
             ("symbol", VString s);
             ("decimals", VNumber (safeDecimals d));
             ("blockchain", VString N) ].
Proof.
  intros Hn Hs Hd Hiso. unfold tokenData, createdBlockDatetime.
  rewrite (Promise_all_returns r n s d Hn Hs Hd). simpl. by rewrite Hiso.
Qed.

(** What a probe does in the two-network listener: the record is logged
    and piped to a scorer, or the rejection is swallowed. *)
Lemma Listener_verify N b t A (st : Listener.state) :
  Listener.verify W N b t A st =
    match tokenData N A t b (contract W st N A) with
    | Return td =>
        (S st, [Verify N A; ConsoleLog (Detected td);
                Spawn st (JSON_stringify (VObject td)) td], Return tt)
    | Throw _ => (S st, [Verify N A], Return tt)
    end.
Proof.
  unfold Listener.verify, Listener.next_tick, mbind, try_catch, emit, lift, ret.
  simpl. by destruct (tokenData N A t b (contract W st N A)).
Qed.

Lemma MultiChain_verify N b t A (st : MultiChain.state) :
  MultiChain.verify W N b t A st =
    let st1 := {| MultiChain.processedContracts := MultiChain.processedContracts st;
                  MultiChain.tick := S (MultiChain.tick st) |} in
    match tokenData N A t b (contract W (MultiChain.tick st) N A) with
    | Return td =>
        (st1, [Verify N A; ConsoleLog (Detected td);
               Spawn (MultiChain.tick st) (JSON_stringify (VArray [VObject td])) td],
         Return tt)
    | Throw _ => (st1, [Verify N A], Return tt)
    end.
Proof.
  unfold MultiChain.verify, MultiChain.next_tick, mbind, try_catch, emit, lift, ret.
  simpl. by destruct (tokenData N A t b (contract W (MultiChain.tick st) N A)).
Qed.

(** A transaction that deployed nothing is skipped by both loops. *)
Lemma Listener_iteration_skip N b t st :
  deploys t = false -> Listener.iteration W N b t st = (st, [], Return tt).
Proof. unfold Listener.iteration. by intros ->. Qed.

Lemma MultiChain_iteration_skip N b t st :
  deploys t = false -> MultiChain.iteration W N b t st = (st, [], Return tt).
Proof. unfold MultiChain.iteration. by intros ->. Qed.

Lemma deploys_address t A : creates t = Some A -> A <> "" -> deploys t = true.
Proof.
  intros Hc Hne. unfold deploys, truthy_string. rewrite Hc.
  apply negb_true_iff, String.eqb_neq, Hne.
Qed.

Lemma address_creates t A : creates t = Some A -> address t = A.
Proof. unfold address. by intros ->. Qed.

Lemma Listener_iteration_deploys N b t A st :
  creates t = Some A -> A <> "" ->
  Listener.iteration W N b t st = Listener.verify W N b t A st.
Proof.
  intros Hc Hne. unfold Listener.iteration.
  rewrite (deploys_address t A Hc Hne). unfold address. simpl. by rewrite Hc.
Qed.

(** The check of lines 91-92 on a registered network. *)
Lemma shouldProcess_spec N A st seen :
  MultiChain.processedContracts st !! N = Some seen ->
  MultiChain.shouldProcess N A st =
    if bool_decide (A ∈ seen) then (st, [], Return false)
    else ({| MultiChain.processedContracts :=
               <[N := {[A]} ∪ seen]> (MultiChain.processedContracts st);
             MultiChain.tick := MultiChain.tick st |}, [], Return true).
Proof.
  intros Hs.
  unfold MultiChain.shouldProcess, MultiChain.has, MultiChain.add, mbind, gets, modify, ret.
  simpl. rewrite Hs. simpl. destruct (bool_decide (A ∈ seen)); simpl; [done|].
  by rewrite Hs.
Qed.

(** ... and on a network that was never registered. *)
Lemma shouldProcess_unregistered N A st :
  MultiChain.processedContracts st !! N = None ->
  exists e, MultiChain.shouldProcess N A st = (st, [], Throw e).
Proof.
  intros Hs.
  unfold MultiChain.shouldProcess, MultiChain.has, mbind, gets, throw.
  simpl. rewrite Hs. simpl. eauto.
Qed.

End Platform.
End Probe.

(** ** The block handlers: candidates, failed probes, the scorer's input *)

Module Detection.
Import JS Eff Pipeline Trace Observe JSFacts Probe.

Lemma probed_app a b : probed (a ++ b) = probed a ++ probed b.
Proof.
  induction a as [|e a IH]; [done|].
  destruct e; simpl; by rewrite ?IH.
Qed.

Lemma jobs_app a b : jobs (a ++ b) = jobs a ++ jobs b.
Proof.
  induction a as [|e a IH]; [done|].
  destruct e; simpl; by rewrite ?IH.
Qed.

(** A loop whose body does nothing on the transactions that deployed
    nothing is the loop over the candidates. *)
Lemma for_of_candidates {S} (body : tx -> M S event unit) txs :
  (forall t st, deploys t = false -> body t st = (st, [], Return tt)) ->
  forall st, for_of txs body st = for_of (candidates txs) body st.
Proof.
  intros Hskip. induction txs as [|t txs IH]; intros st; [done|].
  unfold candidates in *. simpl. destruct (deploys t) eqn:Hd.
  - simpl. unfold mbind. destruct (body t st) as [[s1 ev1] [[]|e]]; [|done].
    by rewrite IH.
  - unfold mbind. rewrite (Hskip t st Hd). rewrite IH.
    by destruct (for_of (List.filter deploys txs) body st) as [[s2 ev2] r].
Qed.

Lemma candidates_cons t txs : candidates (t :: txs) = candidates [t] ++ candidates txs.
Proof. unfold candidates. simpl. by destruct (deploys t). Qed.

(** From a set that holds none of them, distinct addresses all pass the
    check. *)
Lemma unseen_fresh l : forall seen,
  NoDup l -> (forall A, A ∈ l -> A ∉ seen) -> unseen seen l = l.
Proof.
  induction l as [|A l IH]; intros seen Hnd Hfresh; [done|].
  apply NoDup_cons in Hnd as [Hnin Hnd]. simpl.
  rewrite bool_decide_eq_false_2 by (apply Hfresh; by left).
  f_equal. apply IH; [done|].
  intros B HB [HBA%elem_of_singleton|HBs]%elem_of_union.
  - by subst.
  - apply (Hfresh B); [by right|done].
Qed.

Section Platform.
Context `{Platform} (W : world).

Lemma Listener_iteration_probed N b t st :
  exists st1 ev, Listener.iteration W N b t st = (st1, ev, Return tt) /\
    probed ev = if deploys t then [(N, address t)] else [].
Proof.
  unfold Listener.iteration. destruct (deploys t); simpl.
  - rewrite Listener_verify.
    destruct (tokenData N (address t) t b (contract W st N (address t))); eauto.
  - unfold ret. eauto.
Qed.

Lemma Listener_loop_probed N b txs st :
  exists st1 ev, for_of txs (Listener.iteration W N b) st = (st1, ev, Return tt) /\
    probed ev = map (fun t => (N, address t)) (candidates txs).
Proof.
  revert st. induction txs as [|t txs IH]; intros st.
  - unfold ret. simpl. eauto.
  - simpl. unfold mbind.
    destruct (Listener_iteration_probed N b t st) as (s1 & ev1 & -> & Hp1).
    destruct (IH s1) as (s2 & ev2 & -> & Hp2).
    exists s2, (ev1 ++ ev2). split; [done|].
    rewrite probed_app, Hp1, Hp2. unfold candidates. simpl.
    by destruct (deploys t).
Qed.

Lemma MultiChain_iteration_probed N b t st :
  exists st1 ev r, MultiChain.iteration W N b t st = (st1, ev, r) /\
    (probed ev = [] \/ (deploys t = true /\ probed ev = [(N, address t)])).
Proof.
  unfold MultiChain.iteration. destruct (deploys t); simpl.
  - unfold mbind.
    destruct (MultiChain.processedContracts st !! N) as [seen|] eqn:Hs.
    + rewrite (shouldProcess_spec N (address t) st seen Hs).
      destruct (bool_decide (address t ∈ seen)).
      * unfold ret. simpl. eauto 10.
      * rewrite MultiChain_verify. simpl.
        destruct (tokenData N (address t) t b _); simpl; eauto 10.
    + destruct (shouldProcess_unregistered N (address t) st Hs) as [e ->].
      eauto 10.
  - unfold ret. eauto 10.
Qed.

Lemma MultiChain_loop_probed N b txs st :
  exists st1 ev r, for_of txs (MultiChain.iteration W N b) st = (st1, ev, r) /\
    probed ev `sublist_of` map (fun t => (N, address t)) (candidates txs).
Proof.
  revert st. induction txs as [|t txs IH]; intros st.
  - unfold ret. simpl. eauto.
  - cbn [for_of]. unfold mbind.
    destruct (MultiChain_iteration_probed N b t st) as (s1 & ev1 & r1 & -> & Hp1).
    assert (probed ev1 `sublist_of`
              map (fun t => (N, address t)) (candidates [t])) as Hs1.
    { unfold candidates. simpl.
      destruct Hp1 as [->|[-> ->]]; [apply sublist_nil_l|done]. }
    destruct r1 as [[]|e].
    + destruct (IH s1) as (s2 & ev2 & r2 & -> & Hp2).
      exists s2, (ev1 ++ ev2), r2. split; [done|].
      rewrite probed_app, (candidates_cons t txs), map_app.
      by apply sublist_app.
    + exists s1, ev1, (Throw e). split; [done|].
      rewrite (candidates_cons t txs), map_app.
      rewrite <- (app_nil_r (probed ev1)).
      apply sublist_app; [done|apply sublist_nil_l].
Qed.

(** One turn of the loop of the four-network listener on a registered
    network: it ends normally, and probes the address of a candidate that
    is not in the set, which it adds to the set, and nothing else. *)
Lemma MultiChain_iteration_unseen N b t st seen :
  MultiChain.processedContracts st !! N = Some seen ->
  exists st1 ev, MultiChain.iteration W N b t st = (st1, ev, Return tt) /\
    if deploys t && negb (bool_decide (address t ∈ seen))
    then MultiChain.processedContracts st1 !! N = Some ({[address t]} ∪ seen) /\
         probed ev = [(N, address t)]
    else MultiChain.processedContracts st1 !! N = Some seen /\ probed ev = [].
Proof.
  intros Hs. unfold MultiChain.iteration. destruct (deploys t); simpl.
  - unfold mbind. rewrite (shouldProcess_spec N (address t) st seen Hs).
    destruct (bool_decide (address t ∈ seen)); simpl.
    + unfold ret. eauto.
    + rewrite MultiChain_verify. simpl.
      destruct (tokenData N (address t) t b _); simpl; do 2 eexists;
        (split; [reflexivity|]); simpl; by rewrite lookup_insert_eq.
  - unfold ret. eauto.
Qed.

Lemma MultiChain_loop_unseen N b txs : forall st seen,
  MultiChain.processedContracts st !! N = Some seen ->
  exists st1 ev, for_of txs (MultiChain.iteration W N b) st = (st1, ev, Return tt) /\
    probed ev = map (fun A => (N, A)) (unseen seen (addresses txs)).
Proof.
  induction txs as [|t txs IH]; intros st seen Hs.
  - unfold ret. simpl. eauto.
  - cbn [for_of]. unfold mbind.
    destruct (MultiChain_iteration_unseen N b t st seen Hs) as (s1 & ev1 & -> & H1).
    unfold addresses, candidates in *. simpl.
    destruct (deploys t); simpl in *.
    + destruct (bool_decide (address t ∈ seen)); simpl in *; destruct H1 as [Hs1 Hp1];
        destruct (IH s1 _ Hs1) as (s2 & ev2 & -> & Hp2);
        exists s2, (ev1 ++ ev2); (split; [done|]);
        by rewrite probed_app, Hp1, Hp2.
    + destruct H1 as [Hs1 Hp1].
      destruct (IH s1 _ Hs1) as (s2 & ev2 & -> & Hp2).
      exists s2, (ev1 ++ ev2). split; [done|].
      by rewrite probed_app, Hp1, Hp2.
Qed.

(** C2. In both listeners the loop over the transactions of a fetched
    block is the loop over its candidates, the transactions whose
    [creates] field is not empty, in the order of the block: the
    two-network listener probes exactly their addresses in that order, the
    four-network listener, on a registered network, exactly those among
    them that pass the check of the processed addresses, in that order,
    which are all of them when their addresses are distinct and none is in
    the set; a transaction with an empty [creates] field leaves the state
    as it is and prints, probes and sends nothing. *)
Theorem candidates_are_the_deployments N ts txs :
  let b := {| transactions := Some txs; timestamp := ts |} in
  let c := {| transactions := Some (candidates txs); timestamp := ts |} in
  (forall st, Listener.on_block W N (Return (Some b)) st
              = Listener.on_block W N (Return (Some c)) st) /\
  (forall st, MultiChain.on_block W N (Return (Some b)) st
              = MultiChain.on_block W N (Return (Some c)) st) /\
  (forall st, probed (Listener.on_block W N (Return (Some b)) st).1.2
              = map (fun t => (N, address t)) (candidates txs)) /\
  (forall st, probed (MultiChain.on_block W N (Return (Some b)) st).1.2
              `sublist_of` map (fun t => (N, address t)) (candidates txs)) /\
  (forall t, deploys t = false ->
     (forall st, Listener.iteration W N b t st = (st, [], Return tt)) /\
     (forall st, MultiChain.iteration W N b t st = (st, [], Return tt))) /\
  (forall st seen,
     MultiChain.processedContracts st !! N = Some seen ->
     probed (MultiChain.on_block W N (Return (Some b)) st).1.2
     = map (fun A => (N, A)) (unseen seen (addresses txs))) /\
  (forall st seen,
     MultiChain.processedContracts st !! N = Some seen ->
     NoDup (addresses txs) -> (forall A, A ∈ addresses txs -> A ∉ seen) ->
     probed (MultiChain.on_block W N (Return (Some b)) st).1.2
     = map (fun t => (N, address t)) (candidates txs)).
Proof.
  intros b c.
  assert (forall st seen,
     MultiChain.processedContracts st !! N = Some seen ->
     probed (MultiChain.on_block W N (Return (Some b)) st).1.2
     = map (fun A => (N, A)) (unseen seen (addresses txs))) as Hexact.
  { intros st seen Hs. unfold MultiChain.on_block, try_catch, mbind, lift. simpl.
    by destruct (MultiChain_loop_unseen N b txs st seen Hs) as (s1 & ev & -> & Hp). }
  split; [|split; [|split; [|split; [|split; [|split; [exact Hexact|]]]]]];
    [| | | | |intros st seen Hs Hnd Hfresh;
              rewrite (Hexact st seen Hs), (unseen_fresh _ seen Hnd Hfresh);
              unfold addresses; by rewrite map_map];
    [| | | |intros t Hd; split].
  - intros st. unfold Listener.on_block, try_catch, mbind, lift. simpl.
    change (Listener.iteration W N c) with (Listener.iteration W N b).
    rewrite (for_of_candidates (Listener.iteration W N b) txs); [done|].
    intros t s Hd. by apply Listener_iteration_skip.
  - intros st. unfold MultiChain.on_block, try_catch, mbind, lift. simpl.
    change (MultiChain.iteration W N c) with (MultiChain.iteration W N b).
    rewrite (for_of_candidates (MultiChain.iteration W N b) txs); [done|].
    intros t s Hd. by apply MultiChain_iteration_skip.
  - intros st. unfold Listener.on_block, try_catch, mbind, lift. simpl.
    destruct (Listener_loop_probed N b txs st) as (s1 & ev & -> & Hp).
    done.
  - intros st. unfold MultiChain.on_block, try_catch, mbind, lift. simpl.
    destruct (MultiChain_loop_probed N b txs st) as (s1 & ev & r & -> & Hp).
    simpl. destruct r as [[]|e]; simpl; rewrite ?app_nil_r; [done|].
    unfold emit. simpl. rewrite probed_app. simpl. by rewrite app_nil_r.
  - intros st. by apply Listener_iteration_skip.
  - intros st. by apply MultiChain_iteration_skip.
Qed.

End Platform.
End Detection.

Module Classification.
Import JS Eff Pipeline Trace JSFacts Probe.

Section Platform.
Context `{Platform} (W : world).

Lemma Listener_on_block_returns N f st : (Listener.on_block W N f st).2 = Return tt.
Proof.
  unfold Listener.on_block, try_catch, mbind, lift, emit, ret.
  destruct f as [[b|]|e]; simpl; [|done|done].
  destruct (transactions b) as [txs|]; simpl; [|done].
  by destruct (for_of txs (Listener.iteration W N b) st) as [[s ev] [[]|e]].
Qed.

Lemma MultiChain_on_block_returns N f st : (MultiChain.on_block W N f st).2 = Return tt.
Proof.
  unfold MultiChain.on_block, try_catch, mbind, lift, emit, ret.
  destruct f as [[b|]|e]; simpl; [|done|done].
  destruct (transactions b) as [txs|]; simpl; [|done].
  by destruct (for_of txs (MultiChain.iteration W N b) st) as [[s ev] [[]|e]].
Qed.

(** C3. When one of the three reads of a candidate is rejected, both
    listeners swallow the rejection: no record is built, the turn of the
    loop ends normally having issued the probe and nothing else (no log
    line, no scorer process and so no close handler, no datastore call),
    and delivering a block that holds only that candidate yields that one
    event.  Whatever the block, the handler itself never throws. *)
Theorem failed_probe_is_dropped N ts txs t A :
  let b := {| transactions := Some txs; timestamp := ts |} in
  let only := Return (Some {| transactions := Some [t]; timestamp := ts |}) in
  creates t = Some A -> A <> "" ->
  (forall r, fails r -> exists e, tokenData N A t b r = Throw e) /\
  (forall st, fails (contract W st N A) ->
     Listener.iteration W N b t st = (S st, [Verify N A], Return tt) /\
     Listener.deliver W N only st = (S st, [Verify N A])) /\
  (forall st seen,
     MultiChain.processedContracts st !! N = Some seen -> A ∉ seen ->
     fails (contract W (MultiChain.tick st) N A) ->
     let st1 := {| MultiChain.processedContracts :=
                     <[N := {[A]} ∪ seen]> (MultiChain.processedContracts st);
                   MultiChain.tick := S (MultiChain.tick st) |} in
     MultiChain.iteration W N b t st = (st1, [Verify N A], Return tt) /\
     MultiChain.deliver W N only st = (st1, [Verify N A])) /\
  (forall f st, (Listener.on_block W N f st).2 = Return tt) /\
  (forall f st, (MultiChain.on_block W N f st).2 = Return tt).
Proof.
  intros b only Hc Hne.
  split; [intros r Hr; by apply tokenData_fails|].
  split; [|split; [|split]].
  - intros st Hf.
    assert (forall b', Listener.iteration W N b' t st = (S st, [Verify N A], Return tt)) as Hi.
    { intros b'. rewrite (Listener_iteration_deploys W N b' t A st Hc Hne), Listener_verify.
      destruct (tokenData_fails N A t b' _ Hf) as [e ->]. done. }
    split; [apply Hi|].
    unfold Listener.deliver, only, Listener.on_block, try_catch, mbind, lift, ret.
    cbn [for_of transactions]. unfold mbind, ret. by rewrite Hi.
  - intros st seen Hs Hfresh Hf st1.
    assert (forall b', MultiChain.iteration W N b' t st = (st1, [Verify N A], Return tt)) as Hi.
    { intros b'. unfold MultiChain.iteration.
      rewrite (deploys_address t A Hc Hne), (address_creates t A Hc).
      cbn [negb]. unfold mbind.
      rewrite (shouldProcess_spec N A st seen Hs).
      rewrite bool_decide_eq_false_2 by done.
      rewrite MultiChain_verify. cbn [MultiChain.tick MultiChain.processedContracts].
      destruct (tokenData_fails N A t b' _ Hf) as [e ->]. done. }
    split; [apply Hi|].
    unfold MultiChain.deliver, only, MultiChain.on_block, try_catch, mbind, lift, ret.
    cbn [for_of transactions]. unfold mbind, ret. by rewrite Hi.
  - apply Listener_on_block_returns.
  - apply MultiChain_on_block_returns.
Qed.

(** C8. When [decimals()] returns an integer that a double holds exactly,
    as a number or as a BigInt, the [decimals] field of the record is the
    number with that integer value, in the record built for both
    listeners and handed by each to its log and to its scorer. *)
Theorem decimals_is_a_native_integer N b t A n s d z iso :
  (d = BigInt z \/ d = Num (Int z)) ->
  representable z ->
  toISOString (timestamp b * 1000) = Some iso ->
  safeDecimals d = Int z /\
  (forall r, name r = Return n -> symbol r = Return s -> decimals r = Return d ->
     exists td, tokenData N A t b r = Return td /\
                own "decimals" td = Some (VNumber (Int z))) /\
  (forall st, let r := contract W st N A in
     name r = Return n -> symbol r = Return s -> decimals r = Return d ->
     exists td, own "decimals" td = Some (VNumber (Int z)) /\
       Listener.verify W N b t A st =
         (S st, [Verify N A; ConsoleLog (Detected td);
                 Spawn st (JSON_stringify (VObject td)) td], Return tt)) /\
  (forall st, let r := contract W (MultiChain.tick st) N A in
     name r = Return n -> symbol r = Return s -> decimals r = Return d ->
     exists td, own "decimals" td = Some (VNumber (Int z)) /\
       jobs (MultiChain.verify W N b t A st).1.2 =
         [(MultiChain.tick st, JSON_stringify (VArray [VObject td]), td)]).
Proof.
  intros Hd Hz Hiso.
  assert (safeDecimals d = Int z) as Hsafe.
  { destruct Hd as [->| ->]; simpl; [by apply Number_of_BigInt_exact|done]. }
  split; [done|].
  assert (forall r, name r = Return n -> symbol r = Return s -> decimals r = Return d ->
     exists td, tokenData N A t b r = Return td /\
                own "decimals" td = Some (VNumber (Int z))) as Htd.
  { intros r Hn Hs Hdr. eexists. split.
    - by apply (tokenData_returns N A t b r n s d iso).
    - simpl. by rewrite Hsafe. }
  split; [done|]. split.
  - intros st r Hn Hs Hdr. destruct (Htd r Hn Hs Hdr) as (td & Htok & Hown).
    exists td. split; [done|]. rewrite Listener_verify. fold r. by rewrite Htok.
  - intros st r Hn Hs Hdr. destruct (Htd r Hn Hs Hdr) as (td & Htok & Hown).
    exists td. split; [done|]. rewrite MultiChain_verify. fold r. cbv zeta.
    by rewrite Htok.
Qed.

(** The four-network listener pipes the record to the scorer as an array
    of one object. *)
Lemma MultiChain_pipes_an_array N b t A st :
  jobs (MultiChain.verify W N b t A st).1.2 = []
  \/ exists td, tokenData N A t b (contract W (MultiChain.tick st) N A) = Return td /\
       jobs (MultiChain.verify W N b t A st).1.2 =
         [(MultiChain.tick st, JSON_stringify (VArray [VObject td]), td)].
Proof.
  rewrite MultiChain_verify. cbv zeta.
  destruct (tokenData N A t b _) as [td|e]; simpl; eauto.
Qed.

(** The two-network listener pipes the bare object. *)
Lemma Listener_pipes_a_bare_object N b t A st :
  jobs (Listener.verify W N b t A st).1.2 = []
  \/ exists td, tokenData N A t b (contract W st N A) = Return td /\
       jobs (Listener.verify W N b t A st).1.2 =
         [(st, JSON_stringify (VObject td), td)].
Proof.
  rewrite Listener_verify.
  destruct (tokenData N A t b _) as [td|e]; simpl; eauto.
Qed.

End Platform.
End Classification.

(** ** The close handlers: verdict, record, persistence *)

Module Closing.
Import JS Eff Pipeline Trace Observe JSFacts.

Lemma sent_app a b : sent (a ++ b) = sent a ++ sent b.
Proof.
  induction a as [|e a IH]; [done|].
  destruct e as [| | | |[]]; simpl; rewrite ?IH, ?app_assoc; done.
Qed.

Lemma get_defined v k : v <> VNull -> v <> VUndefined -> exists w, get v k = Return w.
Proof. destruct v; simpl; eauto; done. Qed.

Lemma get_object props k : get (VObject props) k = Return (default VUndefined (own k props)).
Proof. reflexivity. Qed.

Lemma get_field v k : v <> VNull -> v <> VUndefined -> get v k = Return (field v k).
Proof. by destruct v. Qed.

Section Platform.
Context `{Platform}.

(** Lines 140-153 leave in [riskAssessment] what the output parses to when
    it is not blank and parses, and [null] otherwise; nothing is sent. *)
Lemma riskAssessment_spec {S} x (s : S) :
  exists ev,
    MultiChain.riskAssessment x s =
      (s, ev, Return (if nonblank (riskResult x)
                      then default VNull (JSON_parse (riskResult x))
                      else VNull))
    /\ sent ev = [].
Proof.
  unfold MultiChain.riskAssessment, try_catch, mbind, lift, emit, ret, parse.
  destruct (nonblank (riskResult x)).
  - destruct (JSON_parse (riskResult x)); simpl; eauto.
  - destruct (negb _); simpl; eauto.
Qed.

Lemma with_assessment_nullish td v :
  v = VNull \/ v = VUndefined -> exists e, MultiChain.with_assessment td v = Throw e.
Proof. intros [-> | ->]; simpl; eauto. Qed.

(** On an assessment that is neither [null] nor [undefined] the record is
    built, carries the three risk fields and keeps every other field. *)
Lemma with_assessment_defined td v :
  v <> VNull -> v <> VUndefined ->
  exists row, MultiChain.with_assessment td v = Return row /\
    has_verdict row = true /\
    (forall k, k <> "risk_category" -> k <> "fraud_type" -> k <> "detection_details" ->
       own k row = own k td).
Proof.
  intros Hn Hu. unfold MultiChain.with_assessment.
  destruct (get_defined v "risk_category" Hn Hu) as [rc ->].
  destruct (get_defined v "fraud_type" Hn Hu) as [ft ->].
  destruct (get_defined v "phishing_indicators" Hn Hu) as [pi ->].
  destruct (get_defined v "urls_found" Hn Hu) as [uf ->].
  destruct (get_defined v "money_amounts" Hn Hu) as [ma ->].
  destruct (get_defined v "details" Hn Hu) as [de ->].
  cbn [bind]. eexists. split; [reflexivity|]. split.
  - unfold has_verdict.
    rewrite own_set_same.
    rewrite (own_set_other "fraud_type" "detection_details") by done.
    rewrite own_set_same.
    rewrite (own_set_other "risk_category" "detection_details") by done.
    rewrite (own_set_other "risk_category" "fraud_type") by done.
    by rewrite own_set_same.
  - intros k H1 H2 H3. by rewrite !own_set_other.
Qed.

Lemma with_assessment_returns td v row :
  MultiChain.with_assessment td v = Return row -> v <> VNull /\ v <> VUndefined.
Proof. intros Hr. split; intros ->; simpl in Hr; discriminate. Qed.

(** What the close handler of the four-network listener sends: the bare
    record when there is no assessment to attach, the record with the
    first assessment when building it succeeds, and nothing when building
    it throws.  The handler itself always ends normally. *)
Lemma MultiChain_on_close_sent {S} td x db (s : S) :
  let ra := if nonblank (riskResult x)
            then default VNull (JSON_parse (riskResult x)) else VNull in
  exists ev, MultiChain.on_close td x db s = (s, ev, Return tt) /\
    sent ev = if MultiChain.available ra
              then match MultiChain.with_assessment td (MultiChain.first ra) with
                   | Return row => if logged (MultiChain.first ra) then [row] else []
                   | Throw _ => []
                   end
              else [td].
Proof.
  intros ra. unfold MultiChain.on_close, mbind.
  assert (exists ev0, when (truthy_string (riskError x))
            (emit (ConsoleLog (PythonStderrOutput (riskError x)))) s = (s, ev0, Return tt)
          /\ sent ev0 = []) as (ev0 & -> & Hev0).
  { unfold when, emit, ret. destruct (truthy_string _); eauto. }
  destruct (riskAssessment_spec x s) as (ev1 & -> & Hev1). fold ra.
  unfold MultiChain.insertData, send, report.
  unfold try_catch, mbind, lift, emit, ret, throw.
  destruct (MultiChain.available ra).
  - destruct (MultiChain.with_assessment td (MultiChain.first ra)) as [row|e] eqn:Hw.
    + destruct (with_assessment_returns _ _ _ Hw) as [Hn Hu].
      rewrite !(get_field _ _ Hn Hu). unfold logged, interpolate. cbn [bind].
      destruct (printable (field (MultiChain.first ra) "fraud_type")); cbn [andb bind].
      * destruct (printable (field (MultiChain.first ra) "risk_category")).
        -- destruct (db _) as [|error|e]; simpl; eexists; (split; [reflexivity|]);
             rewrite !sent_app, Hev0, Hev1; done.
        -- simpl. eexists. split; [reflexivity|].
           rewrite !sent_app, Hev0, Hev1. done.
      * simpl. eexists. split; [reflexivity|].
        rewrite !sent_app, Hev0, Hev1. done.
    + simpl. eexists. split; [reflexivity|].
      rewrite !sent_app, Hev0, Hev1. done.
  - destruct (db _) as [|error|e]; simpl; eexists; (split; [reflexivity|]);
      rewrite !sent_app, Hev0, Hev1; done.
Qed.

(** The close handler of the two-network listener always sends one record:
    the bare one when the output does not parse or parses to a falsy
    value. *)
Lemma Listener_on_close_sent {S} td x db (s : S) :
  exists ev row, Listener.on_close td x db s = (s, ev, Return tt) /\
    sent ev = [row] /\
    (match JSON_parse (riskResult x) with
     | Some v => truthy v = false
     | None => True
     end -> row = td).
Proof.
  unfold Listener.on_close, mbind.
  assert (exists ev0, when (truthy_string (riskError x))
            (emit (ConsoleError (PythonRiskAssessmentError (riskError x)))) s
            = (s, ev0, Return tt) /\ sent ev0 = []) as (ev0 & -> & Hev0).
  { unfold when, emit, ret. destruct (truthy_string _); eauto. }
  unfold send, report.
  unfold try_catch, mbind, lift, emit, ret, throw, parse.
  destruct (JSON_parse (riskResult x)) as [v|]; simpl.
  - destruct (truthy v) eqn:Ht.
    + assert (v <> VNull /\ v <> VUndefined) as [Hn Hu] by (split; intros ->; done).
      unfold Listener.with_assessment.
      destruct (get_defined v "risk_score" Hn Hu) as [a1 ->].
      destruct (get_defined v "is_suspicious" Hn Hu) as [a2 ->].
      destruct (get_defined v "indicators" Hn Hu) as [a3 ->].
      destruct (get_defined v "details" Hn Hu) as [a4 ->].
      cbn [bind].
      destruct (db _) as [|error|e]; simpl; do 2 eexists;
        (split; [reflexivity|]); rewrite !sent_app, Hev0; simpl; (split; [reflexivity|done]).
    + destruct (db _) as [|error|e]; simpl; do 2 eexists;
        (split; [reflexivity|]); rewrite !sent_app, Hev0; simpl; (split; [reflexivity|done]).
  - destruct (db _) as [|error|e]; simpl; do 2 eexists;
      (split; [reflexivity|]); rewrite !sent_app, Hev0; simpl; (split; [reflexivity|done]).
Qed.

End Platform.
End Closing.

Module Verdict.
Import JS Eff Pipeline Trace Observe JSFacts Closing.

Lemma available_iff ra :
  MultiChain.available ra = true <-> exists v rest, ra = VArray (v :: rest).
Proof.
  unfold MultiChain.available. split.
  - destruct ra as [| | | | |[|v rest]|]; simpl;
      rewrite ?andb_false_r; try done. eauto.
  - by intros (v & rest & ->).
Qed.

Lemma not_available ra :
  (forall v rest, ra <> VArray (v :: rest)) -> MultiChain.available ra = false.
Proof.
  intros Hno. destruct (MultiChain.available ra) eqn:Ha; [|done].
  apply available_iff in Ha as (v & rest & ->). by destruct (Hno v rest).
Qed.

Section Platform.
Context `{Platform}.

(** A first assessment that is [null] makes the handler throw while it
    builds the record; the exception is caught, and nothing is sent. *)
Lemma null_assessment_is_not_saved {S} td x db (s : S) rest :
  nonblank (riskResult x) = true ->
  JSON_parse (riskResult x) = Some (VArray (VNull :: rest)) ->
  exists ev, MultiChain.on_close td x db s = (s, ev, Return tt) /\ sent ev = [].
Proof.
  intros Hnb Hp.
  destruct (MultiChain_on_close_sent td x db s) as (ev & Hev & Hsent).
  exists ev. split; [done|]. by rewrite Hsent, Hnb, Hp.
Qed.

(** When the output is blank or does not parse, the bare record is sent
    by both close handlers, whatever the exit status. *)
Lemma no_verdict_still_saved {S} td x db (s : S) :
  nonblank (riskResult x) = false \/ JSON_parse (riskResult x) = None ->
  exists ev, MultiChain.on_close td x db s = (s, ev, Return tt) /\ sent ev = [td].
Proof.
  intros Hx.
  destruct (MultiChain_on_close_sent td x db s) as (ev & Hev & Hsent).
  exists ev. split; [done|]. rewrite Hsent.
  destruct Hx as [-> | ->]; [done|]. by destruct (nonblank _).
Qed.

(** C4, as the code has it. For a record that has no risk fields yet and
    an output whose first assessment, if any, is not [null] and can be
    printed by the log line of line 180: the record sent carries a verdict
    if and only if the output is not blank and parses to a non-empty
    array; the verdict is then built from the first element of that array.
    The exit status takes no part in it: the record sent is the same for
    every exit status, on an output that is not blank the handler does the
    same for every exit status, and on a blank output the exit status
    decides one thing, whether the line that parsing is skipped is
    printed, before the one save of the bare record. *)
Theorem verdict_attached_iff {S} td x db (s : S) :
  bare td ->
  (forall v rest, JSON_parse (riskResult x) = Some (VArray (v :: rest)) ->
     v <> VNull /\ v <> VUndefined /\ logged v = true) ->
  let trace := (MultiChain.on_close td x db s).1.2 in
  let exits c := {| riskResult := riskResult x; riskError := riskError x; code := c |} in
  (attaches trace <->
     nonblank (riskResult x) = true /\
     exists v rest, JSON_parse (riskResult x) = Some (VArray (v :: rest))) /\
  (forall v rest,
     nonblank (riskResult x) = true ->
     JSON_parse (riskResult x) = Some (VArray (v :: rest)) ->
     exists row, MultiChain.with_assessment td v = Return row /\ sent trace = [row]) /\
  (forall c, sent (MultiChain.on_close td (exits c) db s).1.2 = sent trace) /\
  (nonblank (riskResult x) = true ->
     forall c, MultiChain.on_close td (exits c) db s = MultiChain.on_close td x db s) /\
  (nonblank (riskResult x) = false ->
     let stderr := if truthy_string (riskError x)
                   then [ConsoleLog (PythonStderrOutput (riskError x))] else [] in
     let call := Upsert "erc20_tokens" [td] "contract_address,blockchain" in
     forall c,
       MultiChain.on_close td (exits c) db s
       = (s,
          stderr
          ++ (if bool_decide (c = Some 0) then []
              else [ConsoleLog (SkippingRiskAssessment c)])
          ++ [Supabase call; outcome (db call)],
          Return tt)).
Proof.
  intros Hbare Hdef trace exits.
  destruct (MultiChain_on_close_sent td x db s) as (ev & Hev & Hsent).
  assert (trace = ev) as -> by (unfold trace; by rewrite Hev).
  assert (forall v rest,
     nonblank (riskResult x) = true ->
     JSON_parse (riskResult x) = Some (VArray (v :: rest)) ->
     exists row, MultiChain.with_assessment td v = Return row /\
                 has_verdict row = true /\ sent ev = [row]) as Hyes.
  { intros v rest Hnb Hp. destruct (Hdef v rest Hp) as (Hn & Hu & Hl).
    destruct (with_assessment_defined td v Hn Hu) as (row & Hrow & Hv & _).
    exists row. split; [done|]. split; [done|].
    rewrite Hsent, Hnb, Hp. simpl. by rewrite Hrow, Hl. }
  split; [|split; [|split; [|split]]].
  - split.
    + intros (row & Hrow & Hv). rewrite Hsent in Hrow.
      destruct (nonblank (riskResult x)) eqn:Hnb.
      * destruct (JSON_parse (riskResult x)) as [w|] eqn:Hp.
        -- destruct (MultiChain.available (default VNull (Some w))) eqn:Ha.
           ++ apply available_iff in Ha as (v & rest & Hw). simpl in Hw. subst w.
              split; eauto.
           ++ injection Hrow as <-. unfold bare in Hbare. congruence.
        -- simpl in Hrow. injection Hrow as <-. unfold bare in Hbare. congruence.
      * simpl in Hrow. injection Hrow as <-. unfold bare in Hbare. congruence.
    + intros (Hnb & v & rest & Hp).
      destruct (Hyes v rest Hnb Hp) as (row & _ & Hv & Hs). by exists row.
  - intros v rest Hnb Hp. destruct (Hyes v rest Hnb Hp) as (row & Hrow & _ & Hs). eauto.
  - intros c.
    destruct (MultiChain_on_close_sent td (exits c) db s) as (ev' & -> & Hsent').
    simpl in *. by rewrite Hsent, Hsent'.
  - intros Hnb c.
    unfold MultiChain.on_close, MultiChain.riskAssessment, exits. simpl.
    by rewrite Hnb.
  - intros Hnb stderr call c. subst stderr call.
    unfold MultiChain.on_close, MultiChain.riskAssessment, MultiChain.insertData, exits.
    unfold send, report, when, try_catch, mbind, lift, emit, ret, throw. simpl.
    rewrite Hnb. simpl.
    destruct (truthy_string (riskError x)), (bool_decide (c = Some 0)); simpl;
      match goal with |- context [db ?q] => destruct (db q) end; reflexivity.
Qed.

(** X19. The merge of lines 166-178 returns for every assessment object,
    whatever fields it has: a missing [risk_category] or [fraud_type]
    becomes "unknown", a missing list of indicators the empty array,
    missing [details] the empty object, and the other fields of the record
    stay as they were.  Lines 158-181 as a whole hand that record on
    exactly when line 180 can print the two categorical fields, and throw
    otherwise; without an assessment the record is returned as it is. *)
Theorem record_builder_defaults {S} td props rest (s : S) :
  let prop k := default VUndefined (own k props) in
  let payload :=
    [ ("phishing_indicators", or_else (prop "phishing_indicators") (VArray []));
      ("urls_found", or_else (prop "urls_found") (VArray []));
      ("money_amounts", or_else (prop "money_amounts") (VArray []));
      ("details", or_else (prop "details") (VObject [])) ] in
  exists row,
    MultiChain.with_assessment td (VObject props) = Return row /\
    MultiChain.insertData td (VArray (VObject props :: rest)) s =
      (if logged (VObject props)
       then (s, [ConsoleLog (PreparingToSave (prop "fraud_type") (prop "risk_category"))],
             Return row)
       else (s, [], Throw (TypeError "Cannot convert object to primitive value"))) /\
    MultiChain.insertData td VNull s = (s, [], Return td) /\
    own "risk_category" row = Some (or_else (prop "risk_category") (VString "unknown")) /\
    own "fraud_type" row = Some (or_else (prop "fraud_type") (VString "unknown")) /\
    own "detection_details" row = Some (VString (JSON_stringify (VObject payload))) /\
    (forall k, k <> "risk_category" -> k <> "fraud_type" -> k <> "detection_details" ->
       own k row = own k td) /\
    (own "risk_category" props = None ->
       own "risk_category" row = Some (VString "unknown")) /\
    (own "fraud_type" props = None ->
       own "fraud_type" row = Some (VString "unknown")) /\
    (own "phishing_indicators" props = None ->
       own "phishing_indicators" payload = Some (VArray [])) /\
    (own "urls_found" props = None -> own "urls_found" payload = Some (VArray [])) /\
    (own "money_amounts" props = None -> own "money_amounts" payload = Some (VArray [])) /\
    (own "details" props = None -> own "details" payload = Some (VObject [])).
Proof.
  intros prop payload. eexists. split; [reflexivity|].
  split.
  { unfold MultiChain.insertData, mbind, lift, emit, ret. cbn [MultiChain.available
      truthy Array_isArray MultiChain.length_of MultiChain.first andb].
    simpl. unfold logged, interpolate, field. fold (prop "fraud_type").
    fold (prop "risk_category").
    destruct (printable (prop "fraud_type")); simpl; [|reflexivity].
    destruct (printable (prop "risk_category")); reflexivity. }
  split; [reflexivity|].
  assert (forall k : string, own k props = None -> prop k = VUndefined) as Hmiss.
  { intros k Hk. unfold prop. by rewrite Hk. }
  repeat split.
  - rewrite (own_set_other "risk_category" "detection_details") by done.
    rewrite (own_set_other "risk_category" "fraud_type") by done.
    apply own_set_same.
  - rewrite (own_set_other "fraud_type" "detection_details") by done.
    apply own_set_same.
  - apply own_set_same.
  - intros k H1 H2 H3. by rewrite !own_set_other.
  - intros Hk.
    rewrite (own_set_other "risk_category" "detection_details") by done.
    rewrite (own_set_other "risk_category" "fraud_type") by done.
    rewrite own_set_same. fold (prop "risk_category"). by rewrite (Hmiss _ Hk).
  - intros Hk.
    rewrite (own_set_other "fraud_type" "detection_details") by done.
    rewrite own_set_same. fold (prop "fraud_type"). by rewrite (Hmiss _ Hk).
  - intros Hk. unfold payload. simpl. by rewrite (Hmiss _ Hk).
  - intros Hk. unfold payload. simpl. by rewrite (Hmiss _ Hk).
  - intros Hk. unfold payload. simpl. by rewrite (Hmiss _ Hk).
  - intros Hk. unfold payload. simpl. by rewrite (Hmiss _ Hk).
Qed.

End Platform.
End Verdict.

(** ** Processing an address at most once *)

Module Dedup.
Import JS Eff Pipeline Trace JSFacts Probe Detection Closing Once.

Lemma probes_app N A a b : probes N A (a ++ b) = (probes N A a + probes N A b)%nat.
Proof.
  induction a as [|e a IH]; [done|].
  destruct e; simpl; rewrite ?IH; lia.
Qed.

Lemma scored_app N A a b : scored N A (a ++ b) = (scored N A a + scored N A b)%nat.
Proof.
  unfold scored, Supabase.rows_with.
  by rewrite jobs_app, map_app, List.filter_app, length_app.
Qed.

Lemma saves_app N A a b : saves N A (a ++ b) = (saves N A a + saves N A b)%nat.
Proof.
  unfold saves, Supabase.rows_with.
  by rewrite sent_app, List.filter_app, length_app.
Qed.

Lemma processed_tick N A pc n m :
  processed N A {| MultiChain.processedContracts := pc; MultiChain.tick := n |} ->
  processed N A {| MultiChain.processedContracts := pc; MultiChain.tick := m |}.
Proof. by intros (seen & Hs & Hin); exists seen. Qed.

Lemma processed_add N A c a st seen n :
  MultiChain.processedContracts st !! c = Some seen ->
  processed N A st ->
  processed N A {| MultiChain.processedContracts :=
                     <[c := {[a]} ∪ seen]> (MultiChain.processedContracts st);
                   MultiChain.tick := n |}.
Proof.
  intros Hc (s & Hs & Hin). unfold processed. simpl.
  destruct (decide (c = N)) as [->|Hne].
  - rewrite lookup_insert_eq. eexists. split; [done|].
    rewrite Hs in Hc. injection Hc as ->. set_solver.
  - rewrite lookup_insert_ne by done. eauto.
Qed.

Lemma processed_added N A st seen n :
  processed N A {| MultiChain.processedContracts :=
                     <[N := {[A]} ∪ seen]> (MultiChain.processedContracts st);
                   MultiChain.tick := n |}.
Proof.
  unfold processed. simpl. rewrite lookup_insert_eq.
  eexists. split; [done|]. set_solver.
Qed.

(** A computation that leaves the state alone and neither probes, nor
    starts a scorer, nor calls the datastore. *)
Lemma once_quiet N A {X} (m : M MultiChain.state event X) :
  (forall st, exists ev r, m st = (st, ev, r) /\
     probes N A ev = 0%nat /\ scored N A ev = 0%nat /\ sent ev = []) ->
  once N A m.
Proof.
  intros Hm st. destruct (Hm st) as (ev & r & -> & Hp & Hs & Hsent).
  rewrite Hp, Hs. split; [tauto|]. split; [lia|]. split; [done|]. split; [lia|done].
Qed.

Lemma once_bind N A {X Y} (m : M MultiChain.state event X)
    (k : X -> M MultiChain.state event Y) :
  once N A m -> (forall x, once N A (k x)) -> once N A (mbind m k).
Proof.
  intros Hm Hk st. unfold mbind. specialize (Hm st).
  destruct (m st) as [[s1 ev1] [x|e]]; [|done].
  specialize (Hk x s1). destruct (k x s1) as [[s2 ev2] r].
  destruct Hm as (Hm1 & Hm2 & Hm3 & Hm4 & Hm5).
  destruct Hk as (Hk1 & Hk2 & Hk3 & Hk4 & Hk5).
  rewrite probes_app, scored_app, sent_app, Hm5, Hk5.
  split; [|split; [|split; [|split]]]; try done.
  - intros Hp. destruct (Hm1 Hp) as [Hp1 ->]. destruct (Hk1 Hp1) as [Hp2 ->]. done.
  - destruct (decide (probes N A ev1 = 1%nat)) as [E|E]; [|lia].
    destruct (Hk1 (Hm3 E)) as [_ ->]. lia.
  - intros Hsum. destruct (decide (probes N A ev1 = 1%nat)) as [E|E].
    + by destruct (Hk1 (Hm3 E)).
    + apply Hk3. lia.
  - lia.
Qed.

Lemma once_try_catch N A {X} (m : M MultiChain.state event X)
    (h : exn -> M MultiChain.state event X) :
  once N A m -> (forall e, once N A (h e)) -> once N A (try_catch m h).
Proof.
  intros Hm Hh st. unfold try_catch. specialize (Hm st).
  destruct (m st) as [[s1 ev1] [x|e]]; [done|].
  specialize (Hh e s1). destruct (h e s1) as [[s2 ev2] r].
  destruct Hm as (Hm1 & Hm2 & Hm3 & Hm4 & Hm5).
  destruct Hh as (Hk1 & Hk2 & Hk3 & Hk4 & Hk5).
  rewrite probes_app, scored_app, sent_app, Hm5, Hk5.
  split; [|split; [|split; [|split]]]; try done.
  - intros Hp. destruct (Hm1 Hp) as [Hp1 ->]. destruct (Hk1 Hp1) as [Hp2 ->]. done.
  - destruct (decide (probes N A ev1 = 1%nat)) as [E|E]; [|lia].
    destruct (Hk1 (Hm3 E)) as [_ ->]. lia.
  - intros Hsum. destruct (decide (probes N A ev1 = 1%nat)) as [E|E].
    + by destruct (Hk1 (Hm3 E)).
    + apply Hk3. lia.
  - lia.
Qed.

Lemma once_ret N A {X} (x : X) : once N A (ret x).
Proof. apply once_quiet. intros st. by exists [], (Return x). Qed.

Lemma once_for_of N A {X} (xs : list X) (body : X -> M MultiChain.state event unit) :
  (forall x, once N A (body x)) -> once N A (for_of xs body).
Proof.
  intros Hb. induction xs as [|x xs IH]; simpl.
  - apply once_ret.
  - apply once_bind; [apply Hb|]. intros _. apply IH.
Qed.

Section Platform.
Context `{Platform} (W : world).

Lemma tokenData_key N A t b r td :
  tokenData N A t b r = Return td -> Supabase.key td = Some (A, N).
Proof.
  unfold tokenData. destruct (Promise_all r) as [[[n s] d]|e]; [|done].
  simpl. destruct (createdBlockDatetime (timestamp b)) as [iso|e]; [|done].
  simpl. by intros [= <-].
Qed.

(** The turns of the loop: a turn that changes nothing, or the first turn
    for an address, which adds it to the set of its network and probes
    it. *)
Lemma MultiChain_iteration_cases c b t st :
  (exists r, MultiChain.iteration W c b t st = (st, [], r)) \/
  (exists seen ev,
     MultiChain.processedContracts st !! c = Some seen /\ (address t ∉ seen) /\
     MultiChain.iteration W c b t st =
       ({| MultiChain.processedContracts :=
             <[c := {[address t]} ∪ seen]> (MultiChain.processedContracts st);
           MultiChain.tick := S (MultiChain.tick st) |}, ev, Return tt) /\
     (ev = [Verify c (address t)] \/
      exists td stdin, Supabase.key td = Some (address t, c) /\
        ev = [Verify c (address t); ConsoleLog (Detected td);
              Spawn (MultiChain.tick st) stdin td])).
Proof.
  unfold MultiChain.iteration. destruct (deploys t); simpl; [|left; by eexists].
  unfold mbind.
  destruct (MultiChain.processedContracts st !! c) as [seen|] eqn:Hs.
  - rewrite (shouldProcess_spec c (address t) st seen Hs).
    destruct (bool_decide (address t ∈ seen)) eqn:Hin.
    + left. by eexists.
    + apply bool_decide_eq_false in Hin. right. exists seen.
      rewrite MultiChain_verify. cbn [MultiChain.tick MultiChain.processedContracts].
      destruct (tokenData c (address t) t b _) as [td|e] eqn:Htd.
      * eexists. repeat split; [done|]. right. exists td. eexists.
        split; [|done]. by apply (tokenData_key _ _ _ _ _ _ Htd).
      * eexists. repeat split; [done|]. by left.
  - destruct (shouldProcess_unregistered c (address t) st Hs) as [e ->].
    left. by eexists.
Qed.

Lemma once_iteration N A c b t : once N A (MultiChain.iteration W c b t).
Proof.
  intros st.
  destruct (MultiChain_iteration_cases c b t st)
    as [[r ->]|(seen & ev & Hs & Hfresh & -> & Hev)].
  { unfold scored. simpl. split; [tauto|]. split; [lia|]. split; [done|]. split; [lia|done]. }
  assert (probes N A ev = if bool_decide (c = N /\ address t = A) then 1%nat else 0%nat)
    as Hp.
  { destruct Hev as [->|(td & stdin & _ & ->)]; simpl; lia. }
  assert (scored N A ev <= probes N A ev)%nat as Hsc.
  { rewrite Hp. destruct Hev as [->|(td & stdin & Hk & ->)];
      [unfold scored; simpl; destruct (bool_decide _); lia|].
    unfold scored, Supabase.rows_with, Supabase.has_key. simpl. rewrite Hk.
    destruct (bool_decide (c = N /\ address t = A)) eqn:E.
    - destruct (bool_decide (Some (address t, c) = Some (A, N))); simpl; lia.
    - apply bool_decide_eq_false in E.
      rewrite bool_decide_eq_false_2; [simpl; lia|].
      intros [= E1 E2]. by apply E. }
  assert (sent ev = []) as Hsent.
  { by destruct Hev as [->|(td & stdin & _ & ->)]. }
  rewrite Hp. split; [|split; [|split; [|split]]]; try done.
  - intros Hpr. split; [by apply processed_add|].
    destruct (bool_decide (c = N /\ address t = A)) eqn:E; [|done].
    apply bool_decide_eq_true in E as [E1 E2]. subst c A.
    destruct Hpr as (s & Hs' & Hin). rewrite Hs in Hs'. injection Hs' as ->. done.
  - destruct (bool_decide _); lia.
  - destruct (bool_decide (c = N /\ address t = A)) eqn:E; [|done].
    apply bool_decide_eq_true in E as [E1 E2]. subst c A. intros _.
    apply processed_added.
  - by rewrite <- Hp.
Qed.

Lemma once_on_block N A c f : once N A (MultiChain.on_block W c f).
Proof.
  unfold MultiChain.on_block. apply once_try_catch.
  - apply once_bind.
    + apply once_quiet. intros st. unfold lift. by exists [], f.
    + intros [b|]; [|apply once_ret].
      destruct (transactions b) as [txs|]; [|apply once_ret].
      apply once_for_of. intros t. apply once_iteration.
  - intros e. apply once_quiet. intros st. unfold emit. by eexists _, _.
Qed.

End Platform.
End Dedup.

Module Runs.
Import JS Eff Pipeline Trace JSFacts Probe Detection Closing Once Dedup.

Lemma probes_none N A ev : probed ev = [] -> probes N A ev = 0%nat.
Proof.
  induction ev as [|e ev IH]; [done|]. destruct e; simpl; try done.
Qed.

Lemma quiet_ret {S X} (x : X) : quiet (S:=S) (ret x).
Proof. by intros s. Qed.

Lemma quiet_lift {S X} (c : completion X) : quiet (S:=S) (lift c).
Proof. by intros s. Qed.

Lemma quiet_throw {S X} e : quiet (S:=S) (X:=X) (throw e).
Proof. by intros s. Qed.

Lemma quiet_log {S} l : quiet (S:=S) (emit (ConsoleLog l)).
Proof. by intros s. Qed.

Lemma quiet_error {S} l : quiet (S:=S) (emit (ConsoleError l)).
Proof. by intros s. Qed.

Lemma quiet_call {S} c : quiet (S:=S) (emit (Supabase c)).
Proof. by intros s. Qed.

Lemma quiet_bind {S X Y} (m : M S event X) (k : X -> M S event Y) :
  quiet m -> (forall x, quiet (k x)) -> quiet (mbind m k).
Proof.
  intros Hm Hk s. unfold mbind. specialize (Hm s).
  destruct (m s) as [[s1 ev1] [x|e]]; [|done].
  specialize (Hk x s1). destruct (k x s1) as [[s2 ev2] r].
  simpl in *. rewrite probed_app, jobs_app.
  destruct Hm as [-> ->]. by destruct Hk as [-> ->].
Qed.

Lemma quiet_try_catch {S X} (m : M S event X) (h : exn -> M S event X) :
  quiet m -> (forall e, quiet (h e)) -> quiet (try_catch m h).
Proof.
  intros Hm Hh s. unfold try_catch. specialize (Hm s).
  destruct (m s) as [[s1 ev1] [x|e]]; [done|].
  specialize (Hh e s1). destruct (h e s1) as [[s2 ev2] r].
  simpl in *. rewrite probed_app, jobs_app.
  destruct Hm as [-> ->]. by destruct Hh as [-> ->].
Qed.

Lemma quiet_when {S} c (m : M S event unit) : quiet m -> quiet (when c m).
Proof. intros Hm. destruct c; [done|apply quiet_ret]. Qed.

Lemma quiet_send {S} c resp : quiet (S:=S) (send c resp).
Proof.
  unfold send. apply quiet_bind; [apply quiet_call|]. intros _.
  destruct resp; [apply quiet_ret|apply quiet_ret|apply quiet_throw].
Qed.

Lemma quiet_report {S} error : quiet (S:=S) (report error).
Proof. destruct error; [apply quiet_error|apply quiet_log]. Qed.

Section Platform.
Context `{Platform} (W : world).

Lemma quiet_MultiChain_on_close {S} td x db : quiet (S:=S) (MultiChain.on_close td x db).
Proof.
  unfold MultiChain.on_close.
  apply quiet_bind; [apply quiet_when, quiet_log|]. intros _.
  apply quiet_bind.
  { unfold MultiChain.riskAssessment. apply quiet_try_catch.
    - destruct (nonblank _).
      + apply quiet_bind; [apply quiet_lift|]. intros v.
        apply quiet_bind; [apply quiet_log|]. intros _. apply quiet_ret.
      + destruct (negb _); [|apply quiet_ret].
        apply quiet_bind; [apply quiet_log|]. intros _. apply quiet_ret.
    - intros e. apply quiet_bind; [apply quiet_error|]. intros _. apply quiet_ret. }
  intros ra. apply quiet_try_catch; [|intros e; apply quiet_error].
  apply quiet_bind.
  { unfold MultiChain.insertData. destruct (MultiChain.available ra); [|apply quiet_ret].
    apply quiet_bind; [apply quiet_lift|]. intros row.
    apply quiet_bind; [apply quiet_lift|]. intros ft.
    apply quiet_bind; [apply quiet_lift|]. intros rc.
    apply quiet_bind; [apply quiet_log|]. intros _. apply quiet_ret. }
  intros row. apply quiet_bind; [apply quiet_send|]. intros error. apply quiet_report.
Qed.

Lemma quiet_Listener_on_close {S} td x db : quiet (S:=S) (Listener.on_close td x db).
Proof.
  unfold Listener.on_close.
  apply quiet_bind; [apply quiet_when, quiet_error|]. intros _.
  apply quiet_bind.
  { apply quiet_try_catch.
    - apply quiet_bind; [apply quiet_lift|]. intros v.
      apply quiet_bind; [apply quiet_log|]. intros _. apply quiet_ret.
    - intros e. apply quiet_bind; [apply quiet_error|]. intros _. apply quiet_ret. }
  intros ra. apply quiet_try_catch; [|intros e; apply quiet_error].
  apply quiet_bind.
  { destruct (truthy ra); [apply quiet_lift|apply quiet_ret]. }
  intros row. apply quiet_bind; [apply quiet_send|]. intros error. apply quiet_report.
Qed.

(** The record a close handler of the four-network listener sends has the
    key of the record its scorer was started for. *)
Lemma MultiChain_close_saves N A j :
  probed (MultiChain.close W j) = [] /\ jobs (MultiChain.close W j) = [] /\
  (saves N A (MultiChain.close W j)
   <= length (Supabase.rows_with (A, N) [j.2]))%nat.
Proof.
  destruct j as [[job stdin] td]. unfold MultiChain.close.
  destruct (quiet_MultiChain_on_close td (python W job stdin) (supabase W job) tt)
    as [Hp Hj].
  split; [done|]. split; [done|].
  destruct (MultiChain_on_close_sent td (python W job stdin) (supabase W job) tt)
    as (ev & Hev & Hsent).
  rewrite Hev. unfold saves. simpl. rewrite Hsent.
  destruct (MultiChain.available _); [|done].
  destruct (MultiChain.with_assessment td _) as [row|e] eqn:Hw; [|simpl; lia].
  destruct (Observe.logged _); [|simpl; lia].
  destruct (with_assessment_returns _ _ _ Hw) as [Hn Hu].
  destruct (with_assessment_defined td _ Hn Hu) as (row' & Hw' & _ & Hsame).
  rewrite Hw in Hw'. injection Hw' as <-.
  assert (Supabase.key row = Supabase.key td) as Hk.
  { unfold Supabase.key, Supabase.text. by rewrite !Hsame. }
  unfold Supabase.rows_with. simpl. unfold Supabase.has_key. rewrite Hk.
  by destruct (bool_decide (Supabase.key td = Some (A, N))).
Qed.

Lemma MultiChain_closes_saves N A js :
  probed (flat_map (MultiChain.close W) js) = [] /\
  jobs (flat_map (MultiChain.close W) js) = [] /\
  (saves N A (flat_map (MultiChain.close W) js)
   <= length (Supabase.rows_with (A, N) (map snd js)))%nat.
Proof.
  induction js as [|j js (IH1 & IH2 & IH3)]; [done|].
  destruct (MultiChain_close_saves N A j) as (H1 & H2 & H3).
  simpl. rewrite probed_app, jobs_app, saves_app, H1, H2, IH1, IH2.
  split; [done|]. split; [done|].
  simpl in H3. destruct (Supabase.has_key (A, N) j.2); simpl in *; lia.
Qed.

Lemma deliver_at_most_once N A c f st :
  at_most_once N A st (MultiChain.deliver W c f st).1 (MultiChain.deliver W c f st).2.
Proof.
  unfold MultiChain.deliver. pose proof (once_on_block W N A c f st) as Ho.
  destruct (MultiChain.on_block W c f st) as [[st1 trace] r].
  destruct Ho as (H1 & H2 & H3 & H4 & H5).
  destruct (MultiChain_closes_saves N A (jobs trace)) as (C1 & C2 & C3).
  unfold at_most_once. simpl.
  rewrite probes_app, scored_app, saves_app.
  rewrite (probes_none N A _ C1).
  assert (scored N A (flat_map (MultiChain.close W) (jobs trace)) = 0%nat) as ->.
  { unfold scored. by rewrite C2. }
  assert (saves N A trace = 0%nat) as ->.
  { unfold saves. by rewrite H5. }
  rewrite !Nat.add_0_r. simpl.
  split; [done|]. split; [done|]. split; [done|]. split; [done|].
  exact C3.
Qed.

Lemma at_most_once_trans N A st st1 st2 ev1 ev2 :
  at_most_once N A st st1 ev1 -> at_most_once N A st1 st2 ev2 ->
  at_most_once N A st st2 (ev1 ++ ev2).
Proof.
  intros (H1 & H2 & H3 & H4 & H5) (K1 & K2 & K3 & K4 & K5).
  unfold at_most_once. rewrite probes_app, scored_app, saves_app.
  split; [|split; [|split; [|split]]].
  - intros Hp. destruct (H1 Hp) as [Hp1 ->]. destruct (K1 Hp1) as [Hp2 ->]. done.
  - destruct (decide (probes N A ev1 = 1%nat)) as [E|E]; [|lia].
    destruct (K1 (H3 E)) as [_ ->]. lia.
  - intros Hsum. destruct (decide (probes N A ev1 = 1%nat)) as [E|E].
    + by destruct (K1 (H3 E)).
    + apply K3. lia.
  - lia.
  - lia.
Qed.

Lemma run_at_most_once N A ds st :
  at_most_once N A st (MultiChain.run W ds st).1 (MultiChain.run W ds st).2.
Proof.
  revert st. induction ds as [|[c f] ds IH]; intros st.
  - unfold at_most_once, scored, saves. simpl.
    split; [tauto|]. split; [lia|]. split; [done|]. split; lia.
  - simpl. pose proof (deliver_at_most_once N A c f st) as Hd.
    destruct (MultiChain.deliver W c f st) as [st1 ev1].
    specialize (IH st1). destruct (MultiChain.run W ds st1) as [st2 ev2].
    simpl in *. by apply (at_most_once_trans N A st st1 st2).
Qed.

End Platform.
End Runs.

(** ** The datastore: upsert against insert *)

Module Persistence.
Import JS Eff Pipeline Trace JSFacts Closing.
Import Supabase.

Lemma own_set k k' v o :
  own k (JS.set k' v o) = if String.eqb k k' then Some v else own k o.
Proof.
  destruct (String.eqb k k') eqn:E.
  - apply String.eqb_eq in E as ->. apply own_set_same.
  - apply String.eqb_neq in E. by apply own_set_other.
Qed.

(** The merged row has every column of the new record and keeps the other
    columns of the old one. *)
Lemma own_merge c old new :
  own c (merge old new) = match own c new with
                          | Some v => Some v
                          | None => own c old
                          end.
Proof.
  induction new as [|[k v] new IH]; [done|].
  simpl. rewrite own_set. by destruct (String.eqb c k).
Qed.

Lemma key_merge old new k : key new = Some k -> key (merge old new) = Some k.
Proof.
  unfold key, text. rewrite !own_merge.
  destruct (own "contract_address" new) as [[]|]; try done.
  destruct (own "blockchain" new) as [[]|]; done.
Qed.

Lemma rows_with_app k t1 t2 : rows_with k (t1 ++ t2) = rows_with k t1 ++ rows_with k t2.
Proof. apply List.filter_app. Qed.

Lemma rows_with_none k t : existsb (has_key k) t = false -> rows_with k t = [].
Proof.
  induction t as [|r t IH]; [done|]. simpl.
  intros [E1 E2]%orb_false_elim. rewrite E1. by apply IH.
Qed.

Lemma rows_with_update k row t :
  key row = Some k -> existsb (has_key k) t = true ->
  exists r0 rest, rows_with k t = r0 :: rest /\
                  rows_with k (update k row t) = merge r0 row :: rest.
Proof.
  intros Hk. induction t as [|r t IH]; [done|]. simpl.
  destruct (has_key k r) eqn:E.
  - intros _. exists r, (rows_with k t). split; [done|]. simpl.
    unfold has_key at 1. rewrite (key_merge r row k Hk).
    by rewrite bool_decide_eq_true_2.
  - simpl. intros Ht. destruct (IH Ht) as (r0 & rest & H1 & H2).
    exists r0, rest. by rewrite E.
Qed.

Lemma rows_with_update_other k k' row t :
  key row = Some k -> k' <> k ->
  rows_with k' (update k row t) = rows_with k' t.
Proof.
  intros Hk Hne. induction t as [|r t IH]; [done|]. simpl.
  destruct (has_key k r) eqn:E; simpl.
  - unfold has_key at 1. rewrite (key_merge r row k Hk).
    rewrite bool_decide_eq_false_2 by congruence.
    apply bool_decide_eq_true in E.
    unfold has_key. rewrite E.
    by rewrite bool_decide_eq_false_2 by congruence.
  - by rewrite IH.
Qed.

(** Upserting a record leaves one row for its key when there was at most
    one, with the columns of the record; rows of other keys are not
    touched. *)
Lemma rows_with_upsert k row t :
  key row = Some k -> (length (rows_with k t) <= 1)%nat ->
  exists stored, rows_with k (upsert row t) = [stored] /\
    (forall c v, own c row = Some v -> own c stored = Some v) /\
    (forall k', k' <> k -> rows_with k' (upsert row t) = rows_with k' t).
Proof.
  intros Hk Hone. unfold upsert, conflicts. rewrite Hk.
  destruct (existsb (has_key k) t) eqn:Hc.
  - destruct (rows_with_update k row t Hk Hc) as (r0 & rest & H1 & H2).
    rewrite H1 in Hone. destruct rest; [|simpl in Hone; lia].
    exists (merge r0 row). split; [done|]. split.
    + intros c v Hv. by rewrite own_merge, Hv.
    + intros k' Hne. by apply rows_with_update_other.
  - exists row. rewrite rows_with_app, (rows_with_none k t Hc). simpl.
    unfold has_key. rewrite bool_decide_eq_true_2 by done.
    split; [done|]. split; [done|].
    intros k' Hne. rewrite rows_with_app. simpl. unfold has_key.
    rewrite bool_decide_eq_false_2 by congruence. by rewrite app_nil_r.
Qed.

(** A second upsert for a key updates the row of that key: after the two
    there is one row for the key, it holds every column of the second
    record, and the datastore reported no error. *)
Lemma upsert_twice k r1 r2 t :
  key r1 = Some k -> key r2 = Some k -> (length (rows_with k t) <= 1)%nat ->
  exists stored,
    rows_with k (upsert r2 (upsert r1 t)) = [stored] /\
    (forall c v, own c r2 = Some v -> own c stored = Some v) /\
    (forall k', k' <> k -> rows_with k' (upsert r2 (upsert r1 t)) = rows_with k' t).
Proof.
  intros H1 H2 Hone.
  destruct (rows_with_upsert k r1 t H1 Hone) as (s1 & Hs1 & _ & Ho1).
  assert (length (rows_with k (upsert r1 t)) <= 1)%nat as Hone1 by (by rewrite Hs1).
  destruct (rows_with_upsert k r2 (upsert r1 t) H2 Hone1) as (s2 & Hs2 & Hc2 & Ho2).
  exists s2. split; [done|]. split; [done|].
  intros k' Hne. by rewrite Ho2, Ho1.
Qed.

Lemma exec_upsert row t :
  exec (Upsert "erc20_tokens" [row] "contract_address,blockchain") t
  = (upsert (columns row) t, DbOk).
Proof. reflexivity. Qed.

(** A second insert for a key is refused and changes nothing. *)
Lemma insert_twice k r1 r2 t :
  key r1 = Some k -> key r2 = Some k ->
  insert r1 t = None \/ exists t1, insert r1 t = Some t1 /\ insert r2 t1 = None.
Proof.
  intros H1 H2. unfold insert at 1 2. destruct (conflicts r1 t) eqn:Hc; [by left|].
  right. eexists. split; [done|].
  unfold insert, conflicts. rewrite H2, existsb_app. simpl.
  unfold has_key at 2. rewrite bool_decide_eq_true_2 by done.
  by rewrite orb_true_r.
Qed.

End Persistence.

(** ** The lifetime of the process *)

Module Lifetime.
Import JS Eff Pipeline Trace JSFacts Probe Detection Closing Once Dedup Runs.

Lemma startup_registered N :
  In N MultiChain.NETWORKS ->
  MultiChain.processedContracts MultiChain.startup !! N = Some ∅.
Proof.
  unfold MultiChain.NETWORKS.
  intros [<-|[<-|[<-|[<-|[]]]]]; by vm_compute.
Qed.

Lemma shouldProcess_again N A st :
  processed N A st -> MultiChain.shouldProcess N A st = (st, [], Return false).
Proof.
  intros (seen & Hs & Hin). rewrite (shouldProcess_spec N A st seen Hs).
  by rewrite bool_decide_eq_true_2.
Qed.

Section Platform.
Context `{Platform}.

(** In the four-network listener the first check of an address on a
    registered network answers true and adds the address to the set of the
    network; from then on, whatever blocks are delivered in between, the
    check answers false; and over any blocks delivered from any state the
    address is probed at most once, given to at most one scorer and sent
    to the datastore at most once. *)
Theorem MultiChain_processes_at_most_once N A :
  (forall st seen,
     MultiChain.processedContracts st !! N = Some seen -> A ∉ seen ->
     exists marked, MultiChain.shouldProcess N A st = (marked, [], Return true) /\
                    processed N A marked) /\
  (forall W st ds,
     processed N A st ->
     let later := (MultiChain.run W ds st).1 in
     MultiChain.shouldProcess N A later = (later, [], Return false)) /\
  (forall W ds st,
     let trace := (MultiChain.run W ds st).2 in
     (probes N A trace <= 1)%nat /\ (scored N A trace <= 1)%nat /\
     (saves N A trace <= 1)%nat).
Proof.
  split; [|split].
  - intros st seen Hs Hfresh. rewrite (shouldProcess_spec N A st seen Hs).
    rewrite bool_decide_eq_false_2 by done. eexists. split; [done|].
    apply processed_added.
  - intros W st ds Hp later. apply shouldProcess_again.
    by destruct (run_at_most_once W N A ds st) as ((Hl & _) & _).
  - intros W ds st trace.
    destruct (run_at_most_once W N A ds st) as (_ & H2 & _ & H4 & H5).
    fold trace in H2, H4, H5. lia.
Qed.

(** Block handlers that overlap take their turns of the loop in some
    order.  In any order of turns, over any blocks of any networks, an
    address is probed at most once on a network: the check and the
    addition of lines 91-92 are one step, with no [await] between them. *)
Lemma turns_in_any_order W N A (turns : list (string * block * tx)) st :
  let turn := fun x : string * block * tx =>
    try_catch (MultiChain.iteration W x.1.1 x.1.2 x.2) (fun _ => ret tt) in
  (probes N A (for_of turns turn st).1.2 <= 1)%nat.
Proof.
  intros turn.
  assert (once N A (for_of turns turn)) as Ho.
  { apply once_for_of. intros [[c b] t]. apply once_try_catch.
    - apply once_iteration.
    - intros e. apply once_ret. }
  specialize (Ho st). destruct (for_of turns turn st) as [[s1 ev] r].
  by destruct Ho as (_ & H2 & _).
Qed.

(** C10. On the first turn of the loop for a candidate address the address
    is added to the set of its network before the probe is issued, and it
    is in the set after the turn whatever the three reads answered, also
    when one was rejected; from then on no delivery of blocks, in any
    world, probes it again, starts a scorer for it or sends it to the
    datastore. *)
Theorem marked_before_verified W N b t A st seen :
  creates t = Some A -> A <> "" ->
  MultiChain.processedContracts st !! N = Some seen -> A ∉ seen ->
  let marked := {| MultiChain.processedContracts :=
                     <[N := {[A]} ∪ seen]> (MultiChain.processedContracts st);
                   MultiChain.tick := MultiChain.tick st |} in
  let st1 := (MultiChain.iteration W N b t st).1.1 in
  MultiChain.shouldProcess N A st = (marked, [], Return true) /\
  MultiChain.iteration W N b t st = MultiChain.verify W N b t A marked /\
  processed N A marked /\
  processed N A st1 /\
  (fails (contract W (MultiChain.tick st) N A) ->
     (MultiChain.iteration W N b t st).1.2 = [Verify N A]) /\
  (forall W' ds,
     let later := (MultiChain.run W' ds st1).2 in
     probes N A later = 0%nat /\ scored N A later = 0%nat /\ saves N A later = 0%nat).
Proof.
  intros Hc Hne Hs Hfresh marked st1.
  assert (MultiChain.shouldProcess N A st = (marked, [], Return true)) as Hsp.
  { rewrite (shouldProcess_spec N A st seen Hs). by rewrite bool_decide_eq_false_2. }
  assert (MultiChain.iteration W N b t st = MultiChain.verify W N b t A marked) as Hit.
  { unfold MultiChain.iteration.
    rewrite (deploys_address t A Hc Hne), (address_creates t A Hc).
    cbn [negb]. unfold mbind. rewrite Hsp.
    by destruct (MultiChain.verify W N b t A marked) as [[s2 ev2] r]. }
  assert (processed N A marked) as Hm by apply processed_added.
  assert (processed N A st1) as Hp1.
  { unfold st1. rewrite Hit, MultiChain_verify. cbv zeta.
    destruct (tokenData N A t b _); simpl; by apply (processed_tick N A _ _ _ Hm). }
  split; [done|]. split; [done|]. split; [done|]. split; [done|]. split.
  - intros Hf. rewrite Hit, MultiChain_verify. cbv zeta.
    cbn [MultiChain.tick marked].
    by destruct (tokenData_fails N A t b _ Hf) as [e ->].
  - intros W' ds later.
    destruct (run_at_most_once W' N A ds st1) as (H1 & _ & _ & H4 & H5).
    destruct (H1 Hp1) as [_ H0]. fold later in H0, H4, H5. lia.
Qed.

End Platform.
End Lifetime.

(** ** What the close handlers ask of the datastore *)

Module Saving.
Import JS Eff Pipeline Trace JSFacts Closing Once Persistence.
Import Supabase.

Lemma calls_app a b : calls (a ++ b) = calls a ++ calls b.
Proof.
  induction a as [|e a IH]; [done|].
  destruct e; simpl; by rewrite ?IH.
Qed.

Lemma calls_as_ret {S X} f (x : X) : calls_as (S:=S) f (ret x).
Proof. by intros s. Qed.

Lemma calls_as_lift {S X} f (c : completion X) : calls_as (S:=S) f (lift c).
Proof. by intros s. Qed.

Lemma calls_as_throw {S X} f e : calls_as (S:=S) (X:=X) f (throw e).
Proof. by intros s. Qed.

Lemma calls_as_log {S} f l : calls_as (S:=S) f (emit (ConsoleLog l)).
Proof. by intros s. Qed.

Lemma calls_as_error {S} f l : calls_as (S:=S) f (emit (ConsoleError l)).
Proof. by intros s. Qed.

Lemma calls_as_bind {S X Y} f (m : M S event X) (k : X -> M S event Y) :
  calls_as f m -> (forall x, calls_as f (k x)) -> calls_as f (mbind m k).
Proof.
  intros Hm Hk s. unfold mbind. specialize (Hm s).
  destruct (m s) as [[s1 ev1] [x|e]]; [|done].
  specialize (Hk x s1). destruct (k x s1) as [[s2 ev2] r].
  simpl in *. by rewrite calls_app, sent_app, map_app, Hm, Hk.
Qed.

Lemma calls_as_try_catch {S X} f (m : M S event X) (h : exn -> M S event X) :
  calls_as f m -> (forall e, calls_as f (h e)) -> calls_as f (try_catch m h).
Proof.
  intros Hm Hh s. unfold try_catch. specialize (Hm s).
  destruct (m s) as [[s1 ev1] [x|e]]; [done|].
  specialize (Hh e s1). destruct (h e s1) as [[s2 ev2] r].
  simpl in *. by rewrite calls_app, sent_app, map_app, Hm, Hh.
Qed.

Lemma calls_as_when {S} f c (m : M S event unit) : calls_as f m -> calls_as f (when c m).
Proof. intros Hm. destruct c; [done|apply calls_as_ret]. Qed.

Lemma calls_as_report {S} f error : calls_as (S:=S) f (report error).
Proof. destruct error; [apply calls_as_error|apply calls_as_log]. Qed.

Lemma calls_as_upsert {S} row resp :
  calls_as (S:=S) (fun row => Upsert "erc20_tokens" [row] "contract_address,blockchain")
    (send (Upsert "erc20_tokens" [row] "contract_address,blockchain") resp).
Proof.
  unfold send. apply calls_as_bind; [by intros s|]. intros _.
  destruct resp; [apply calls_as_ret|apply calls_as_ret|apply calls_as_throw].
Qed.

Lemma calls_as_insert {S} row resp :
  calls_as (S:=S) (fun row => Insert "erc20_tokens" [row])
    (send (Insert "erc20_tokens" [row]) resp).
Proof.
  unfold send. apply calls_as_bind; [by intros s|]. intros _.
  destruct resp; [apply calls_as_ret|apply calls_as_ret|apply calls_as_throw].
Qed.

Lemma own_columns c v row :
  own c row = Some v -> v <> VUndefined -> own c (columns row) = Some v.
Proof.
  intros Hc Hv. induction row as [|[k w] row IH]; [done|].
  simpl in *. destruct (String.eqb c k) eqn:E.
  - injection Hc as ->. destruct v; try done; simpl; by rewrite E.
  - destruct w; simpl; rewrite ?E; by apply IH.
Qed.

Lemma key_columns row k : key row = Some k -> key (columns row) = Some k.
Proof.
  unfold key, text.
  destruct (own "contract_address" row) as [[| | | |a| |]|] eqn:Ha; try done.
  destruct (own "blockchain" row) as [[| | | |n| |]|] eqn:Hn; try done.
  intros <-.
  rewrite (own_columns _ _ _ Ha), (own_columns _ _ _ Hn); done.
Qed.

Section Platform.
Context `{Platform}.

(** The four-network listener saves with an upsert on the natural key. *)
Lemma MultiChain_saves_by_upsert {S} td x db :
  calls_as (S:=S) (fun row => Upsert "erc20_tokens" [row] "contract_address,blockchain")
    (MultiChain.on_close td x db).
Proof.
  unfold MultiChain.on_close.
  apply calls_as_bind; [apply calls_as_when, calls_as_log|]. intros _.
  apply calls_as_bind.
  { unfold MultiChain.riskAssessment. apply calls_as_try_catch.
    - destruct (nonblank _).
      + apply calls_as_bind; [apply calls_as_lift|]. intros v.
        apply calls_as_bind; [apply calls_as_log|]. intros _. apply calls_as_ret.
      + destruct (negb _); [|apply calls_as_ret].
        apply calls_as_bind; [apply calls_as_log|]. intros _. apply calls_as_ret.
    - intros e. apply calls_as_bind; [apply calls_as_error|]. intros _.
      apply calls_as_ret. }
  intros ra. apply calls_as_try_catch; [|intros e; apply calls_as_error].
  apply calls_as_bind.
  { unfold MultiChain.insertData.
    destruct (MultiChain.available ra); [|apply calls_as_ret].
    apply calls_as_bind; [apply calls_as_lift|]. intros row.
    apply calls_as_bind; [apply calls_as_lift|]. intros ft.
    apply calls_as_bind; [apply calls_as_lift|]. intros rc.
    apply calls_as_bind; [apply calls_as_log|]. intros _. apply calls_as_ret. }
  intros row. apply calls_as_bind; [apply calls_as_upsert|]. intros error.
  apply calls_as_report.
Qed.

(** The two-network listener saves with a plain insert. *)
Lemma Listener_saves_by_insert {S} td x db :
  calls_as (S:=S) (fun row => Insert "erc20_tokens" [row]) (Listener.on_close td x db).
Proof.
  unfold Listener.on_close.
  apply calls_as_bind; [apply calls_as_when, calls_as_error|]. intros _.
  apply calls_as_bind.
  { apply calls_as_try_catch.
    - apply calls_as_bind; [apply calls_as_lift|]. intros v.
      apply calls_as_bind; [apply calls_as_log|]. intros _. apply calls_as_ret.
    - intros e. apply calls_as_bind; [apply calls_as_error|]. intros _.
      apply calls_as_ret. }
  intros ra. apply calls_as_try_catch; [|intros e; apply calls_as_error].
  apply calls_as_bind.
  { destruct (truthy ra); [apply calls_as_lift|apply calls_as_ret]. }
  intros row. apply calls_as_bind; [apply calls_as_insert|]. intros error.
  apply calls_as_report.
Qed.

(** In the four-network listener, when two close handlers send records
    with the same key, the datastore accepts both calls and is left with
    one row for that key, which holds every column of the second record;
    the rows of other keys are as they were. *)
Theorem MultiChain_second_save_updates td1 td2 x1 x2 db1 db2 row1 row2 k t :
  let trace1 := (MultiChain.on_close td1 x1 db1 tt).1.2 in
  let trace2 := (MultiChain.on_close td2 x2 db2 tt).1.2 in
  sent trace1 = [row1] -> sent trace2 = [row2] ->
  key row1 = Some k -> key row2 = Some k ->
  (length (rows_with k t) <= 1)%nat ->
  exists t2 stored,
    replay (calls (trace1 ++ trace2)) t = (t2, [DbOk; DbOk]) /\
    rows_with k t2 = [stored] /\
    (forall c v, own c row2 = Some v -> v <> VUndefined -> own c stored = Some v) /\
    (forall k', k' <> k -> rows_with k' t2 = rows_with k' t).
Proof.
  intros trace1 trace2 Hs1 Hs2 Hk1 Hk2 Hone.
  pose proof (MultiChain_saves_by_upsert td1 x1 db1 tt) as Hc1.
  pose proof (MultiChain_saves_by_upsert td2 x2 db2 tt) as Hc2.
  fold trace1 in Hc1. fold trace2 in Hc2.
  rewrite calls_app, Hc1, Hc2, Hs1, Hs2. simpl.
  destruct (upsert_twice k (columns row1) (columns row2) t
              (key_columns _ _ Hk1) (key_columns _ _ Hk2) Hone)
    as (stored & Hrows & Hcols & Hother).
  eexists _, stored. split; [reflexivity|]. split; [done|]. split; [|done].
  intros c v Hv Hdef. apply Hcols. by apply own_columns.
Qed.

End Platform.
End Saving.

(** ** The listeners on concrete blocks *)

Module Examples.
Import JS Eff Pipeline Trace JSFacts Probe Once.

Local Existing Instance Sample.platform.

(** C1. In the two-network listener nothing remembers the addresses: when
    the same address is deployed in two blocks delivered on one network,
    it is probed twice, given to two scorers and sent to the datastore
    twice; the four-network listener, on the same two blocks, does each of
    these once. *)
Theorem Listener_processes_an_address_twice :
  let W := Sample.world_of Sample.foo "{}" 0 in
  let old := (Listener.run W Sample.twice 0%nat).2 in
  let new := (MultiChain.run W Sample.twice MultiChain.startup).2 in
  (probes "ethereum" "0xAAA" old = 2%nat /\
   scored "ethereum" "0xAAA" old = 2%nat /\
   saves "ethereum" "0xAAA" old = 2%nat) /\
  (probes "ethereum" "0xAAA" new = 1%nat /\
   scored "ethereum" "0xAAA" new = 1%nat /\
   saves "ethereum" "0xAAA" new = 1%nat).
Proof. by vm_compute. Qed.

(** C5. In the four-network listener a scorer that prints [[null]] and
    exits with status 1 gets the record lost: reading [risk_category] of
    the [null] assessment throws inside the [try] around the save, the
    exception is logged, and the datastore is never called.  The
    two-network listener sends the bare record on the same output. *)
Theorem null_verdict_blocks_the_save :
  let x := Sample.scorer "[null]" 1 in
  let new := (MultiChain.on_close (S:=unit) Sample.facts x (fun _ => DbOk) tt).1.2 in
  let old := (Listener.on_close (S:=unit) Sample.facts x (fun _ => DbOk) tt).1.2 in
  new = [ ConsoleLog (RiskAssessment (VArray [VNull]));
          ConsoleError (SupabaseInsertException
            (TypeError "Cannot read properties of null or undefined: risk_category")) ] /\
  sent new = [] /\
  Supabase.calls new = [] /\
  Supabase.calls old = [Insert "erc20_tokens"
                          [JS.set "tag_1" VNull
                            (JS.set "risk_details" VUndefined
                            (JS.set "risk_indicators" VUndefined
                            (JS.set "is_suspicious" VUndefined
                            (JS.set "risk_score" VUndefined Sample.facts))))]].
Proof. by vm_compute. Qed.

(** C6. In the four-network listener the builder of lines 161-181 throws
    on an assessment whose [fraud_type] is an object with a [toString]
    property of its own: the merge of lines 166-178 returns the record,
    with the field as it is and "unknown" for the missing category, but
    the log line of line 180 cannot print the field; the exception is
    caught around the save, and the datastore is never called.  The
    builder of the two-network listener returns its record on the same
    output, and the record is sent. *)
Theorem unprintable_field_blocks_the_save :
  let x := Sample.scorer Sample.unprintable 0 in
  let fraud_type := VObject [("toString", VNull)] in
  let assessment := VObject [("fraud_type", fraud_type)] in
  let error := TypeError "Cannot convert object to primitive value" in
  let new := (MultiChain.on_close (S:=unit) Sample.facts x (fun _ => DbOk) tt).1.2 in
  let old := (Listener.on_close (S:=unit) Sample.facts x (fun _ => DbOk) tt).1.2 in
  JSON_parse (riskResult x) = Some (VArray [assessment]) /\
  (exists row,
     MultiChain.with_assessment Sample.facts assessment = Return row /\
     own "fraud_type" row = Some fraud_type /\
     own "risk_category" row = Some (VString "unknown")) /\
  MultiChain.insertData (S:=unit) Sample.facts (VArray [assessment]) tt
    = (tt, [], Throw error) /\
  new = [ ConsoleLog (RiskAssessment (VArray [assessment]));
          ConsoleError (SupabaseInsertException error) ] /\
  sent new = [] /\
  Supabase.calls new = [] /\
  Supabase.calls old = [Insert "erc20_tokens"
                          [JS.set "tag_1" VNull
                            (JS.set "risk_details" VUndefined
                            (JS.set "risk_indicators" VUndefined
                            (JS.set "is_suspicious" VUndefined
                            (JS.set "risk_score" VUndefined Sample.facts))))]].
Proof.
  vm_compute. split; [done|]. split; [by eexists|]. done.
Qed.

(** C7. The two-network listener saves with a plain insert: when the same
    address is processed a second time with other risk fields, the
    datastore refuses the second record and the stored row keeps the
    values of the first one.  With the upsert of the four-network
    listener the same two records leave one row that holds the values of
    the second. *)
Theorem Listener_second_insert_is_refused :
  let trace := (Listener.run Sample.changing Sample.twice 0%nat).2 in
  let first := JS.set "tag_1" (VString "Phishing")
                 (JS.set "is_suspicious" (VBool true) Sample.facts) in
  let second := JS.set "tag_1" VNull Sample.facts in
  map Supabase.columns (sent trace) = [first; second] /\
  Supabase.calls trace = map (fun row => Insert "erc20_tokens" [row]) (sent trace) /\
  Supabase.replay (Supabase.calls trace) [] =
    ([first], [DbOk; DbError "duplicate key value violates unique constraint"]) /\
  Supabase.replay
    (map (fun row => Upsert "erc20_tokens" [row] "contract_address,blockchain")
         (sent trace)) [] =
    ([JS.set "tag_1" VNull (JS.set "is_suspicious" (VBool true) Sample.facts)],
     [DbOk; DbOk]).
Proof. by vm_compute. Qed.

(** C9. The two-network listener writes the bare object of the token to
    the standard input of the scorer, a text that opens with a brace; the
    four-network listener writes the array of that one object. *)
Theorem Listener_pipes_the_bare_object :
  let W := Sample.world_of Sample.foo "{}" 0 in
  let only := Sample.block_of [Sample.deployment] in
  let old := (Listener.deliver W "ethereum" only 0%nat).2 in
  let new := (MultiChain.deliver W "ethereum" only MultiChain.startup).2 in
  map (fun j => j.1.2) (jobs old) = [JSON_stringify (VObject Sample.facts)] /\
  (exists rest, JSON_stringify (VObject Sample.facts) = String "{" rest) /\
  map (fun j => j.1.2) (jobs new) = [JSON_stringify (VArray [VObject Sample.facts])] /\
  (exists rest, JSON_stringify (VArray [VObject Sample.facts]) = String "[" rest).
Proof.
  vm_compute. split; [done|]. split; [by eexists|]. split; [done|]. by eexists.
Qed.

(** A token Foo with 18 decimals deployed on ethereum while the scorer is
    unavailable (it prints nothing and exits with status 1): one record is
    saved, without risk fields. *)
Example token_saved_without_verdict :
  let W := Sample.world_of Sample.foo "" 1 in
  let trace := (MultiChain.deliver W "ethereum" (Sample.block_of [Sample.deployment])
                  MultiChain.startup).2 in
  sent trace = [Sample.facts] /\
  Supabase.replay (Supabase.calls trace) [] = ([Sample.facts], [DbOk]).
Proof. by vm_compute. Qed.

(** The scorer finds the token a high phishing risk: the record saved has
    these two fields and the details with their defaults. *)
Example token_saved_with_verdict :
  let W := Sample.world_of Sample.foo Sample.high_phishing 0 in
  let trace := (MultiChain.deliver W "ethereum" (Sample.block_of [Sample.deployment])
                  MultiChain.startup).2 in
  exists row, sent trace = [row] /\
    own "risk_category" row = Some (VString "high") /\
    own "fraud_type" row = Some (VString "phishing") /\
    own "blockchain" row = Some (VString "ethereum") /\
    own "decimals" row = Some (VNumber (Int 18)).
Proof. eexists. by vm_compute. Qed.

(** The condition the specification gives for a verdict fails on a scorer
    that prints an assessment and exits with status 1: the verdict is
    attached all the same. *)
Lemma exit_status_does_not_gate_the_verdict :
  let x := Sample.scorer "[{}]" 1 in
  let trace := (MultiChain.on_close (S:=unit) Sample.facts x (fun _ => DbOk) tt).1.2 in
  ~ (attaches trace <-> clean_exit_with_result x).
Proof.
  intros x trace [Hto _].
  assert (attaches trace) as Ha.
  { eexists. split; [by vm_compute|]. by vm_compute. }
  destruct (Hto Ha) as [Hcode _]. discriminate Hcode.
Qed.

End Examples.

(** ** The theorems at concrete inputs *)

Module Instances.
Import JS Eff Pipeline Trace JSFacts Probe Once.

Local Existing Instance Sample.platform.

(** A block with a transfer and a deployment: the transfer is skipped by
    both loops and the deployment is the one address probed. *)
Lemma candidates_at_a_transfer :
  let b := {| transactions := Some [Sample.transfer; Sample.deployment];
              timestamp := 1700000000 |} in
  let W := Sample.world_of Sample.foo "[{}]" 0 in
  deploys Sample.transfer = false /\
  candidates [Sample.transfer; Sample.deployment] = [Sample.deployment] /\
  MultiChain.processedContracts MultiChain.startup !! "ethereum" = Some ∅ /\
  NoDup (Observe.addresses [Sample.transfer; Sample.deployment]) /\
  (forall A, A ∈ Observe.addresses [Sample.transfer; Sample.deployment] ->
     A ∉ (∅ : gset string)) /\
  Listener.iteration W "ethereum" b Sample.transfer 0%nat = (0%nat, [], Return tt) /\
  MultiChain.iteration W "ethereum" b Sample.transfer MultiChain.startup
    = (MultiChain.startup, [], Return tt) /\
  probed (Listener.on_block W "ethereum" (Return (Some b)) 0%nat).1.2
    = [("ethereum", "0xAAA")] /\
  probed (MultiChain.on_block W "ethereum" (Return (Some b)) MultiChain.startup).1.2
    = [("ethereum", "0xAAA")].
Proof.
  intros b W.
  assert (MultiChain.processedContracts MultiChain.startup !! "ethereum" = Some ∅)
    as Hs by (by vm_compute).
  assert (NoDup (Observe.addresses [Sample.transfer; Sample.deployment])) as Hnd.
  { change (Observe.addresses [Sample.transfer; Sample.deployment]) with ["0xAAA"].
    apply NoDup_singleton. }
  assert (forall A, A ∈ Observe.addresses [Sample.transfer; Sample.deployment] ->
            A ∉ (∅ : gset string)) as Hfresh.
  { intros A _. apply not_elem_of_empty. }
  destruct (Detection.candidates_are_the_deployments W "ethereum" 1700000000
              [Sample.transfer; Sample.deployment])
    as (_ & _ & Hold & _ & Hskip & _ & Hall).
  destruct (Hskip Sample.transfer eq_refl) as [H1 H2].
  pose proof (Hall MultiChain.startup ∅ Hs Hnd Hfresh) as H4.
  split; [reflexivity|]. split; [reflexivity|]. split; [exact Hs|].
  split; [exact Hnd|]. split; [exact Hfresh|].
  split; [apply H1|]. split; [apply H2|].
  split; [exact (Hold 0%nat)|]. exact H4.
Defined.

(** A contract without [symbol()] deployed on a registered network. *)
Lemma failed_probe_at_no_symbol :
  let W := Sample.world_of Sample.no_symbol "[{}]" 0 in
  let only := Sample.block_of [Sample.deployment] in
  creates Sample.deployment = Some "0xAAA" /\
  "0xAAA" <> "" /\
  fails (contract W 0%nat "ethereum" "0xAAA") /\
  MultiChain.processedContracts MultiChain.startup !! "ethereum" = Some ∅ /\
  ("0xAAA" ∉ (∅ : gset string)) /\
  Listener.deliver W "ethereum" only 0%nat = (1%nat, [Verify "ethereum" "0xAAA"]) /\
  (MultiChain.deliver W "ethereum" only MultiChain.startup).2
    = [Verify "ethereum" "0xAAA"].
Proof.
  intros W only.
  assert (creates Sample.deployment = Some "0xAAA") as Hc by reflexivity.
  assert ("0xAAA" <> "") as Hne by discriminate.
  assert (fails (contract W 0%nat "ethereum" "0xAAA")) as Hf.
  { right. left. eexists. reflexivity. }
  assert (MultiChain.processedContracts MultiChain.startup !! "ethereum" = Some ∅)
    as Hs by (by vm_compute).
  assert ("0xAAA" ∉ (∅ : gset string)) as Hfresh by apply not_elem_of_empty.
  destruct (Classification.failed_probe_is_dropped W "ethereum" 1700000000
              [Sample.deployment] Sample.deployment "0xAAA" Hc Hne)
    as (_ & Hold & Hnew & _).
  destruct (Hold 0%nat Hf) as [_ Hd].
  destruct (Hnew MultiChain.startup ∅ Hs Hfresh Hf) as [_ Hd'].
  split; [exact Hc|]. split; [exact Hne|]. split; [exact Hf|].
  split; [exact Hs|]. split; [exact Hfresh|]. split; [exact Hd|].
  unfold only, Sample.block_of. by rewrite Hd'.
Defined.

(** A scorer that prints one empty assessment and exits with status 1, and
    one that prints nothing and exits with status 1. *)
Lemma verdict_at_an_error_exit :
  let x := Sample.scorer "[{}]" 1 in
  let y := Sample.scorer "" 1 in
  let db := fun _ : db_call => DbOk in
  let trace := (MultiChain.on_close (S:=unit) Sample.facts x db tt).1.2 in
  bare Sample.facts /\
  (forall v rest, JSON_parse (riskResult x) = Some (VArray (v :: rest)) ->
     v <> VNull /\ v <> VUndefined /\ Observe.logged v = true) /\
  (forall v rest, JSON_parse (riskResult y) = Some (VArray (v :: rest)) ->
     v <> VNull /\ v <> VUndefined /\ Observe.logged v = true) /\
  attaches trace /\
  code x = Some 1 /\
  nonblank (riskResult x) = true /\
  MultiChain.on_close (S:=unit) Sample.facts (Sample.scorer "[{}]" 0) db tt
    = MultiChain.on_close Sample.facts x db tt /\
  nonblank (riskResult y) = false /\
  (MultiChain.on_close (S:=unit) Sample.facts y db tt).1.2
    = [ ConsoleLog (SkippingRiskAssessment (Some 1));
        Supabase (Upsert "erc20_tokens" [Sample.facts] "contract_address,blockchain");
        ConsoleLog SavedToSupabase ].
Proof.
  intros x y db trace.
  assert (bare Sample.facts) as Hb by reflexivity.
  assert (forall v rest, JSON_parse (riskResult x) = Some (VArray (v :: rest)) ->
            v <> VNull /\ v <> VUndefined /\ Observe.logged v = true) as Hdef.
  { intros v rest Hp. vm_compute in Hp. injection Hp as <- <-. by repeat split. }
  assert (forall v rest, JSON_parse (riskResult y) = Some (VArray (v :: rest)) ->
            v <> VNull /\ v <> VUndefined /\ Observe.logged v = true) as Hdef'.
  { intros v rest Hp. vm_compute in Hp. discriminate Hp. }
  destruct (Verdict.verdict_attached_iff (S:=unit) Sample.facts x db tt Hb Hdef)
    as ([_ Hfrom] & _ & _ & Hsame & _).
  destruct (Verdict.verdict_attached_iff (S:=unit) Sample.facts y db tt Hb Hdef')
    as (_ & _ & _ & _ & Hskip).
  split; [exact Hb|]. split; [exact Hdef|]. split; [exact Hdef'|].
  split; [apply Hfrom; split; [reflexivity|]; by exists (VObject []), []|].
  split; [reflexivity|]. split; [reflexivity|].
  split; [exact (Hsame eq_refl (Some 0))|].
  split; [reflexivity|].
  exact (f_equal (fun r => r.1.2) (Hskip eq_refl (Some 1))).
Defined.

(** An assessment without any field. *)
Lemma builder_at_the_empty_assessment :
  own "risk_category" [] = None /\ own "fraud_type" [] = None /\
  own "phishing_indicators" [] = None /\ own "urls_found" [] = None /\
  own "money_amounts" [] = None /\ own "details" [] = None /\
  exists row,
    MultiChain.with_assessment Sample.facts (VObject []) = Return row /\
    own "risk_category" row = Some (VString "unknown") /\
    own "fraud_type" row = Some (VString "unknown") /\
    own "detection_details" row =
      Some (VString (JSON_stringify (VObject
        [ ("phishing_indicators", VArray []); ("urls_found", VArray []);
          ("money_amounts", VArray []); ("details", VObject []) ]))).
Proof.
  destruct (Verdict.record_builder_defaults (S:=unit) Sample.facts [] [] tt)
    as (row & Hrow & _ & _ & _ & _ & Hdd & _ & Hrc & Hft & _).
  do 6 (split; [reflexivity|]).
  exists row. split; [exact Hrow|]. split; [exact (Hrc eq_refl)|].
  split; [exact (Hft eq_refl)|]. exact Hdd.
Defined.

(** [decimals()] answering the BigInt 18. *)
Lemma decimals_at_a_bigint :
  let b := {| transactions := Some [Sample.deployment]; timestamp := 1700000000 |} in
  (BigInt 18 = BigInt 18 \/ BigInt 18 = Num (Int 18)) /\
  representable 18 /\
  toISOString (timestamp b * 1000) = Some "2023-11-14T22:13:20.000Z" /\
  safeDecimals (BigInt 18) = Int 18 /\
  exists td,
    tokenData "ethereum" "0xAAA" Sample.deployment b Sample.foo_bigint = Return td /\
    own "decimals" td = Some (VNumber (Int 18)).
Proof.
  intros b.
  assert (BigInt 18 = BigInt 18 \/ BigInt 18 = Num (Int 18)) as Hd by (by left).
  assert (representable 18) as Hz by (apply representable_small; by vm_compute).
  assert (toISOString (timestamp b * 1000) = Some "2023-11-14T22:13:20.000Z")
    as Hiso by reflexivity.
  destruct (Classification.decimals_is_a_native_integer
              (Sample.world_of Sample.foo_bigint "[{}]" 0)
              "ethereum" b Sample.deployment "0xAAA" "Foo" "FOO" (BigInt 18) 18
              "2023-11-14T22:13:20.000Z" Hd Hz Hiso) as (Hsafe & Htd & _).
  split; [exact Hd|]. split; [exact Hz|]. split; [exact Hiso|]. split; [exact Hsafe|].
  exact (Htd Sample.foo_bigint eq_refl eq_refl eq_refl).
Defined.

(** An address whose first probe is rejected and which is deployed again
    in two later blocks, where the probe would succeed. *)
Lemma marked_at_a_flaky_probe :
  let b := {| transactions := Some [Sample.deployment]; timestamp := 1700000000 |} in
  let st1 := (MultiChain.iteration Sample.flaky "ethereum" b Sample.deployment
                MultiChain.startup).1.1 in
  let later := (MultiChain.run Sample.flaky Sample.twice st1).2 in
  creates Sample.deployment = Some "0xAAA" /\
  "0xAAA" <> "" /\
  MultiChain.processedContracts MultiChain.startup !! "ethereum" = Some ∅ /\
  ("0xAAA" ∉ (∅ : gset string)) /\
  fails (contract Sample.flaky 0%nat "ethereum" "0xAAA") /\
  processed "ethereum" "0xAAA" st1 /\
  probes "ethereum" "0xAAA" later = 0%nat /\
  saves "ethereum" "0xAAA" later = 0%nat.
Proof.
  intros b st1 later.
  assert (creates Sample.deployment = Some "0xAAA") as Hc by reflexivity.
  assert ("0xAAA" <> "") as Hne by discriminate.
  assert (MultiChain.processedContracts MultiChain.startup !! "ethereum" = Some ∅)
    as Hs by (by vm_compute).
  assert ("0xAAA" ∉ (∅ : gset string)) as Hfresh by apply not_elem_of_empty.
  assert (fails (contract Sample.flaky 0%nat "ethereum" "0xAAA")) as Hf.
  { right. left. eexists. reflexivity. }
  destruct (Lifetime.marked_before_verified Sample.flaky "ethereum" b
              Sample.deployment "0xAAA" MultiChain.startup ∅ Hc Hne Hs Hfresh)
    as (_ & _ & _ & Hp & _ & Hlater).
  destruct (Hlater Sample.flaky Sample.twice) as (H0 & _ & H2).
  split; [exact Hc|]. split; [exact Hne|]. split; [exact Hs|].
  split; [exact Hfresh|]. split; [exact Hf|].
  split; [exact Hp|]. split; [exact H0|exact H2].
Defined.

End Instances.

(** ** Start-up validation and shutdown *)

Module Startup.
Import JS Eff Lifecycle.

Lemma reports_app a b : reports (a ++ b) = reports a ++ reports b.
Proof.
  induction a as [|e a IH]; [done|].
  destruct e as [| [] | [] | |]; simpl; by rewrite ?IH.
Qed.

Lemma printed_keys_app a b : printed_keys (a ++ b) = printed_keys a ++ printed_keys b.
Proof.
  induction a as [|e a IH]; [done|].
  destruct e as [| [| | | | |[]| | |] | | |]; simpl; by rewrite ?IH.
Qed.

Lemma substr_length n s : (String.length (substr 0 n s) <= n)%nat.
Proof.
  unfold substr. revert s. induction n as [|n IH]; intros [|a s]; simpl; try lia.
  specialize (IH s). lia.
Qed.

Lemma substr_prefix n s : String.prefix (substr 0 n s) s = true.
Proof.
  unfold substr. revert s. induction n as [|n IH]; intros [|a s]; simpl; try done.
  destruct (ascii_dec a a); [apply IH|done].
Qed.

Lemma substr_short n s : (String.length s <= n)%nat -> substr 0 n s = s.
Proof.
  unfold substr. revert s. induction n as [|n IH]; intros [|a s]; simpl; try done; try lia.
  intros Hl. f_equal. apply IH. lia.
Qed.

(** The validation of one network never throws: it prints the five lines
    of the network when both requests are answered, and one error line
    otherwise; the block number is not asked for when the network is not
    told. *)
Lemma validate_cases i s :
  exists ev, validate i s = (s, ev, Return tt) /\
    reports ev = [(name i, healthy i)] /\
    printed_keys ev = (if healthy i
                       then match apiKey (sdk i) with
                            | Some key => [substr 0 10 key]
                            | None => []
                            end
                       else []) /\
    (forall e, getNetwork (sdk i) = Throw e ->
       ev = [Ask (name i) GetNetwork; Error (FailedToValidate (name i) (message e))]).
Proof.
  unfold validate, healthy, try_catch, mbind, emit, lift, ret.
  destruct (getNetwork (sdk i)) as [nw|e]; simpl.
  - destruct (getBlockNumber (sdk i)) as [n|e]; simpl.
    + eexists. split; [done|]. split; [done|]. split; [|done].
      by destruct (apiKey (sdk i)).
    + eexists. split; [done|]. split; [done|]. split; done.
  - eexists. split; [done|]. split; [done|]. split; [done|]. by intros e' [= ->].
Qed.

Lemma validate_loop l s :
  for_of l validate s = (s, flat_map (fun i => (validate i tt).1.2) l, Return tt).
Proof.
  destruct s. induction l as [|i l IH]; [done|].
  simpl. unfold mbind. destruct (validate_cases i tt) as (ev & -> & _).
  by rewrite IH.
Qed.

Lemma validation_trace l :
  validateNetworkConfigs l tt
  = (tt, Log ValidatingHeader :: flat_map (fun i => (validate i tt).1.2) l
         ++ [Log ValidationComplete], Return tt).
Proof. unfold validateNetworkConfigs, mbind, emit. by rewrite validate_loop. Qed.

(** X1. When what the SDK rejects with is an [Error], the start-up
    validation ends normally and reports every configured network exactly
    once, in the order of the configuration, as validated or as failed;
    what it prints for a network depends on that network alone, so a
    network that fails changes nothing for the others. *)
Theorem validation_reports_every_network l :
  let trace := Log ValidatingHeader
               :: flat_map (fun i => (validate i tt).1.2) l
               ++ [Log ValidationComplete] in
  validateNetworkConfigs l tt = (tt, trace, Return tt) /\
  reports trace = map (fun i => (name i, healthy i)) l.
Proof.
  intros trace. split.
  - apply validation_trace.
  - unfold trace. simpl. rewrite reports_app. simpl. rewrite app_nil_r.
    induction l as [|i l IH]; [done|].
    simpl. rewrite reports_app, IH.
    destruct (validate_cases i tt) as (ev & -> & Hr & _). simpl. by rewrite Hr.
Qed.

(** X2. The line 'API Key (first 10 chars)' of the validation shows a
    prefix, at most ten characters long, of the key of a configured
    network that answered both requests, and so never a key of more than
    ten characters whole.  (The line of a failed validation prints the
    message of the error as it is; nothing is said of what that holds.) *)
Theorem key_line_shows_at_most_ten_characters l p :
  In p (printed_keys (validateNetworkConfigs l tt).1.2) ->
  (String.length p <= 10)%nat /\
  exists i key, In i l /\ healthy i = true /\ apiKey (sdk i) = Some key /\
    String.prefix p key = true /\
    ((10 < String.length key)%nat -> p <> key).
Proof.
  rewrite validation_trace.
  simpl. rewrite printed_keys_app. simpl. rewrite app_nil_r.
  induction l as [|i l IH]; [done|].
  simpl. rewrite printed_keys_app.
  destruct (validate_cases i tt) as (ev & -> & _ & Hk & _). simpl. rewrite Hk.
  intros [Hin|Hin]%in_app_or.
  - destruct (healthy i) eqn:Hh; [|done].
    destruct (apiKey (sdk i)) as [key|] eqn:Hkey; [|done].
    destruct Hin as [<-|[]]. split; [apply substr_length|].
    exists i, key. split; [by left|]. split; [done|]. split; [done|].
    split; [apply substr_prefix|].
    intros Hlong Heq. pose proof (substr_length 10 key) as Hl.
    rewrite Heq in Hl. lia.
  - destruct (IH Hin) as (Hl & j & key & Hj & Hrest).
    split; [done|]. exists j, key. split; [by right|done].
Qed.

Lemma closed_app a b : closed (a ++ b) = closed a ++ closed b.
Proof.
  induction a as [|e a IH]; [done|].
  destruct e; simpl; by rewrite ?IH.
Qed.

Lemma close_socket_returns i s :
  closes i ->
  close_socket i s = (s, if closable i then [Close (name i)] else [], Return tt).
Proof.
  unfold closes, close_socket, closable. intros Hc. destruct s.
  destruct (ws (sdk i)) as [w|]; [|done].
  destruct (close w) as [[[]|e]|] eqn:Hw; [done| |done].
  by destruct (Hc w e).
Qed.

Lemma close_loop l s :
  (forall i, In i l -> closes i) ->
  for_of l close_socket s
  = (s, map Close (map name (List.filter closable l)), Return tt).
Proof.
  destruct s. induction l as [|i l IH]; intros Hc; [done|].
  simpl. unfold mbind. rewrite (close_socket_returns i tt) by (apply Hc; by left).
  rewrite IH by (intros j Hj; apply Hc; by right).
  by destruct (closable i).
Qed.

(** X3. When no [close] throws, the SIGINT handler closes the socket of
    every instance that has a [close] function, once each and in the order
    of the configuration, skips the others, and then exits. *)
Theorem shutdown_closes_every_socket l :
  (forall i, In i l -> closes i) ->
  shutdown l tt
  = (tt, Log ShuttingDown :: map Close (map name (List.filter closable l)) ++ [Exit],
     Return tt).
Proof.
  intros Hc. unfold shutdown, mbind, emit. by rewrite (close_loop l tt Hc).
Qed.

(** X4. The SIGINT handler has no [try]: when the [close] of one socket
    throws, the exception leaves the handler, the sockets configured after
    it are never closed and [process.exit] is not reached. *)
Theorem shutdown_stops_at_a_failing_close before i after w e :
  (forall j, In j before -> closes j) ->
  ws (sdk i) = Some w -> close w = Some (Throw e) ->
  shutdown (before ++ i :: after) tt
  = (tt, Log ShuttingDown :: map Close (map name (List.filter closable before))
         ++ [Close (name i)],
     Throw e).
Proof.
  intros Hc Hw He. unfold shutdown, mbind, emit. simpl.
  assert (for_of (before ++ i :: after) close_socket tt
          = (tt, map Close (map name (List.filter closable before)) ++ [Close (name i)],
             Throw e)) as ->; [|done].
  induction before as [|j before IH].
  - simpl. unfold mbind, close_socket. rewrite Hw, He. done.
  - simpl. unfold mbind.
    rewrite (close_socket_returns j tt) by (apply Hc; by left).
    rewrite IH by (intros k Hk; apply Hc; by right).
    by destruct (closable j).
Qed.

End Startup.

(** ** The sets of processed addresses *)

Module Registry.
Import JS Eff Pipeline Trace Observe JSFacts Probe Detection Once Dedup.

(** X5. The registration of lines 76-79, for network names that are not
    properties every object inherits, registers exactly the networks it is
    given, each with an empty set, and never resets a network that is
    registered already: its set is kept.  At start-up the four configured
    networks, and no other, have an empty set. *)
Theorem registration_keeps_what_is_registered names pc N :
  ((forall n, n ∈ names -> inherited n = false) ->
   foldl MultiChain.register pc names !! N
   = match pc !! N with
     | Some seen => Some seen
     | None => if bool_decide (N ∈ names) then Some ∅ else None
     end)
  /\ MultiChain.processedContracts MultiChain.startup !! N
     = if bool_decide (N ∈ MultiChain.NETWORKS) then Some ∅ else None.
Proof.
  assert (forall names pc,
    foldl MultiChain.register pc names !! N
    = match pc !! N with
      | Some seen => Some seen
      | None => if bool_decide (N ∈ names) then Some ∅ else None
      end) as Hgen.
  { clear. induction names as [|n names IH]; intros pc; simpl.
    - by destruct (pc !! N).
    - rewrite IH. unfold MultiChain.register.
      destruct (decide (n = N)) as [->|Hne].
      + destruct (pc !! N) as [seen|] eqn:E; [by rewrite E|].
        rewrite lookup_insert_eq. rewrite bool_decide_eq_true_2; [done|]. by left.
      + assert (bool_decide (N ∈ names) = bool_decide (N ∈ n :: names)) as Hb.
        { apply bool_decide_ext. split; [by right|].
          intros [->|Hin]%elem_of_cons; done. }
        destruct (pc !! n) eqn:En.
        * destruct (pc !! N); [done|]. by rewrite Hb.
        * rewrite lookup_insert_ne by done. destruct (pc !! N); [done|].
          by rewrite Hb. }
  split; [intros _; apply Hgen|].
  unfold MultiChain.startup. cbn [MultiChain.processedContracts].
  rewrite Hgen. by rewrite lookup_empty.
Qed.

Lemma grows_refl pc : grows pc pc.
Proof. intros N. destruct (pc !! N) as [seen|] eqn:E; [|done]. by exists seen. Qed.

Lemma grows_trans pc pc1 pc2 : grows pc pc1 -> grows pc1 pc2 -> grows pc pc2.
Proof.
  intros H1 H2 N. specialize (H1 N). specialize (H2 N).
  destruct (pc !! N) as [seen|].
  - destruct H1 as (seen1 & E1 & Hs1). rewrite E1 in H2.
    destruct H2 as (seen2 & E2 & Hs2). exists seen2. split; [done|]. set_solver.
  - by rewrite H1 in H2.
Qed.

Lemma grows_add pc c a seen : pc !! c = Some seen -> grows pc (<[c := {[a]} ∪ seen]> pc).
Proof.
  intros Hc N. destruct (decide (c = N)) as [->|Hne].
  - rewrite Hc, lookup_insert_eq. eexists. split; [done|]. set_solver.
  - rewrite lookup_insert_ne by done. apply grows_refl.
Qed.

Lemma apart_refl c pc : apart c pc pc.
Proof. by intros N _. Qed.

Lemma apart_trans c pc pc1 pc2 : apart c pc pc1 -> apart c pc1 pc2 -> apart c pc pc2.
Proof. intros H1 H2 N Hne. by rewrite H2, H1. Qed.

Lemma apart_add pc c a seen : apart c pc (<[c := {[a]} ∪ seen]> pc).
Proof. intros N Hne. by rewrite lookup_insert_ne. Qed.

Section Keeps.
Context (R : gmap string (gset string) -> gmap string (gset string) -> Prop).
Context (R_refl : forall pc, R pc pc).
Context (R_trans : forall pc pc1 pc2, R pc pc1 -> R pc1 pc2 -> R pc pc2).

Lemma keeps_same {X} (m : M MultiChain.state event X) :
  (forall st, (m st).1.1 = st) -> keeps R m.
Proof. intros Hm st. by rewrite Hm. Qed.

Lemma keeps_bind {X Y} (m : M MultiChain.state event X)
    (k : X -> M MultiChain.state event Y) :
  keeps R m -> (forall x, keeps R (k x)) -> keeps R (mbind m k).
Proof.
  intros Hm Hk st. unfold mbind. specialize (Hm st).
  destruct (m st) as [[s1 ev1] [x|e]]; [|done].
  specialize (Hk x s1). destruct (k x s1) as [[s2 ev2] r]. simpl in *.
  by apply (R_trans _ _ _ Hm).
Qed.

Lemma keeps_try_catch {X} (m : M MultiChain.state event X)
    (h : exn -> M MultiChain.state event X) :
  keeps R m -> (forall e, keeps R (h e)) -> keeps R (try_catch m h).
Proof.
  intros Hm Hh st. unfold try_catch. specialize (Hm st).
  destruct (m st) as [[s1 ev1] [x|e]]; [done|].
  specialize (Hh e s1). destruct (h e s1) as [[s2 ev2] r]. simpl in *.
  by apply (R_trans _ _ _ Hm).
Qed.

Lemma keeps_for_of {X} (xs : list X) (body : X -> M MultiChain.state event unit) :
  (forall x, keeps R (body x)) -> keeps R (for_of xs body).
Proof.
  intros Hb. induction xs as [|x xs IH]; simpl.
  - by apply keeps_same.
  - apply keeps_bind; [apply Hb|]. intros _. apply IH.
Qed.

(** A block handler keeps [R] when its turns do. *)
Lemma keeps_on_block `{Platform} W c f :
  (forall b t, keeps R (MultiChain.iteration W c b t)) ->
  keeps R (MultiChain.on_block W c f).
Proof.
  intros Hi. unfold MultiChain.on_block. apply keeps_try_catch.
  - apply keeps_bind; [by apply keeps_same|].
    intros [b|]; [|by apply keeps_same].
    destruct (transactions b) as [txs|]; [|by apply keeps_same].
    apply keeps_for_of. intros t. apply Hi.
  - intros e. by apply keeps_same.
Qed.

End Keeps.

Section Platform.
Context `{Platform} (W : world).

Lemma iteration_grows c b t : keeps grows (MultiChain.iteration W c b t).
Proof.
  intros st.
  destruct (MultiChain_iteration_cases W c b t st)
    as [[r ->]|(seen & ev & Hs & _ & -> & _)]; simpl.
  - apply grows_refl.
  - by apply grows_add.
Qed.

Lemma iteration_apart c b t : keeps (apart c) (MultiChain.iteration W c b t).
Proof.
  intros st.
  destruct (MultiChain_iteration_cases W c b t st)
    as [[r ->]|(seen & ev & Hs & _ & -> & _)]; simpl.
  - apply apart_refl.
  - apply apart_add.
Qed.

Lemma deliver_state c f st :
  (MultiChain.deliver W c f st).1 = (MultiChain.on_block W c f st).1.1.
Proof.
  unfold MultiChain.deliver. by destruct (MultiChain.on_block W c f st) as [[st1 tr] r].
Qed.

Lemma run_grows ds st :
  grows (MultiChain.processedContracts st)
        (MultiChain.processedContracts (MultiChain.run W ds st).1).
Proof.
  revert st. induction ds as [|[c f] ds IH]; intros st; [apply grows_refl|].
  simpl. pose proof (deliver_state c f st) as Hd.
  destruct (MultiChain.deliver W c f st) as [st1 tr1]. simpl in Hd. subst st1.
  specialize (IH (MultiChain.on_block W c f st).1.1).
  destruct (MultiChain.run W ds _) as [st2 tr2]. simpl in *.
  eapply grows_trans; [|exact IH].
  apply (keeps_on_block grows grows_refl grows_trans W c f), iteration_grows.
Qed.

(** X6. Over any run of the four-network listener the sets of processed
    addresses only grow: a network that is registered stays registered and
    keeps every address it has, and a network that is not registered is
    never registered by a handler. *)
Theorem processed_sets_only_grow ds st N :
  let st1 := (MultiChain.run W ds st).1 in
  (forall seen, MultiChain.processedContracts st !! N = Some seen ->
     exists seen1, MultiChain.processedContracts st1 !! N = Some seen1 /\ seen ⊆ seen1) /\
  (MultiChain.processedContracts st !! N = None ->
     MultiChain.processedContracts st1 !! N = None).
Proof.
  intros st1. pose proof (run_grows ds st N) as Hg. fold st1 in Hg.
  split.
  - intros seen Hs. by rewrite Hs in Hg.
  - intros Hs. by rewrite Hs in Hg.
Qed.

End Platform.
End Registry.

(** ** What a block does to the state and to the trace *)

Module Blocks.
Import JS Eff Pipeline Trace Observe JSFacts Probe Detection Once Dedup Runs Registry.

Lemma block_errors_app a b : block_errors (a ++ b) = (block_errors a + block_errors b)%nat.
Proof.
  induction a as [|e a IH]; [done|].
  destruct e as [| |[]| |]; simpl; rewrite ?IH; lia.
Qed.

Lemma addresses_cons t txs :
  addresses (t :: txs) = if deploys t then address t :: addresses txs else addresses txs.
Proof. unfold addresses, candidates. simpl. by destruct (deploys t). Qed.

Lemma emits_ret {S X} P (x : X) : emits (S:=S) P (ret x).
Proof. intros s. constructor. Qed.

Lemma emits_lift {S X} P (c : completion X) : emits (S:=S) P (lift c).
Proof. intros s. constructor. Qed.

Lemma emits_throw {S X} P e : emits (S:=S) (X:=X) P (throw e).
Proof. intros s. constructor. Qed.

Lemma emits_emit {S} (P : event -> Prop) e : P e -> emits (S:=S) P (emit e).
Proof. intros He s. by constructor. Qed.

Lemma emits_bind {S X Y} P (m : M S event X) (k : X -> M S event Y) :
  emits P m -> (forall x, emits P (k x)) -> emits P (mbind m k).
Proof.
  intros Hm Hk s. unfold mbind. specialize (Hm s).
  destruct (m s) as [[s1 ev1] [x|e]]; [|done].
  specialize (Hk x s1). destruct (k x s1) as [[s2 ev2] r].
  simpl in *. by apply Forall_app.
Qed.

Lemma emits_try_catch {S X} P (m : M S event X) (h : exn -> M S event X) :
  emits P m -> (forall e, emits P (h e)) -> emits P (try_catch m h).
Proof.
  intros Hm Hh s. unfold try_catch. specialize (Hm s).
  destruct (m s) as [[s1 ev1] [x|e]]; [done|].
  specialize (Hh e s1). destruct (h e s1) as [[s2 ev2] r].
  simpl in *. by apply Forall_app.
Qed.

Lemma emits_when {S} P c (m : M S event unit) : emits P m -> emits P (when c m).
Proof. intros Hm. destruct c; [done|apply emits_ret]. Qed.

Lemma emits_send {S} c resp : emits (S:=S) closing (send c resp).
Proof.
  unfold send. apply emits_bind; [by apply emits_emit|]. intros _.
  destruct resp; [apply emits_ret|apply emits_ret|apply emits_throw].
Qed.

Lemma emits_report {S} error : emits (S:=S) closing (report error).
Proof. destruct error; by apply emits_emit. Qed.

Lemma add_seen (a : string) (seen : gset string) : a ∈ seen -> {[a]} ∪ seen = seen.
Proof. intros Ha. apply subseteq_union_1_L. by apply singleton_subseteq_l. Qed.

Lemma add_nothing (seen : gset string) : ∅ ∪ seen = seen.
Proof. apply union_empty_l_L. Qed.

Lemma add_first (a : string) (l : list string) (seen : gset string) :
  list_to_set l ∪ ({[a]} ∪ seen) = list_to_set (a :: l) ∪ seen.
Proof. simpl. rewrite (assoc_L (∪)). f_equal. apply (comm_L (∪)). Qed.

Lemma add_none (l : list string) (seen : gset string) :
  list_to_set l ∪ (∅ ∪ seen) = list_to_set l ∪ seen.
Proof. by rewrite union_empty_l_L. Qed.

(** The new addresses of a list whose head is in the set already, whose
    head is new, and the same without the head. *)
Lemma new_after_seen (c a : string) (l : list string) (seen : gset string)
    (x : string * string) :
  a ∈ seen ->
  (exists A, x = (c, A) /\ A ∈ l /\ A ∉ {[a]} ∪ seen)
  <-> (exists A, x = (c, A) /\ A ∈ a :: l /\ A ∉ seen).
Proof.
  intros Ha. split; intros (A & -> & HA & Hn); exists A.
  - rewrite not_elem_of_union in Hn. destruct Hn as [_ Hn].
    split; [done|]. split; [by right|done].
  - split; [done|]. apply elem_of_cons in HA as [->|HA]; [done|].
    split; [done|]. rewrite not_elem_of_union, not_elem_of_singleton.
    split; [|done]. by intros ->.
Qed.

Lemma new_after_new (c a : string) (l : list string) (seen : gset string)
    (x : string * string) :
  a ∉ seen ->
  (x = (c, a) \/ exists A, x = (c, A) /\ A ∈ l /\ A ∉ {[a]} ∪ seen)
  <-> (exists A, x = (c, A) /\ A ∈ a :: l /\ A ∉ seen).
Proof.
  intros Ha. split.
  - intros [->|(A & -> & HA & Hn)].
    + exists a. split; [done|]. split; [by left|done].
    + exists A. rewrite not_elem_of_union in Hn. destruct Hn as [_ Hn].
      split; [done|]. split; [by right|done].
  - intros (A & -> & HA & Hn).
    destruct (decide (A = a)) as [->|Hne]; [by left|].
    right. exists A. split; [done|].
    apply elem_of_cons in HA as [->|HA]; [done|]. split; [done|].
    rewrite not_elem_of_union, not_elem_of_singleton. done.
Qed.

Lemma new_after_none (c : string) (l : list string) (seen : gset string)
    (x : string * string) :
  (exists A, x = (c, A) /\ A ∈ l /\ A ∉ ∅ ∪ seen)
  <-> (exists A, x = (c, A) /\ A ∈ l /\ A ∉ seen).
Proof. by rewrite union_empty_l_L. Qed.

Lemma not_new_twice (c a : string) (l : list string) (seen : gset string) :
  ~ (exists A, (c, a) = (c, A) /\ A ∈ l /\ A ∉ {[a]} ∪ seen).
Proof.
  intros (A & [= <-] & _ & Hn). apply Hn, elem_of_union. left.
  by apply elem_of_singleton.
Qed.

Lemma closing_no_block_error ev : Forall closing ev -> block_errors ev = 0%nat.
Proof.
  induction 1 as [|e ev He _ IH]; [done|].
  destruct e as [| |[]| |]; simpl in *; done.
Qed.

Section Platform.
Context `{Platform} (W : world).

Lemma MultiChain_on_close_closing {S} td x db :
  emits (S:=S) closing (MultiChain.on_close td x db).
Proof.
  unfold MultiChain.on_close.
  apply emits_bind; [by apply emits_when, emits_emit|]. intros _.
  apply emits_bind.
  { unfold MultiChain.riskAssessment. apply emits_try_catch.
    - destruct (nonblank _).
      + apply emits_bind; [apply emits_lift|]. intros v.
        apply emits_bind; [by apply emits_emit|]. intros _. apply emits_ret.
      + destruct (negb _); [|apply emits_ret].
        apply emits_bind; [by apply emits_emit|]. intros _. apply emits_ret.
    - intros e. apply emits_bind; [by apply emits_emit|]. intros _. apply emits_ret. }
  intros ra. apply emits_try_catch; [|intros e; by apply emits_emit].
  apply emits_bind.
  { unfold MultiChain.insertData. destruct (MultiChain.available ra); [|apply emits_ret].
    apply emits_bind; [apply emits_lift|]. intros row.
    apply emits_bind; [apply emits_lift|]. intros ft.
    apply emits_bind; [apply emits_lift|]. intros rc.
    apply emits_bind; [by apply emits_emit|]. intros _. apply emits_ret. }
  intros row. apply emits_bind; [apply emits_send|]. intros error. apply emits_report.
Qed.

Lemma Listener_on_close_closing {S} td x db :
  emits (S:=S) closing (Listener.on_close td x db).
Proof.
  unfold Listener.on_close.
  apply emits_bind; [by apply emits_when, emits_emit|]. intros _.
  apply emits_bind.
  { apply emits_try_catch.
    - apply emits_bind; [apply emits_lift|]. intros v.
      apply emits_bind; [by apply emits_emit|]. intros _. apply emits_ret.
    - intros e. apply emits_bind; [by apply emits_emit|]. intros _. apply emits_ret. }
  intros ra. apply emits_try_catch; [|intros e; by apply emits_emit].
  apply emits_bind.
  { destruct (truthy ra); [apply emits_lift|apply emits_ret]. }
  intros row. apply emits_bind; [apply emits_send|]. intros error. apply emits_report.
Qed.

Lemma MultiChain_closes_closing js : Forall closing (flat_map (MultiChain.close W) js).
Proof.
  induction js as [|[[job stdin] td] js IH]; [constructor|].
  simpl. apply Forall_app. split; [|done]. apply MultiChain_on_close_closing.
Qed.

Lemma Listener_closes_closing js : Forall closing (flat_map (Listener.close W) js).
Proof.
  induction js as [|[[job stdin] td] js IH]; [constructor|].
  simpl. apply Forall_app. split; [|done]. apply Listener_on_close_closing.
Qed.

(** A turn of the loop on a registered network: it ends normally, adds the
    address of a candidate to the set of the network, and probes the
    address when it was not in the set. *)
Lemma iteration_registered c b t st seen :
  MultiChain.processedContracts st !! c = Some seen ->
  exists st1 ev,
    MultiChain.iteration W c b t st = (st1, ev, Return tt) /\
    MultiChain.processedContracts st1 !! c
      = Some ((if deploys t then {[address t]} else ∅) ∪ seen) /\
    block_errors ev = 0%nat /\
    probed ev = if deploys t && negb (bool_decide (address t ∈ seen))
                then [(c, address t)] else [].
Proof.
  intros Hs. unfold MultiChain.iteration. destruct (deploys t); simpl.
  - unfold mbind. rewrite (shouldProcess_spec c (address t) st seen Hs).
    destruct (bool_decide (address t ∈ seen)) eqn:Hin.
    + apply bool_decide_eq_true in Hin. do 2 eexists. split; [done|].
      rewrite Hs. split; [|done]. f_equal. symmetry. by apply add_seen.
    + rewrite MultiChain_verify. cbv zeta.
      cbn [MultiChain.tick MultiChain.processedContracts].
      destruct (tokenData c (address t) t b _); do 2 eexists;
        (split; [done|]); simpl; rewrite lookup_insert_eq; done.
  - do 2 eexists. split; [done|]. rewrite Hs. split; [|done]. f_equal.
    symmetry. apply add_nothing.
Qed.

Lemma loop_registered c b txs st seen :
  MultiChain.processedContracts st !! c = Some seen ->
  exists st1 ev,
    for_of txs (MultiChain.iteration W c b) st = (st1, ev, Return tt) /\
    MultiChain.processedContracts st1 !! c
      = Some (list_to_set (addresses txs) ∪ seen) /\
    block_errors ev = 0%nat /\
    NoDup (probed ev) /\
    (forall x, x ∈ probed ev <->
       exists A, x = (c, A) /\ A ∈ addresses txs /\ A ∉ seen).
Proof.
  revert st seen. induction txs as [|t txs IH]; intros st seen Hs.
  - do 2 eexists. split; [done|]. simpl. rewrite Hs.
    split; [f_equal; symmetry; apply add_nothing|]. split; [done|].
    split; [constructor|].
    intros x. split; [by intros ?%elem_of_nil|]. intros (A & _ & HA & _).
    by apply elem_of_nil in HA.
  - cbn [for_of]. unfold mbind.
    destruct (iteration_registered c b t st seen Hs) as (s1 & ev1 & -> & Hs1 & He1 & Hp1).
    destruct (IH s1 _ Hs1) as (s2 & ev2 & -> & Hs2 & He2 & Hnd & Hp2).
    do 2 eexists. split; [done|].
    rewrite Hs2, block_errors_app, He1, He2, probed_app, Hp1, addresses_cons.
    destruct (deploys t); simpl.
    + split; [f_equal; apply add_first|]. split; [done|].
      destruct (bool_decide (address t ∈ seen)) eqn:Hin; simpl.
      * apply bool_decide_eq_true in Hin. split; [done|].
        intros x. rewrite Hp2. by apply new_after_seen.
      * apply bool_decide_eq_false in Hin. split.
        -- constructor; [|done]. rewrite Hp2. apply not_new_twice.
        -- intros x. rewrite elem_of_cons, Hp2. by apply new_after_new.
    + split; [f_equal; apply add_none|]. split; [done|]. split; [done|].
      intros x. rewrite Hp2. apply new_after_none.
Qed.

(** X7. A block delivered on a registered network: the handler ends
    without an error line, the set of the network becomes its addresses
    together with the addresses of all the candidates of the block, the
    sets of the other networks are not touched, and the addresses probed
    are exactly the candidates that were not in the set, each once. *)
Theorem block_marks_and_probes_the_new_candidates c b txs st seen :
  transactions b = Some txs ->
  MultiChain.processedContracts st !! c = Some seen ->
  let st1 := (MultiChain.on_block W c (Return (Some b)) st).1.1 in
  let trace := (MultiChain.on_block W c (Return (Some b)) st).1.2 in
  MultiChain.processedContracts st1 !! c = Some (list_to_set (addresses txs) ∪ seen) /\
  (forall N, N <> c ->
     MultiChain.processedContracts st1 !! N = MultiChain.processedContracts st !! N) /\
  block_errors trace = 0%nat /\
  NoDup (probed trace) /\
  (forall N A, (N, A) ∈ probed trace <-> N = c /\ A ∈ addresses txs /\ A ∉ seen).
Proof.
  intros Hb Hs st1 trace.
  destruct (loop_registered c b txs st seen Hs) as (s1 & ev & Hloop & H1 & H2 & H3 & H4).
  assert (MultiChain.on_block W c (Return (Some b)) st = (s1, ev, Return tt)) as Hob.
  { unfold MultiChain.on_block, try_catch, mbind, lift. simpl. by rewrite Hb, Hloop. }
  pose proof (keeps_on_block (apart c) (apart_refl c) (apart_trans c) W c
                (Return (Some b)) (iteration_apart W c) st) as Hapart.
  unfold st1, trace. rewrite Hob in *. simpl in *.
  split; [done|]. split; [exact Hapart|]. split; [done|]. split; [done|].
  intros N A. rewrite H4. split.
  - intros (A' & [= -> ->] & HA & Hn). done.
  - intros (-> & HA & Hn). by exists A.
Qed.

End Platform.
End Blocks.

(** ** Deliveries and runs *)

Module Deliveries.
Import JS Eff Pipeline Trace Observe JSFacts Probe Detection Closing Once Dedup Runs.
Import Registry Blocks.

Lemma emits_for_of {S X} P (xs : list X) (body : X -> M S event unit) :
  (forall x, emits P (body x)) -> emits P (for_of xs body).
Proof.
  intros Hb. induction xs as [|x xs IH]; simpl.
  - apply emits_ret.
  - apply emits_bind; [apply Hb|]. intros _. apply IH.
Qed.

Section Platform.
Context `{Platform} (W : world).

Lemma MultiChain_run_app ds1 ds2 st :
  MultiChain.run W (ds1 ++ ds2) st
  = ((MultiChain.run W ds2 (MultiChain.run W ds1 st).1).1,
     (MultiChain.run W ds1 st).2 ++ (MultiChain.run W ds2 (MultiChain.run W ds1 st).1).2).
Proof.
  revert st. induction ds1 as [|[c f] ds1 IH]; intros st.
  - simpl. by destruct (MultiChain.run W ds2 st).
  - simpl. destruct (MultiChain.deliver W c f st) as [st1 tr1]. rewrite IH.
    destruct (MultiChain.run W ds1 st1) as [st2 tr2]. simpl.
    by rewrite app_assoc.
Qed.

Lemma Listener_run_app ds1 ds2 st :
  Listener.run W (ds1 ++ ds2) st
  = ((Listener.run W ds2 (Listener.run W ds1 st).1).1,
     (Listener.run W ds1 st).2 ++ (Listener.run W ds2 (Listener.run W ds1 st).1).2).
Proof.
  revert st. induction ds1 as [|[c f] ds1 IH]; intros st.
  - simpl. by destruct (Listener.run W ds2 st).
  - simpl. destruct (Listener.deliver W c f st) as [st1 tr1]. rewrite IH.
    destruct (Listener.run W ds1 st1) as [st2 tr2]. simpl.
    by rewrite app_assoc.
Qed.

(** X8. In both listeners a block whose fetch is rejected costs one error
    line and nothing else: the run goes on with the next blocks from the
    same state; and a fetch that answers [null], or a block without its
    list of transactions, leaves no trace at all. *)
Theorem a_failed_fetch_skips_one_block ds1 ds2 c e b :
  transactions b = None ->
  (forall st,
     let r1 := MultiChain.run W ds1 st in
     let r2 := MultiChain.run W ds2 r1.1 in
     MultiChain.run W (ds1 ++ (c, Throw e) :: ds2) st
       = (r2.1, r1.2 ++ ConsoleError (ErrorProcessingBlock e) :: r2.2) /\
     MultiChain.run W (ds1 ++ (c, Return None) :: ds2) st
       = MultiChain.run W (ds1 ++ ds2) st /\
     MultiChain.run W (ds1 ++ (c, Return (Some b)) :: ds2) st
       = MultiChain.run W (ds1 ++ ds2) st) /\
  (forall st,
     let r1 := Listener.run W ds1 st in
     let r2 := Listener.run W ds2 r1.1 in
     Listener.run W (ds1 ++ (c, Throw e) :: ds2) st
       = (r2.1, r1.2 ++ ConsoleError (ErrorProcessingBlock e) :: r2.2) /\
     Listener.run W (ds1 ++ (c, Return None) :: ds2) st
       = Listener.run W (ds1 ++ ds2) st /\
     Listener.run W (ds1 ++ (c, Return (Some b)) :: ds2) st
       = Listener.run W (ds1 ++ ds2) st).
Proof.
  intros Hb. split; intros st r1 r2.
  - rewrite !MultiChain_run_app. fold r1. simpl.
    unfold MultiChain.deliver, MultiChain.on_block, try_catch, mbind, lift, emit, ret.
    simpl. rewrite Hb. fold r2.
    by destruct r2 as [s2 t2].
  - rewrite !Listener_run_app. fold r1. simpl.
    unfold Listener.deliver, Listener.on_block, try_catch, mbind, lift, emit, ret.
    simpl. rewrite Hb. fold r2.
    by destruct r2 as [s2 t2].
Qed.

Lemma on_block_errors c f st :
  is_Some (MultiChain.processedContracts st !! c) ->
  block_errors (MultiChain.on_block W c f st).1.2
  = match f with Throw _ => 1%nat | Return _ => 0%nat end.
Proof.
  intros [seen Hs].
  unfold MultiChain.on_block, try_catch, mbind, lift, emit, ret.
  destruct f as [[b|]|e]; simpl; [|done|done].
  destruct (transactions b) as [txs|]; [|done].
  destruct (loop_registered W c b txs st seen Hs) as (s1 & ev & -> & _ & He & _).
  done.
Qed.

(** X9. From a state where the networks of the deliveries are registered,
    the four-network listener prints 'Error processing block' once for
    each rejected fetch and never otherwise: no turn of the loop and no
    close handler makes the block handler fail. *)
Theorem block_errors_are_the_rejected_fetches ds st :
  (forall d, In d ds -> is_Some (MultiChain.processedContracts st !! d.1)) ->
  block_errors (MultiChain.run W ds st).2 = rejected ds.
Proof.
  revert st. induction ds as [|[c f] ds IH]; intros st Hreg; [done|].
  simpl. pose proof (deliver_state W c f st) as Hst.
  pose proof (on_block_errors c f st (Hreg (c, f) (or_introl eq_refl))) as Hob.
  pose proof (keeps_on_block grows grows_refl grows_trans W c f
                (iteration_grows W c) st) as Hg.
  unfold MultiChain.deliver in *.
  destruct (MultiChain.on_block W c f st) as [[st1 tr1] r1]. simpl in *.
  assert (block_errors (MultiChain.run W ds st1).2 = rejected ds) as Hrest.
  { apply IH. intros d Hd. destruct (Hreg d (or_intror Hd)) as [seen Hs].
    specialize (Hg d.1). rewrite Hs in Hg. destruct Hg as (seen1 & -> & _). done. }
  destruct (MultiChain.run W ds st1) as [st2 tr2]. simpl in *.
  rewrite !block_errors_app, Hob, Hrest.
  rewrite (closing_no_block_error _ (MultiChain_closes_closing W (jobs tr1))).
  destruct f; simpl; lia.
Qed.

Lemma iteration_own_network N c b t :
  N <> c -> emits (fun e => forall a, e <> Verify N a) (MultiChain.iteration W c b t).
Proof.
  intros Hne st.
  destruct (MultiChain_iteration_cases W c b t st)
    as [[r ->]|(seen & ev & _ & _ & -> & [->|(td & stdin & _ & ->)])]; simpl.
  - constructor.
  - repeat constructor. by intros a [= -> _].
  - repeat constructor; try done. by intros a [= -> _].
Qed.

Lemma no_probe_of N ev A :
  Forall (fun e => forall a, e <> Verify N a) ev -> probes N A ev = 0%nat.
Proof.
  induction 1 as [|e ev He _ IH]; [done|].
  destruct e as [n a| | | |]; simpl; try done.
  rewrite IH. rewrite bool_decide_eq_false_2; [done|].
  intros [-> _]. by apply (He a).
Qed.

(** X11. A block delivered on one network concerns that network only: it
    leaves the sets of the other networks as they are and neither probes,
    nor scores, nor saves any address for another network. *)
Theorem a_block_concerns_its_own_network c f st N A :
  N <> c ->
  let st1 := (MultiChain.deliver W c f st).1 in
  let trace := (MultiChain.deliver W c f st).2 in
  MultiChain.processedContracts st1 !! N = MultiChain.processedContracts st !! N /\
  probes N A trace = 0%nat /\ scored N A trace = 0%nat /\ saves N A trace = 0%nat.
Proof.
  intros Hne st1 trace.
  pose proof (keeps_on_block (apart c) (apart_refl c) (apart_trans c) W c f
                (iteration_apart W c) st N Hne) as Hapart.
  pose proof (deliver_at_most_once W N A c f st) as (_ & _ & _ & H4 & H5).
  fold trace in H4, H5.
  assert (probes N A trace = 0%nat) as Hp.
  { unfold trace, MultiChain.deliver.
    assert (emits (fun e => forall a, e <> Verify N a) (MultiChain.on_block W c f)) as He.
    { unfold MultiChain.on_block. apply emits_try_catch.
      - apply emits_bind; [apply emits_lift|]. intros [b|]; [|apply emits_ret].
        destruct (transactions b) as [txs|]; [|apply emits_ret].
        apply emits_for_of. intros t. by apply iteration_own_network.
      - intros e. by apply emits_emit. }
    specialize (He st).
    destruct (MultiChain.on_block W c f st) as [[s1 tr] r]. simpl in *.
    rewrite probes_app, (no_probe_of N tr A He).
    destruct (MultiChain_closes_saves W N A (jobs tr)) as (Hq & _).
    by rewrite (probes_none N A _ Hq). }
  split; [|split; [done|split; lia]].
  unfold st1. by rewrite deliver_state.
Qed.

End Platform.
End Deliveries.

(** ** More on the close handlers *)

Module Closes.
Import JS Eff Pipeline Trace Observe JSFacts Probe Detection Closing Once Dedup Runs.
Import Verdict Persistence Saving Blocks.

Lemma sent_console pre : Forall console pre -> sent pre = [] /\ Supabase.calls pre = [].
Proof.
  induction 1 as [|e pre He _ [IH1 IH2]]; [done|].
  destruct e; simpl in *; done.
Qed.

Lemma truthy_defined v : truthy v = true -> v <> VNull /\ v <> VUndefined.
Proof. intros Ht. split; intros ->; done. Qed.

Section Platform.
Context `{Platform}.

(** The shape of the trace of the close handler of the four-network
    listener: console lines, then either the one call with the line for
    its answer, or the line of the exception thrown while the record was
    built. *)
Lemma MultiChain_on_close_shape {S} td x db (s : S) :
  let ra := if nonblank (riskResult x)
            then default VNull (JSON_parse (riskResult x)) else VNull in
  let call row := Upsert "erc20_tokens" [row] "contract_address,blockchain" in
  exists pre, Forall console pre /\
    MultiChain.on_close td x db s
    = (s,
       pre ++ (if MultiChain.available ra
               then match MultiChain.with_assessment td (MultiChain.first ra) with
                    | Return row =>
                        if logged (MultiChain.first ra)
                        then [Supabase (call row); outcome (db (call row))]
                        else [ConsoleError (SupabaseInsertException
                                (TypeError "Cannot convert object to primitive value"))]
                    | Throw e => [ConsoleError (SupabaseInsertException e)]
                    end
               else [Supabase (call td); outcome (db (call td))]),
       Return tt).
Proof.
  intros ra call. unfold MultiChain.on_close, mbind.
  assert (exists ev0, when (truthy_string (riskError x))
            (emit (ConsoleLog (PythonStderrOutput (riskError x)))) s = (s, ev0, Return tt)
          /\ Forall console ev0) as (ev0 & -> & Hev0).
  { unfold when, emit, ret.
    destruct (truthy_string _); eexists; (split; [reflexivity|]); by repeat constructor. }
  assert (exists ev1, MultiChain.riskAssessment x s = (s, ev1, Return ra)
          /\ Forall console ev1) as (ev1 & -> & Hev1).
  { unfold MultiChain.riskAssessment, try_catch, mbind, lift, emit, ret, parse, ra.
    destruct (nonblank (riskResult x)).
    - destruct (JSON_parse (riskResult x)); simpl; eexists;
        (split; [reflexivity|]); by repeat constructor.
    - destruct (negb _); simpl; eexists; (split; [reflexivity|]);
        by repeat constructor. }
  unfold MultiChain.insertData, send, report.
  unfold try_catch, mbind, lift, emit, ret, throw.
  destruct (MultiChain.available ra).
  - destruct (MultiChain.with_assessment td (MultiChain.first ra)) as [row|e] eqn:Hw.
    + destruct (with_assessment_returns _ _ _ Hw) as [Hn Hu].
      rewrite (get_field _ "fraud_type" Hn Hu), (get_field _ "risk_category" Hn Hu).
      unfold logged, interpolate. cbn [bind].
      destruct (printable (field (MultiChain.first ra) "fraud_type")); cbn [andb bind];
        [destruct (printable (field (MultiChain.first ra) "risk_category"))|].
      * exists (ev0 ++ ev1 ++ [ConsoleLog (PreparingToSave
                   (field (MultiChain.first ra) "fraud_type")
                   (field (MultiChain.first ra) "risk_category"))]).
        split; [repeat (apply Forall_app; split); try done; by repeat constructor|].
        fold (call row). destruct (db (call row)); simpl; by rewrite <- !app_assoc.
      * exists (ev0 ++ ev1). split; [by apply Forall_app|].
        simpl. by rewrite <- !app_assoc.
      * exists (ev0 ++ ev1). split; [by apply Forall_app|].
        simpl. by rewrite <- !app_assoc.
    + exists (ev0 ++ ev1). split; [by apply Forall_app|].
      simpl. by rewrite <- !app_assoc.
  - exists (ev0 ++ ev1). split; [by apply Forall_app|].
    fold (call td). destruct (db (call td)); simpl; by rewrite <- !app_assoc.
Qed.

Lemma Listener_with_assessment_truthy td v :
  truthy v = true ->
  Listener.with_assessment td v
  = Return (JS.set "tag_1" (if truthy (field v "is_suspicious")
                            then VString "Phishing" else VNull)
           (JS.set "risk_details" (stringify (field v "details"))
           (JS.set "risk_indicators" (stringify (field v "indicators"))
           (JS.set "is_suspicious" (field v "is_suspicious")
           (JS.set "risk_score" (field v "risk_score") td))))).
Proof.
  intros [Hn Hu]%truthy_defined. unfold Listener.with_assessment.
  by rewrite !(get_field _ _ Hn Hu).
Qed.

(** The shape of the trace of the close handler of the two-network
    listener: console lines, then the one call with the line for its
    answer. *)
Lemma Listener_on_close_shape {S} td x db (s : S) :
  let call row := Insert "erc20_tokens" [row] in
  exists pre row, Forall console pre /\
    Listener.on_close td x db s
    = (s, pre ++ [Supabase (call row); outcome (db (call row))], Return tt) /\
    match JSON_parse (riskResult x) with
    | Some v => if truthy v then Listener.with_assessment td v = Return row else row = td
    | None => row = td
    end.
Proof.
  intros call. unfold Listener.on_close, mbind.
  assert (exists ev0, when (truthy_string (riskError x))
            (emit (ConsoleError (PythonRiskAssessmentError (riskError x)))) s
            = (s, ev0, Return tt) /\ Forall console ev0) as (ev0 & -> & Hev0).
  { unfold when, emit, ret.
    destruct (truthy_string _); eexists; (split; [reflexivity|]); by repeat constructor. }
  unfold send, report.
  unfold try_catch, mbind, lift, emit, ret, throw, parse.
  destruct (JSON_parse (riskResult x)) as [v|]; simpl.
  - destruct (truthy v) eqn:Ht.
    + rewrite (Listener_with_assessment_truthy td v Ht).
      eexists (ev0 ++ [ConsoleLog (RiskAssessment v)]), _.
      split; [apply Forall_app; split; [done|by repeat constructor]|].
      split; [|reflexivity]. subst call. cbv beta.
      match goal with |- context [db ?c] => destruct (db c) end;
        simpl; by rewrite <- !app_assoc.
    + exists (ev0 ++ [ConsoleLog (RiskAssessment v)]), td.
      split; [apply Forall_app; split; [done|by repeat constructor]|].
      split; [|done]. fold (call td).
      destruct (db (call td)); simpl; by rewrite <- !app_assoc.
  - eexists (ev0 ++ [ConsoleError (FailedToParse _ (riskResult x))]), td.
    split; [apply Forall_app; split; [done|by repeat constructor]|].
    split; [|done]. fold (call td).
    destruct (db (call td)); simpl; by rewrite <- !app_assoc.
Qed.

End Platform.
End Closes.

Module CloseFacts.
Import JS Eff Pipeline Trace Observe JSFacts Probe Detection Closing Once Dedup Runs.
Import Verdict Persistence Saving Blocks Closes.

Lemma trace_sent pre c resp row :
  Forall console pre -> sent (pre ++ [Supabase c; outcome resp]) = [row] ->
  sent [Supabase c] = [row].
Proof.
  intros [Hs _]%sent_console. rewrite sent_app, Hs. simpl.
  by destruct c, resp; simpl; rewrite ?app_nil_r.
Qed.

Lemma blank_trimStart s : blank (trimStart s) = true -> blank s = true.
Proof.
  induction s as [|a s IH]; [done|]. simpl.
  destruct (isWhiteSpace a) eqn:Ha; simpl; [done|]. by rewrite Ha.
Qed.

Lemma trimStart_blank s : blank s = true -> trimStart s = EmptyString.
Proof.
  induction s as [|a s IH]; [done|]. simpl.
  destruct (isWhiteSpace a); simpl; [done|done].
Qed.

Lemma trimEnd_empty s : trimEnd s = EmptyString -> blank s = true.
Proof.
  induction s as [|a s IH]; [done|]. simpl.
  destruct (trimEnd s); [|done].
  destruct (isWhiteSpace a); [|done]. intros _. by apply IH.
Qed.

Lemma nonblank_blank s : nonblank s = negb (blank s).
Proof.
  unfold nonblank, truthy_string, trim.
  destruct (blank s) eqn:Hb.
  - rewrite (trimStart_blank s Hb). simpl. by rewrite andb_false_r.
  - destruct s as [|a s]; [done|]. simpl negb at 1. rewrite andb_true_l.
    apply negb_true_iff, String.eqb_neq. intros He.
    apply trimEnd_empty, blank_trimStart in He. congruence.
Qed.

Section Platform.
Context `{Platform}.

(** X12. Whatever the datastore answers (no error, an error, a rejected
    promise) a close handler ends normally and never retries a save.  The
    four-network listener, when the output of the scorer lets it build its
    record (nothing to attach, or a first assessment that is not [null]
    and that line 180 can print), upserts on the natural key exactly once,
    as its last action before the one line that reports the answer; when
    it does not, the datastore is not called at all and the line of the
    exception is the last.  The two-network listener always inserts
    exactly once. *)
Theorem datastore_is_called_once {S} td x db (s : S) :
  (builds (parsed x) = true ->
     exists row pre,
       let c := Upsert "erc20_tokens" [row] "contract_address,blockchain" in
       Forall console pre /\
       MultiChain.on_close td x db s
       = (s, pre ++ [Supabase c; outcome (db c)], Return tt)) /\
  (builds (parsed x) = false ->
     exists pre e, Forall console pre /\
       MultiChain.on_close td x db s
       = (s, pre ++ [ConsoleError (SupabaseInsertException e)], Return tt)) /\
  (exists row pre,
     let c := Insert "erc20_tokens" [row] in
     Forall console pre /\
     Listener.on_close td x db s = (s, pre ++ [Supabase c; outcome (db c)], Return tt)).
Proof.
  destruct (MultiChain_on_close_shape td x db s) as (pre & Hpre & Heq).
  unfold builds, parsed.
  set (ra := if nonblank (riskResult x)
             then default VNull (JSON_parse (riskResult x)) else VNull) in *.
  split; [|split].
  - intros Hb. destruct (MultiChain.available ra); [|by exists td, pre].
    assert (MultiChain.first ra <> VNull /\ MultiChain.first ra <> VUndefined)
      as [Hn Hu] by (split; intros E; by rewrite E in Hb).
    assert (logged (MultiChain.first ra) = true) as Hl
      by (by destruct (MultiChain.first ra)).
    destruct (with_assessment_defined td _ Hn Hu) as (row & Hw & _).
    rewrite Hw, Hl in Heq. by exists row, pre.
  - intros Hb. destruct (MultiChain.available ra); [|done].
    destruct (MultiChain.with_assessment td (MultiChain.first ra)) as [row|e] eqn:Hw.
    + destruct (with_assessment_returns _ _ _ Hw) as [Hn Hu].
      assert (logged (MultiChain.first ra) = false) as Hl
        by (by destruct (MultiChain.first ra)).
      rewrite Hl in Heq. eauto.
    + eauto.
  - destruct (Listener_on_close_shape td x db s) as (pre' & row & Hpre' & Heq' & _).
    by exists row, pre'.
Qed.

(** X13. The record a close handler sends depends on the standard output
    of the scorer alone: neither what the scorer wrote to its error
    stream, nor its exit status, nor the answers of the datastore change
    it, in either listener. *)
Theorem record_depends_on_the_output_alone {S S'} td x x' db db' (s : S) (s' : S') :
  riskResult x = riskResult x' ->
  sent (MultiChain.on_close td x db s).1.2 = sent (MultiChain.on_close td x' db' s').1.2 /\
  sent (Listener.on_close td x db s).1.2 = sent (Listener.on_close td x' db' s').1.2.
Proof.
  intros Hr. split.
  - destruct (MultiChain_on_close_sent td x db s) as (ev & -> & Hs).
    destruct (MultiChain_on_close_sent td x' db' s') as (ev' & -> & Hs').
    simpl. by rewrite Hs, Hs', Hr.
  - destruct (Listener_on_close_shape td x db s) as (pre & row & Hpre & -> & Hrow).
    destruct (Listener_on_close_shape td x' db' s') as (pre' & row' & Hpre' & -> & Hrow').
    simpl. rewrite !sent_app.
    destruct (sent_console pre Hpre) as [-> _].
    destruct (sent_console pre' Hpre') as [-> _]. simpl.
    rewrite <- Hr in Hrow'.
    assert (row = row') as <-.
    { destruct (JSON_parse (riskResult x)) as [v|]; [|by subst].
      destruct (truthy v); [|by subst].
      rewrite Hrow in Hrow'. by injection Hrow' as ->. }
    by destruct (db _), (db' _).
Qed.

(** X14. An output made of white space only (spaces, tabs, line ends)
    counts as no output: the guard of line 144 is true exactly when some
    code unit of the output is not white space, and on a blank output the
    four-network listener saves the bare record without parsing, whatever
    the parser would say and whatever the exit status. *)
Theorem blank_output_is_no_output {S} td x db (s : S) :
  nonblank (riskResult x) = negb (blank (riskResult x)) /\
  (blank (riskResult x) = true ->
     sent (MultiChain.on_close td x db s).1.2 = [td]).
Proof.
  split; [apply nonblank_blank|]. intros Hb.
  destruct (no_verdict_still_saved td x db s) as (ev & -> & Hs); [|done].
  left. by rewrite nonblank_blank, Hb.
Qed.

(** X15. The builder of lines 166-178 takes a field that is present but
    falsy (null, false, 0, the empty string) like a missing one, and keeps
    a truthy field as it is; an assessment that is not an object (a
    number, a string, a boolean, an array) gives the record of the empty
    assessment. *)
Theorem falsy_fields_take_the_defaults td props v w :
  let built := MultiChain.with_assessment td (VObject props) in
  (own "risk_category" props = Some w ->
     exists row, built = Return row /\
       own "risk_category" row = Some (if truthy w then w else VString "unknown")) /\
  (own "fraud_type" props = Some w ->
     exists row, built = Return row /\
       own "fraud_type" row = Some (if truthy w then w else VString "unknown")) /\
  (v <> VNull -> v <> VUndefined -> (forall ps, v <> VObject ps) ->
     MultiChain.with_assessment td v = MultiChain.with_assessment td (VObject [])).
Proof.
  intros built. split; [|split].
  - intros Hw. eexists. split; [reflexivity|].
    rewrite (own_set_other "risk_category" "detection_details") by done.
    rewrite (own_set_other "risk_category" "fraud_type") by done.
    rewrite own_set_same, Hw. done.
  - intros Hw. eexists. split; [reflexivity|].
    rewrite (own_set_other "fraud_type" "detection_details") by done.
    rewrite own_set_same, Hw. done.
  - intros Hn Hu Ho. destruct v; try done. by destruct (Ho props0).
Qed.

(** X16. The close handler of the two-network listener always sends
    exactly one record, whatever the scorer printed: the bare record when
    the output does not parse or parses to a falsy value, and otherwise
    the record with the five risk fields, where [tag_1] is 'Phishing' when
    [is_suspicious] is truthy and [null] when it is not; the fields of the
    token, its key among them, are never changed. *)
Theorem Listener_always_sends_one_record {S} td x db (s : S) :
  exists row,
    sent (Listener.on_close td x db s).1.2 = [row] /\
    Supabase.key row = Supabase.key td /\
    (forall k, k <> "risk_score" -> k <> "is_suspicious" -> k <> "risk_indicators" ->
       k <> "risk_details" -> k <> "tag_1" -> own k row = own k td) /\
    (JSON_parse (riskResult x) = None -> row = td) /\
    (forall v, JSON_parse (riskResult x) = Some v -> truthy v = false -> row = td) /\
    (forall v, JSON_parse (riskResult x) = Some v -> truthy v = true ->
       own "tag_1" row = Some (if truthy (field v "is_suspicious")
                               then VString "Phishing" else VNull) /\
       own "is_suspicious" row = Some (field v "is_suspicious") /\
       own "risk_score" row = Some (field v "risk_score")).
Proof.
  destruct (Listener_on_close_shape td x db s) as (pre & row & Hpre & -> & Hrow).
  exists row. simpl. rewrite sent_app. destruct (sent_console pre Hpre) as [-> _].
  split; [by destruct (db _)|].
  assert (forall k, k <> "risk_score" -> k <> "is_suspicious" -> k <> "risk_indicators" ->
            k <> "risk_details" -> k <> "tag_1" -> own k row = own k td) as Hkeep.
  { intros k H1 H2 H3 H4 H5.
    destruct (JSON_parse (riskResult x)) as [v|]; [|by subst].
    destruct (truthy v) eqn:Ht; [|by subst].
    rewrite (Listener_with_assessment_truthy td v Ht) in Hrow. injection Hrow as <-.
    by rewrite !own_set_other. }
  split; [unfold Supabase.key, Supabase.text; by rewrite !Hkeep|].
  split; [done|]. split; [|split].
  - intros Hp. by rewrite Hp in Hrow.
  - intros v Hp Ht. by rewrite Hp, Ht in Hrow.
  - intros v Hp Ht. rewrite Hp, Ht in Hrow.
    rewrite (Listener_with_assessment_truthy td v Ht) in Hrow. injection Hrow as <-.
    split; [apply own_set_same|]. split.
    + rewrite !(own_set_other "is_suspicious") by done. apply own_set_same.
    + rewrite !(own_set_other "risk_score") by done. apply own_set_same.
Qed.

End Platform.
End CloseFacts.

(** ** From probe to scorer to datastore *)

Module Causality.
Import JS Eff Pipeline Trace Observe JSFacts Probe Detection Closing Once Dedup Runs.
Import Blocks Closes.

Lemma caused_quiet N A {S X} (m : M S event X) :
  (forall s, scored N A (m s).1.2 = 0%nat /\ sent (m s).1.2 = []) -> caused N A m.
Proof. intros Hm s. destruct (Hm s) as [-> ->]. split; [lia|done]. Qed.

Lemma caused_ret N A {S X} (x : X) : caused N A (S:=S) (ret x).
Proof. by apply caused_quiet. Qed.

Lemma caused_bind N A {S X Y} (m : M S event X) (k : X -> M S event Y) :
  caused N A m -> (forall x, caused N A (k x)) -> caused N A (mbind m k).
Proof.
  intros Hm Hk s. unfold mbind. specialize (Hm s).
  destruct (m s) as [[s1 ev1] [x|e]]; [|done].
  specialize (Hk x s1). destruct (k x s1) as [[s2 ev2] r]. simpl in *.
  rewrite probes_app, scored_app, sent_app.
  destruct Hm as [Hm1 ->]. destruct Hk as [Hk1 ->]. split; [lia|done].
Qed.

Lemma caused_try_catch N A {S X} (m : M S event X) (h : exn -> M S event X) :
  caused N A m -> (forall e, caused N A (h e)) -> caused N A (try_catch m h).
Proof.
  intros Hm Hh s. unfold try_catch. specialize (Hm s).
  destruct (m s) as [[s1 ev1] [x|e]]; [done|].
  specialize (Hh e s1). destruct (h e s1) as [[s2 ev2] r]. simpl in *.
  rewrite probes_app, scored_app, sent_app.
  destruct Hm as [Hm1 ->]. destruct Hh as [Hk1 ->]. split; [lia|done].
Qed.

Lemma caused_for_of N A {S X} (xs : list X) (body : X -> M S event unit) :
  (forall x, caused N A (body x)) -> caused N A (for_of xs body).
Proof.
  intros Hb. induction xs as [|x xs IH]; simpl.
  - apply caused_ret.
  - apply caused_bind; [apply Hb|]. intros _. apply IH.
Qed.

Section Platform.
Context `{Platform} (W : world).

Lemma caused_Listener_iteration N A c b t : caused N A (Listener.iteration W c b t).
Proof.
  unfold Listener.iteration. destruct (deploys t); [|apply caused_ret].
  simpl. intros st. rewrite Listener_verify.
  destruct (tokenData c (address t) t b _) as [td|e] eqn:Htd; simpl.
  - split; [|done]. apply tokenData_key in Htd.
    unfold scored, Supabase.rows_with, Supabase.has_key. simpl. rewrite Htd.
    destruct (decide (c = N /\ address t = A)) as [[-> ->]|Hne].
    + rewrite !bool_decide_eq_true_2 by done. simpl. lia.
    + rewrite (bool_decide_eq_false_2 (Some _ = Some _)); [simpl; lia|].
      intros [= E1 E2]. by apply Hne.
  - split; [|done]. unfold scored. simpl. lia.
Qed.

Lemma caused_Listener_on_block N A c f : caused N A (Listener.on_block W c f).
Proof.
  unfold Listener.on_block. apply caused_try_catch.
  - apply caused_bind; [by apply caused_quiet|].
    intros [b|]; [|apply caused_ret].
    destruct (transactions b) as [txs|]; [|apply caused_ret].
    apply caused_for_of. intros t. apply caused_Listener_iteration.
  - intros e. by apply caused_quiet.
Qed.

Lemma Listener_close_saves N A j :
  probed (Listener.close W j) = [] /\ jobs (Listener.close W j) = [] /\
  (saves N A (Listener.close W j)
   <= length (Supabase.rows_with (A, N) [j.2]))%nat.
Proof.
  destruct j as [[job stdin] td]. unfold Listener.close.
  destruct (quiet_Listener_on_close td (python W job stdin) (supabase W job) tt)
    as [Hp Hj].
  split; [done|]. split; [done|].
  destruct (Listener_on_close_shape td (python W job stdin) (supabase W job) tt)
    as (pre & row & Hpre & -> & Hrow).
  unfold saves. simpl. rewrite sent_app. destruct (sent_console pre Hpre) as [-> _].
  assert (Supabase.key row = Supabase.key td) as Hk.
  { destruct (JSON_parse _) as [v|]; [|by subst].
    destruct (truthy v) eqn:Ht; [|by subst].
    rewrite (Listener_with_assessment_truthy td v Ht) in Hrow. injection Hrow as <-.
    unfold Supabase.key, Supabase.text. by rewrite !own_set_other. }
  assert (sent [Supabase (Insert "erc20_tokens" [row]);
                outcome (supabase W job (Insert "erc20_tokens" [row]))] = [row]) as ->.
  { by destruct (supabase W job _). }
  unfold Supabase.rows_with. simpl. unfold Supabase.has_key. rewrite Hk.
  by destruct (bool_decide (Supabase.key td = Some (A, N))).
Qed.

Lemma Listener_closes_saves N A js :
  probed (flat_map (Listener.close W) js) = [] /\
  jobs (flat_map (Listener.close W) js) = [] /\
  (saves N A (flat_map (Listener.close W) js)
   <= length (Supabase.rows_with (A, N) (map snd js)))%nat.
Proof.
  induction js as [|j js (IH1 & IH2 & IH3)]; [done|].
  destruct (Listener_close_saves N A j) as (H1 & H2 & H3).
  simpl. rewrite probed_app, jobs_app, saves_app, H1, H2, IH1, IH2.
  split; [done|]. split; [done|].
  simpl in H3. destruct (Supabase.has_key (A, N) j.2); simpl in *; lia.
Qed.

Lemma Listener_run_caused N A ds st :
  (saves N A (Listener.run W ds st).2 <= scored N A (Listener.run W ds st).2)%nat /\
  (scored N A (Listener.run W ds st).2 <= probes N A (Listener.run W ds st).2)%nat.
Proof.
  revert st. induction ds as [|[c f] ds IH]; intros st.
  - unfold saves, scored. simpl. lia.
  - simpl. unfold Listener.deliver.
    pose proof (caused_Listener_on_block N A c f st) as [Hc Hs].
    destruct (Listener.on_block W c f st) as [[st1 tr] r]. simpl in *.
    specialize (IH st1). destruct (Listener.run W ds st1) as [st2 tr2]. simpl in *.
    destruct (Listener_closes_saves N A (jobs tr)) as (C1 & C2 & C3).
    rewrite !saves_app, !scored_app, !probes_app.
    rewrite (probes_none N A _ C1).
    assert (scored N A (flat_map (Listener.close W) (jobs tr)) = 0%nat) as ->.
    { unfold scored. by rewrite C2. }
    assert (saves N A tr = 0%nat) as -> by (unfold saves; by rewrite Hs).
    assert (length (Supabase.rows_with (A, N) (map snd (jobs tr))) = scored N A tr)
      as Hsc by done.
    lia.
Qed.

(** X17. In both listeners, over any run, a record is sent to the
    datastore for an address on a network only from the close handler of a
    scorer started for it, and a scorer is started for it only after a
    probe of it: saves never outnumber scorers, nor scorers probes. *)
Theorem nothing_is_saved_unprobed ds N A :
  (forall st, let trace := (MultiChain.run W ds st).2 in
     (saves N A trace <= scored N A trace)%nat /\
     (scored N A trace <= probes N A trace)%nat) /\
  (forall st, let trace := (Listener.run W ds st).2 in
     (saves N A trace <= scored N A trace)%nat /\
     (scored N A trace <= probes N A trace)%nat).
Proof.
  split; intros st trace.
  - by destruct (run_at_most_once W N A ds st) as (_ & _ & _ & H4 & H5).
  - apply Listener_run_caused.
Qed.

(** X18. The date of the block is computed inside the same [try] as the
    three reads: when the timestamp cannot be turned into a date, a
    contract that answered all three reads is dropped like one that did
    not, with no log line, no scorer and no save; in the four-network
    listener its address has been added to the set all the same. *)
Theorem unreadable_timestamp_drops_the_token c b t A n s d :
  creates t = Some A -> A <> "" ->
  toISOString (timestamp b * 1000) = None ->
  (forall st,
     name (contract W st c A) = Return n ->
     symbol (contract W st c A) = Return s ->
     decimals (contract W st c A) = Return d ->
     Listener.iteration W c b t st = (S st, [Verify c A], Return tt)) /\
  (forall st seen,
     MultiChain.processedContracts st !! c = Some seen -> A ∉ seen ->
     name (contract W (MultiChain.tick st) c A) = Return n ->
     symbol (contract W (MultiChain.tick st) c A) = Return s ->
     decimals (contract W (MultiChain.tick st) c A) = Return d ->
     MultiChain.iteration W c b t st
     = ({| MultiChain.processedContracts :=
             <[c := {[A]} ∪ seen]> (MultiChain.processedContracts st);
           MultiChain.tick := S (MultiChain.tick st) |},
        [Verify c A], Return tt)).
Proof.
  intros Hc Hne Hiso.
  assert (forall r, name r = Return n -> symbol r = Return s -> decimals r = Return d ->
            exists e, tokenData c A t b r = Throw e) as Htd.
  { intros r Hn Hs Hd. unfold tokenData, createdBlockDatetime.
    rewrite (Promise_all_returns r n s d Hn Hs Hd). simpl. rewrite Hiso. eauto. }
  split.
  - intros st Hn Hs Hd.
    rewrite (Listener_iteration_deploys W c b t A st Hc Hne), Listener_verify.
    by destruct (Htd _ Hn Hs Hd) as [e ->].
  - intros st seen Hseen Hfresh Hn Hs Hd. unfold MultiChain.iteration.
    rewrite (deploys_address t A Hc Hne), (address_creates t A Hc).
    cbn [negb]. unfold mbind.
    rewrite (shouldProcess_spec c A st seen Hseen).
    rewrite bool_decide_eq_false_2 by done.
    rewrite MultiChain_verify. cbn [MultiChain.tick MultiChain.processedContracts].
    by destruct (Htd _ Hn Hs Hd) as [e ->].
Qed.

End Platform.
End Causality.

(** ** These properties at concrete inputs *)

Module MoreInstances.
Import JS Eff Pipeline Trace Observe JSFacts Probe Once.

Local Existing Instance Sample.platform.

(** Three networks, of which the first is healthy and has a long key. *)
Lemma key_prefix_at_three_networks :
  let l := [Fixture.mainnet; Fixture.refused; Fixture.offline] in
  In "abcdefghij" (Lifecycle.printed_keys (Lifecycle.validateNetworkConfigs l tt).1.2) /\
  (String.length "abcdefghij" <= 10)%nat /\
  "abcdefghij" <> "abcdefghijklmnopqrstuvwxyz".
Proof.
  intros l.
  assert (In "abcdefghij"
            (Lifecycle.printed_keys (Lifecycle.validateNetworkConfigs l tt).1.2)) as Hin.
  { vm_compute. by left. }
  destruct (Startup.key_line_shows_at_most_ten_characters l "abcdefghij" Hin)
    as (Hlen & _).
  split; [exact Hin|]. split; [exact Hlen|]. discriminate.
Defined.

(** A network configured twice, registered over a state where it has an
    address already. *)
Lemma registration_at_a_repeated_name :
  let names := ["base"; "polygon"; "base"] in
  let pc : gmap string (gset string) := {["base" := {["0xAAA"]}]} in
  (forall n, n ∈ names -> inherited n = false) /\
  foldl MultiChain.register pc names !! "base" = Some {["0xAAA"]} /\
  foldl MultiChain.register pc names !! "polygon" = Some ∅ /\
  foldl MultiChain.register pc names !! "ethereum" = None.
Proof.
  intros names pc.
  assert (forall n, n ∈ names -> inherited n = false) as Hn.
  { intros n Hin. unfold names in Hin. set_unfold in Hin.
    destruct Hin as [->|[->|[->|[]]]]; reflexivity. }
  split; [exact Hn|].
  destruct (Registry.registration_keeps_what_is_registered names pc "base") as [Hb _].
  destruct (Registry.registration_keeps_what_is_registered names pc "polygon") as [Hp _].
  destruct (Registry.registration_keeps_what_is_registered names pc "ethereum") as [He _].
  rewrite (Hb Hn), (Hp Hn), (He Hn). unfold pc.
  rewrite lookup_singleton_eq, !lookup_singleton_ne by done.
  split; [done|]. split; by vm_compute.
Defined.

(** Two networks whose sockets close, or are missing. *)
Lemma shutdown_at_two_networks :
  let l := [Fixture.mainnet; Fixture.offline] in
  (forall i, In i l -> Lifecycle.closes i) /\
  Lifecycle.closed (Lifecycle.shutdown l tt).1.2 = ["ethereum"] /\
  (Lifecycle.shutdown l tt).2 = Return tt.
Proof.
  intros l.
  assert (forall i, In i l -> Lifecycle.closes i) as Hc.
  { intros i [<-|[<-|[]]] w e; simpl; intros [= <-]; discriminate. }
  pose proof (Startup.shutdown_closes_every_socket l Hc) as Hs.
  split; [exact Hc|]. by rewrite Hs.
Defined.

(** The socket of the second of three networks throws when closed. *)
Lemma shutdown_at_a_failing_socket :
  let w := {| Lifecycle.close := Some (Throw (TypeError "socket is not open")) |} in
  let l := [Fixture.mainnet] ++ Fixture.refused :: [Fixture.offline] in
  (forall j, In j [Fixture.mainnet] -> Lifecycle.closes j) /\
  Lifecycle.ws (Lifecycle.sdk Fixture.refused) = Some w /\
  Lifecycle.close w = Some (Throw (TypeError "socket is not open")) /\
  Lifecycle.closed (Lifecycle.shutdown l tt).1.2 = ["ethereum"; "base"] /\
  (Lifecycle.shutdown l tt).2 = Throw (TypeError "socket is not open").
Proof.
  intros w l.
  assert (forall j, In j [Fixture.mainnet] -> Lifecycle.closes j) as Hc.
  { intros i [<-|[]] w' e; simpl; intros [= <-]; discriminate. }
  pose proof (Startup.shutdown_stops_at_a_failing_close [Fixture.mainnet]
                Fixture.refused [Fixture.offline] w _ Hc eq_refl eq_refl) as Hs.
  split; [exact Hc|]. split; [reflexivity|]. split; [reflexivity|].
  unfold l. by rewrite Hs.
Defined.

(** The address 0xAAA delivered twice on ethereum from the start-up state;
    solana is not a configured network. *)
Lemma sets_grow_at_two_blocks :
  let W := Sample.world_of Sample.foo "[{}]" 0 in
  let st1 := (MultiChain.run W Sample.twice MultiChain.startup).1 in
  MultiChain.processedContracts MultiChain.startup !! "ethereum" = Some ∅ /\
  MultiChain.processedContracts MultiChain.startup !! "solana" = None /\
  (exists seen1, MultiChain.processedContracts st1 !! "ethereum" = Some seen1) /\
  MultiChain.processedContracts st1 !! "solana" = None.
Proof.
  intros W st1.
  assert (MultiChain.processedContracts MultiChain.startup !! "ethereum" = Some ∅)
    as He by (by vm_compute).
  assert (MultiChain.processedContracts MultiChain.startup !! "solana" = None)
    as Hs by (by vm_compute).
  destruct (Registry.processed_sets_only_grow W Sample.twice MultiChain.startup "ethereum")
    as [Hsome _].
  destruct (Registry.processed_sets_only_grow W Sample.twice MultiChain.startup "solana")
    as [_ Hnone].
  destruct (Hsome ∅ He) as (seen1 & H1 & _).
  split; [exact He|]. split; [exact Hs|]. split; [by exists seen1|]. exact (Hnone Hs).
Defined.

(** A block with a transfer and a deployment, on ethereum at start-up. *)
Lemma block_at_one_deployment :
  let W := Sample.world_of Sample.foo "[{}]" 0 in
  let b := {| transactions := Some [Sample.transfer; Sample.deployment];
              timestamp := 1700000000 |} in
  let st1 := (MultiChain.on_block W "ethereum" (Return (Some b)) MultiChain.startup).1.1 in
  transactions b = Some [Sample.transfer; Sample.deployment] /\
  MultiChain.processedContracts MultiChain.startup !! "ethereum" = Some ∅ /\
  MultiChain.processedContracts st1 !! "ethereum"
    = Some (list_to_set (addresses [Sample.transfer; Sample.deployment]) ∪ ∅) /\
  MultiChain.processedContracts st1 !! "base" = Some ∅.
Proof.
  intros W b st1.
  assert (MultiChain.processedContracts MultiChain.startup !! "ethereum" = Some ∅)
    as He by (by vm_compute).
  destruct (Blocks.block_marks_and_probes_the_new_candidates W "ethereum" b
              [Sample.transfer; Sample.deployment] MultiChain.startup ∅ eq_refl He)
    as (H1 & H2 & _).
  split; [reflexivity|]. split; [exact He|]. split; [exact H1|].
  fold st1 in H2. rewrite (H2 "base") by discriminate. by vm_compute.
Defined.

(** A rejected fetch between two deliveries of a deployment, and a block
    without its list of transactions. *)
Lemma failed_fetch_at_three_deliveries :
  let W := Sample.world_of Sample.foo "[{}]" 0 in
  let b := {| transactions := None; timestamp := 1700000000 |} in
  let one := [("ethereum", Sample.block_of [Sample.deployment])] in
  let e := Rejected "timeout" in
  transactions b = None /\
  block_errors (MultiChain.run W (one ++ ("ethereum", Throw e) :: one)
                  MultiChain.startup).2 = 1%nat /\
  Listener.run W (one ++ ("ethereum", Return (Some b)) :: one) 0%nat
    = Listener.run W (one ++ one) 0%nat.
Proof.
  intros W b one e.
  destruct (Deliveries.a_failed_fetch_skips_one_block W one one "ethereum" e b eq_refl)
    as [Hnew Hold].
  destruct (Hnew MultiChain.startup) as (H1 & _).
  destruct (Hold 0%nat) as (_ & _ & H3).
  split; [reflexivity|]. split; [|exact H3].
  rewrite H1. by vm_compute.
Defined.

(** A rejected fetch and a deployment, on two configured networks. *)
Lemma block_errors_at_two_deliveries :
  let W := Sample.world_of Sample.no_symbol "[{}]" 0 in
  let ds := [("ethereum", Throw (Rejected "timeout"));
             ("base", Sample.block_of [Sample.deployment])] in
  (forall d, In d ds ->
     is_Some (MultiChain.processedContracts MultiChain.startup !! d.1)) /\
  block_errors (MultiChain.run W ds MultiChain.startup).2 = 1%nat.
Proof.
  intros W ds.
  assert (forall d, In d ds ->
            is_Some (MultiChain.processedContracts MultiChain.startup !! d.1)) as Hreg.
  { intros d [<-|[<-|[]]]; by exists ∅. }
  split; [exact Hreg|].
  exact (Deliveries.block_errors_are_the_rejected_fetches W ds MultiChain.startup Hreg).
Defined.

(** A deployment on ethereum, seen from base. *)
Lemma own_network_at_ethereum :
  let W := Sample.world_of Sample.foo "[{}]" 0 in
  let r := MultiChain.deliver W "ethereum" (Sample.block_of [Sample.deployment])
             MultiChain.startup in
  "base" <> "ethereum" /\
  MultiChain.processedContracts r.1 !! "base" = Some ∅ /\
  probes "base" "0xAAA" r.2 = 0%nat /\
  saves "base" "0xAAA" r.2 = 0%nat.
Proof.
  intros W r.
  assert ("base" <> "ethereum") as Hne by discriminate.
  destruct (Deliveries.a_block_concerns_its_own_network W "ethereum"
              (Sample.block_of [Sample.deployment]) MultiChain.startup "base" "0xAAA" Hne)
    as (H1 & H2 & _ & H4).
  split; [exact Hne|]. split; [|split; [exact H2|exact H4]].
  fold r in H1. rewrite H1. by vm_compute.
Defined.

(** The datastore answers with an error: after a scorer that printed
    nothing, and after one that printed an array holding [null]. *)
Lemma datastore_at_an_error :
  let x := Sample.scorer "" 1 in
  let y := Sample.scorer "[null]" 0 in
  let db := fun _ : db_call => DbError "connection refused" in
  let trace := (MultiChain.on_close (S:=unit) Sample.facts x db tt).1.2 in
  let trace' := (MultiChain.on_close (S:=unit) Sample.facts y db tt).1.2 in
  builds (parsed x) = true /\
  builds (parsed y) = false /\
  (exists row, Supabase.calls trace
     = [Upsert "erc20_tokens" [row] "contract_address,blockchain"]) /\
  last trace = Some (ConsoleError (SupabaseInsertError "connection refused")) /\
  Supabase.calls trace' = [].
Proof.
  intros x y db trace trace'.
  assert (builds (parsed x) = true) as Hx by (by vm_compute).
  assert (builds (parsed y) = false) as Hy by (by vm_compute).
  destruct (CloseFacts.datastore_is_called_once (S:=unit) Sample.facts x db tt)
    as (Hyes & _ & _).
  destruct (CloseFacts.datastore_is_called_once (S:=unit) Sample.facts y db tt)
    as (_ & Hno & _).
  destruct (Hyes Hx) as (row & pre & Hpre & Heq).
  destruct (Hno Hy) as (pre' & e & Hpre' & Heq').
  split; [exact Hx|]. split; [exact Hy|].
  unfold trace, trace'. rewrite Heq, Heq'. simpl.
  destruct (Closes.sent_console pre Hpre) as [_ Hc].
  destruct (Closes.sent_console pre' Hpre') as [_ Hc'].
  split; [exists row; by rewrite Saving.calls_app, Hc|].
  split; [by rewrite last_app|].
  by rewrite Saving.calls_app, Hc'.
Defined.

(** The same output with and without text on the error stream. *)
Lemma record_at_two_exits :
  let x := Sample.scorer "[{}]" 0 in
  let x' := {| riskResult := "[{}]"; riskError := "warning"; code := Some 2 |} in
  riskResult x = riskResult x' /\
  sent (MultiChain.on_close (S:=unit) Sample.facts x (fun _ => DbOk) tt).1.2
  = sent (MultiChain.on_close (S:=unit) Sample.facts x'
            (fun _ => DbError "connection refused") tt).1.2.
Proof.
  intros x x'.
  destruct (CloseFacts.record_depends_on_the_output_alone (S:=unit) (S':=unit)
              Sample.facts x x' (fun _ => DbOk) (fun _ => DbError "connection refused")
              tt tt eq_refl) as [Hnew _].
  split; [reflexivity|exact Hnew].
Defined.

(** An output of three spaces. *)
Lemma blank_at_three_spaces :
  let x := Sample.scorer "   " 0 in
  blank (riskResult x) = true /\
  sent (MultiChain.on_close (S:=unit) Sample.facts x (fun _ => DbOk) tt).1.2
  = [Sample.facts].
Proof.
  intros x.
  destruct (CloseFacts.blank_output_is_no_output (S:=unit) Sample.facts x
              (fun _ => DbOk) tt) as [_ Hb].
  split; [reflexivity|exact (Hb eq_refl)].
Defined.

(** An assessment with an empty category and a [null] fraud type, and an
    assessment that is the number 5. *)
Lemma defaults_at_falsy_fields :
  let props := [("risk_category", VString ""); ("fraud_type", VNull)] in
  own "risk_category" props = Some (VString "") /\
  own "fraud_type" props = Some VNull /\
  VNumber (Int 5) <> VNull /\ VNumber (Int 5) <> VUndefined /\
  (forall ps, VNumber (Int 5) <> VObject ps) /\
  (exists row, MultiChain.with_assessment Sample.facts (VObject props) = Return row /\
     own "risk_category" row = Some (VString "unknown")) /\
  (exists row, MultiChain.with_assessment Sample.facts (VObject props) = Return row /\
     own "fraud_type" row = Some (VString "unknown")) /\
  MultiChain.with_assessment Sample.facts (VNumber (Int 5))
  = MultiChain.with_assessment Sample.facts (VObject []).
Proof.
  intros props.
  destruct (CloseFacts.falsy_fields_take_the_defaults Sample.facts props
              (VNumber (Int 5)) (VString "")) as (H1 & _ & H3).
  destruct (CloseFacts.falsy_fields_take_the_defaults Sample.facts props
              (VNumber (Int 5)) VNull) as (_ & H2 & _).
  split; [reflexivity|]. split; [reflexivity|].
  split; [discriminate|]. split; [discriminate|]. split; [discriminate|].
  split; [exact (H1 eq_refl)|]. split; [exact (H2 eq_refl)|].
  apply H3; discriminate.
Defined.

(** A scorer that prints no JSON, one that prints [null], and one that
    finds the token suspicious. *)
Lemma one_record_at_three_outputs :
  let sends r := sent (Listener.on_close (S:=unit) Sample.facts (Sample.scorer r 0)
                         (fun _ => DbOk) tt).1.2 in
  JSON_parse "oops" = None /\
  JSON_parse "null" = Some VNull /\ truthy VNull = false /\
  JSON_parse Sample.suspicious = Some (VObject [("is_suspicious", VBool true)]) /\
  truthy (VObject [("is_suspicious", VBool true)]) = true /\
  sends "oops" = [Sample.facts] /\
  sends "null" = [Sample.facts] /\
  exists row, sends Sample.suspicious = [row] /\
              own "tag_1" row = Some (VString "Phishing").
Proof.
  intros sends.
  destruct (CloseFacts.Listener_always_sends_one_record (S:=unit) Sample.facts
              (Sample.scorer "oops" 0) (fun _ => DbOk) tt)
    as (r1 & Hs1 & _ & _ & Hnone & _).
  destruct (CloseFacts.Listener_always_sends_one_record (S:=unit) Sample.facts
              (Sample.scorer "null" 0) (fun _ => DbOk) tt)
    as (r2 & Hs2 & _ & _ & _ & Hfalsy & _).
  destruct (CloseFacts.Listener_always_sends_one_record (S:=unit) Sample.facts
              (Sample.scorer Sample.suspicious 0) (fun _ => DbOk) tt)
    as (r3 & Hs3 & _ & _ & _ & _ & Htruthy).
  split; [reflexivity|]. split; [reflexivity|]. split; [reflexivity|].
  split; [reflexivity|]. split; [reflexivity|].
  split; [unfold sends; by rewrite Hs1, (Hnone eq_refl)|].
  split; [unfold sends; by rewrite Hs2, (Hfalsy VNull eq_refl eq_refl)|].
  exists r3. split; [exact Hs3|].
  by destruct (Htruthy _ eq_refl eq_refl) as (Htag & _).
Defined.

(** A block stamped beyond the range of dates. *)
Lemma timestamp_beyond_the_range :
  let W := Sample.world_of Sample.foo "[{}]" 0 in
  let b := {| transactions := Some [Sample.deployment]; timestamp := 10000000000000 |} in
  creates Sample.deployment = Some "0xAAA" /\
  "0xAAA" <> "" /\
  toISOString (timestamp b * 1000) = None /\
  name (contract W 0%nat "ethereum" "0xAAA") = Return "Foo" /\
  symbol (contract W 0%nat "ethereum" "0xAAA") = Return "FOO" /\
  decimals (contract W 0%nat "ethereum" "0xAAA") = Return (Num (Int 18)) /\
  MultiChain.processedContracts MultiChain.startup !! "ethereum" = Some ∅ /\
  ("0xAAA" ∉ (∅ : gset string)) /\
  Listener.iteration W "ethereum" b Sample.deployment 0%nat
    = (1%nat, [Verify "ethereum" "0xAAA"], Return tt) /\
  (MultiChain.iteration W "ethereum" b Sample.deployment MultiChain.startup).1.2
    = [Verify "ethereum" "0xAAA"].
Proof.
  intros W b.
  assert (MultiChain.processedContracts MultiChain.startup !! "ethereum" = Some ∅)
    as Hs by (by vm_compute).
  assert ("0xAAA" ∉ (∅ : gset string)) as Hfresh by apply not_elem_of_empty.
  assert ("0xAAA" <> "") as Hne by discriminate.
  assert (toISOString (timestamp b * 1000) = None) as Hiso by (by vm_compute).
  destruct (Causality.unreadable_timestamp_drops_the_token W "ethereum" b
              Sample.deployment "0xAAA" "Foo" "FOO" (Num (Int 18))
              eq_refl Hne Hiso) as [Hold Hnew].
  split; [reflexivity|]. split; [exact Hne|]. split; [exact Hiso|].
  split; [reflexivity|]. split; [reflexivity|]. split; [reflexivity|].
  split; [exact Hs|]. split; [exact Hfresh|].
  split; [exact (Hold 0%nat eq_refl eq_refl eq_refl)|].
  by rewrite (Hnew MultiChain.startup ∅ Hs Hfresh eq_refl eq_refl eq_refl).
Defined.

End MoreInstances.
